(** * tsh: the job-control core of the tiny shell (tinyShell.c)

    A shallow embedding of the job table, the three signal handlers, the
    bg/fg controller, the foreground wait and the parent's side of the
    read/eval loop, followed by the properties of the job-control
    specification.

    Conventions of the embedding.
    - C [int] and [pid_t] values are integers of [Z]. The arithmetic of
      the modelled code is [x + 1] and [- x] on job IDs and pids, far
      below 2^31; the truncation [atoi] makes is written out.
    - The global array [jobs[MAXJOBS]] is a list of slots; a
      [struct job_t *] into it is the index of the slot, [NULL] is [None].
      A loop [for (i = 0; i < MAXJOBS; i++)] that returns at the first slot
      passing a test is [list_find] of that test (first index, in slot
      order); the table has [MAXJOBS] slots ([table_ok]).
    - Output, signals sent, sleeps and waitpid calls are recorded, in
      program order, in the [trace] of the shell state (the prompt is
      not).
    - [parseline] is outside the job-control core: [eval] takes the
      argument vector and the background flag it returns.
    - Signal handlers run when the environment delivers a signal, and run
      to completion. Deliveries happen where the main flow stays
      interruptible for long: while it waits for a line, when [eval]
      unblocks the signals after registering the job, and during each
      [sleep(1)] of [waitfg]. *)

From Stdlib Require Import ZArith String Ascii List Lia Bool.
From stdpp Require Import base list strings pretty.

Local Open Scope Z_scope.

(** ** Manifest constants *)

Definition MAXJOBS : nat := 16.

(** [#define MAXJID 1<<16], the "max job ID": no code uses it. *)
Definition MAXJID : Z := Z.shiftl 1 16.

Definition UNDEF : Z := 0.
Definition FG : Z := 1.
Definition BG : Z := 2.
Definition ST : Z := 3.

(** Signal numbers and waitpid options of <signal.h> and <sys/wait.h>
    (Linux values). *)
Definition SIGINT : Z := 2.
Definition SIGCONT : Z := 18.
Definition SIGTSTP : Z := 20.
Definition WNOHANG : Z := 1.
Definition WUNTRACED : Z := 2.

(** The status macros of <sys/wait.h>. *)
Definition WTERMSIG (status : Z) : Z := Z.land status 127.
Definition WSTOPSIG (status : Z) : Z := Z.land (Z.shiftr status 8) 255.
Definition WIFEXITED (status : Z) : bool := WTERMSIG status =? 0.
Definition WIFSIGNALED (status : Z) : bool :=
  (1 <=? WTERMSIG status) && (WTERMSIG status <=? 126).
Definition WIFSTOPPED (status : Z) : bool := Z.land status 255 =? 127.

(** ** The job struct and the shell state *)

Record job_t := Job { pid : Z; jid : Z; state : Z; cmdline : string }.

#[global] Instance job_t_eq_dec : EqDecision job_t.
Proof. solve_decision. Defined.

Inductive event :=
| Printf (text : string)
| Kill (target sig : Z)
| Sleep (secs : Z)
| Waitpid (target options ret : Z).

(** The globals [jobs], [nextjid] and [verbose], and the record of what
    the process has done so far. *)
Record shell := Shell {
  jobs : list job_t;
  nextjid : Z;
  verbose : Z;
  trace : list event
}.

Definition set_jobs (js : list job_t) (s : shell) : shell :=
  Shell js (nextjid s) (verbose s) (trace s).
Definition set_nextjid (n : Z) (s : shell) : shell :=
  Shell (jobs s) n (verbose s) (trace s).
Definition emit (e : event) (s : shell) : shell :=
  Shell (jobs s) (nextjid s) (verbose s) (trace s ++ [e]).

Definition LF : string := String "010"%char EmptyString.

(** [%d] of printf. *)
Definition fmt_d (n : Z) : string := pretty n.

(** ** Helper routines that manipulate the job list *)

Definition clearjob (job : job_t) : job_t := Job 0 0 UNDEF "".

Definition initjobs (js : list job_t) : list job_t := clearjob <$> js.

Definition maxjid (js : list job_t) : Z :=
  foldl (fun max j => if max <? jid j then jid j else max) 0 js.

Definition addjob (pid' state' : Z) (cmdline' : string) (s : shell)
  : Z * shell :=
  if pid' <? 1 then (0, s)
  else
    match list_find (fun j => pid j = 0) (jobs s) with
    | Some (i, _) =>
        let j := Job pid' (nextjid s) state' cmdline' in
        let next := nextjid s + 1 in
        let next := if Z.of_nat MAXJOBS <? next then 1 else next in
        let s1 := set_nextjid next (set_jobs (<[i := j]> (jobs s)) s) in
        (1, if verbose s =? 0 then s1
            else emit (Printf ("Added job [" +:+ fmt_d (jid j) +:+ "] "
                                 +:+ fmt_d (pid j) +:+ " " +:+ cmdline j
                                 +:+ LF)) s1)
    | None => (0, emit (Printf ("Tried to create too many jobs" +:+ LF)) s)
    end.

Definition deletejob (pid' : Z) (s : shell) : Z * shell :=
  if pid' <? 1 then (0, s)
  else
    match list_find (fun j => pid j = pid') (jobs s) with
    | Some (i, j) =>
        let js := <[i := clearjob j]> (jobs s) in
        (1, set_nextjid (maxjid js + 1) (set_jobs js s))
    | None => (0, s)
    end.

Definition fgpid (js : list job_t) : Z :=
  match list_find (fun j => state j = FG) js with
  | Some (_, j) => pid j
  | None => 0
  end.

Definition getjobpid (js : list job_t) (pid' : Z) : option nat :=
  if pid' <? 1 then None
  else fst <$> list_find (fun j => pid j = pid') js.

Definition getjobjid (js : list job_t) (jid' : Z) : option nat :=
  if jid' <? 1 then None
  else fst <$> list_find (fun j => jid j = jid') js.

Definition pid2jid (js : list job_t) (pid' : Z) : Z :=
  if pid' <? 1 then 0
  else
    match list_find (fun j => pid j = pid') js with
    | Some (_, j) => jid j
    | None => 0
    end.

Definition listjobs_line (i : nat) (j : job_t) : list event :=
  if pid j =? 0 then []
  else
    [ Printf ("[" +:+ fmt_d (jid j) +:+ "] (" +:+ fmt_d (pid j) +:+ ") ");
      Printf (if state j =? BG then "Running "
              else if state j =? FG then "Foreground "
              else if state j =? ST then "Stopped "
              else "listjobs: Internal error: job[" +:+ fmt_d (Z.of_nat i)
                     +:+ "].state=" +:+ fmt_d (state j) +:+ " ");
      Printf (cmdline j) ].

Definition listjobs (s : shell) : shell :=
  Shell (jobs s) (nextjid s) (verbose s)
        (trace s ++ concat (imap listjobs_line (jobs s))).

(** ** Control outcomes of the shell process *)

Inductive outcome (A : Type) : Type :=
| Ret (a : A) (s : shell)      (* control returns to the caller *)
| Segv (s : shell)             (* a NULL job pointer was dereferenced *)
| Hang (s : shell)             (* still polling when the schedule ends *)
| Exit (code : Z) (s : shell)  (* exit(code) *)
| Exec (s : shell).            (* the forked child leaves the shell code *)
Arguments Ret {A} a s.
Arguments Segv {A} s.
Arguments Hang {A} s.
Arguments Exit {A} code s.
Arguments Exec {A} s.

Definition M (A : Type) : Type := shell -> outcome A.

Definition ret {A} (a : A) : M A := fun s => Ret a s.

Definition bind {A B} (m : M A) (k : A -> M B) : M B := fun s =>
  match m s with
  | Ret a s1 => k a s1
  | Segv s1 => Segv s1
  | Hang s1 => Hang s1
  | Exit c s1 => Exit c s1
  | Exec s1 => Exec s1
  end.

Notation "'let*' x ':=' m 'in' k" := (bind m (fun x => k))
  (at level 10, x name, m at level 100, k at level 200).

Definition lift {A} (f : shell -> A * shell) : M A := fun s =>
  let (a, s1) := f s in Ret a s1.
Definition update (f : shell -> shell) : M unit := fun s => Ret tt (f s).
Definition printf (text : string) : M unit := update (emit (Printf text)).
Definition kill (target sig : Z) : M unit := update (emit (Kill target sig)).

(** The final state of an outcome, whatever the control outcome is. *)
Definition final {A} (o : outcome A) : shell :=
  match o with
  | Ret _ s | Segv s | Hang s | Exit _ s | Exec s => s
  end.

(** ** Job pointers *)

#[global] Instance job_t_inhabited : Inhabited job_t :=
  populate (Job 0 0 UNDEF "").

Definition with_state (st : Z) (j : job_t) : job_t :=
  Job (pid j) (jid j) st (cmdline j).

(** [job->state = st] through the pointer [i]. *)
Definition set_state (i : nat) (st : Z) (s : shell) : shell :=
  set_jobs (alter (with_state st) i (jobs s)) s.

(** ** Signal handlers *)

Definition job_msg (js : list job_t) (pid' : Z) (what : string) (sig : Z)
  : string :=
  "Job [" +:+ fmt_d (pid2jid js pid') +:+ "] (" +:+ fmt_d pid' +:+ ") "
    +:+ what +:+ " by signal " +:+ fmt_d sig +:+ LF.

(** The body of the reaping loop for one child [pid'] with [status]. *)
Definition reap (pid' status : Z) : M unit := fun s =>
  if WIFEXITED status then
    Ret tt (snd (deletejob pid' s))
  else if WIFSIGNALED status then
    let s1 :=
      emit (Printf (job_msg (jobs s) pid' "terminated" (WTERMSIG status))) s in
    Ret tt (snd (deletejob pid' s1))
  else if WIFSTOPPED status then
    match getjobpid (jobs s) pid' with
    | None => Segv s
    | Some i =>
        let s1 := set_state i ST s in
        Ret tt
          (emit (Printf (job_msg (jobs s1) pid' "stopped" (WSTOPSIG status)))
             s1)
    end
  else Ret tt s.

(** [pending] lists what the successive calls of
    [waitpid(-1, &status, WUNTRACED|WNOHANG)] return while a child has a
    status to report; the call after the last one returns 0 (or -1): no
    child is ready. *)
Fixpoint sigchld_handler (pending : list (Z * Z)) : M unit := fun s =>
  match pending with
  | [] => Ret tt (emit (Waitpid (-1) (Z.lor WUNTRACED WNOHANG) 0) s)
  | (p, status) :: rest =>
      let s1 := emit (Waitpid (-1) (Z.lor WUNTRACED WNOHANG) p) s in
      if 0 <? p then (let* _ := reap p status in sigchld_handler rest) s1
      else Ret tt s1
  end.

Definition sigint_handler (sig : Z) : M unit := fun s =>
  let pid' := fgpid (jobs s) in
  match getjobpid (jobs s) pid' with
  | None => Ret tt s
  | Some _ => kill (- pid') sig s
  end.

Definition sigtstp_handler (sig : Z) : M unit := fun s =>
  let pid' := fgpid (jobs s) in
  match getjobpid (jobs s) pid' with
  | None => Ret tt s
  | Some _ => kill (- pid') sig s
  end.

(** A signal the kernel delivers to the shell; SIGCHLD comes with what
    waitpid will report. *)
Inductive delivery :=
| Sigchld (pending : list (Z * Z))
| Sigint
| Sigtstp.

Definition handle (d : delivery) : M unit :=
  match d with
  | Sigchld pending => sigchld_handler pending
  | Sigint => sigint_handler SIGINT
  | Sigtstp => sigtstp_handler SIGTSTP
  end.

Fixpoint deliver (ds : list delivery) : M unit :=
  match ds with
  | [] => ret tt
  | d :: ds' => let* _ := handle d in deliver ds'
  end.

(** ** waitfg *)

(** The polling loop on the pointer [i]; [sched] gives, for each
    [sleep(1)], the signals delivered during it. *)
Fixpoint waitfg_poll (i : nat) (sched : list (list delivery)) : M unit :=
  fun s =>
    if state (jobs s !!! i) =? FG then
      match sched with
      | [] => Hang s
      | ds :: sched' =>
          (let* _ := deliver ds in waitfg_poll i sched') (emit (Sleep 1) s)
      end
    else Ret tt s.

Definition waitfg (pid' : Z) (sched : list (list delivery)) : M unit :=
  fun s =>
    match getjobpid (jobs s) pid' with
    | None => Ret tt s
    | Some i => waitfg_poll i sched s
    end.

(** ** do_bgfg *)

Definition isdigit (c : ascii) : bool :=
  let n := nat_of_ascii c in (48 <=? n)%nat && (n <=? 57)%nat.

Definition isspace (c : ascii) : bool :=
  let n := nat_of_ascii c in (n =? 32)%nat || ((9 <=? n)%nat && (n <=? 13)%nat).

Fixpoint skip_space (s : string) : string :=
  match s with
  | String c r => if isspace c then skip_space r else s
  | EmptyString => s
  end.

Fixpoint digits (acc : Z) (s : string) : Z :=
  match s with
  | String c r =>
      if isdigit c then digits (10 * acc + (Z.of_nat (nat_of_ascii c) - 48)) r
      else acc
  | EmptyString => acc
  end.

(** [atoi] is [(int) strtol(s, NULL, 10)]: the value saturates at the
    range of [long] and is then truncated to 32 bits. *)
Definition atoi (s : string) : Z :=
  let v :=
    match skip_space s with
    | String "-" r => - digits 0 r
    | String "+" r => digits 0 r
    | r => digits 0 r
    end in
  let v := Z.max (- 2 ^ 63) (Z.min (2 ^ 63 - 1) v) in
  (v + 2 ^ 31) mod 2 ^ 32 - 2 ^ 31.

(** The first half of [do_bgfg]: the job pointer and pid the argument
    resolves to, or the diagnostic printed. *)
Definition resolve (cmd arg : string) (js : list job_t)
  : (nat * Z) + string :=
  match arg with
  | String c rest =>
      if Ascii.eqb c "%" then
        match getjobjid js (atoi rest) with
        | None => inr (arg +:+ ": No such job" +:+ LF)
        | Some i => inl (i, pid (js !!! i))
        end
      else if isdigit c then
        match getjobpid js (atoi arg) with
        | None => inr ("(" +:+ fmt_d (atoi arg) +:+ "): No such process" +:+ LF)
        | Some i => inl (i, atoi arg)
        end
      else inr (cmd +:+ ": argument must be a PID or %jobid" +:+ LF)
  | EmptyString =>
      (* argv[1][0] is the terminating NUL: neither '%' nor a digit *)
      inr (cmd +:+ ": argument must be a PID or %jobid" +:+ LF)
  end.

(** [argv] is [cmd :: args]; [builtin_cmd] calls with [argv[0]] set. *)
Definition do_bgfg (cmd : string) (args : list string)
    (sched : list (list delivery)) : M unit := fun s =>
  match args with
  | [] => printf (cmd +:+ " command requires PID or %jobid argument" +:+ LF) s
  | arg :: _ =>
      match resolve cmd arg (jobs s) with
      | inr diagnostic => printf diagnostic s
      | inl (i, pid') =>
          if String.eqb "bg" cmd then
            let s1 := set_state i BG s in
            (let* _ :=
               printf ("[" +:+ fmt_d (pid2jid (jobs s1) pid') +:+ "] ("
                         +:+ fmt_d pid' +:+ ") " +:+ cmdline (jobs s1 !!! i)) in
             kill (- pid') SIGCONT) s1
          else if String.eqb "fg" cmd then
            (let* _ := kill (- pid') SIGCONT in waitfg pid' sched)
              (set_state i FG s)
          else Ret tt s
      end
  end.

(** ** builtin_cmd and eval (the parent's side) *)

Definition builtin_cmd (cmd : string) (args : list string)
    (sched : list (list delivery)) : M Z := fun s =>
  if String.eqb cmd "quit" then Exit 0 s
  else if String.eqb cmd "jobs" then Ret 1 (listjobs s)
  else if String.eqb cmd "bg" || String.eqb cmd "fg" then
    (let* _ := do_bgfg cmd args sched in ret 1) s
  else Ret 0 s.

(** One command line as [eval] meets it: the line, what [parseline]
    made of it, what [fork] returns, and the signals the environment
    delivers. *)
Record command := Command {
  c_line : string;                      (* cmdline *)
  c_argv : list string;                 (* argv, up to its NULL *)
  c_bg : Z;                             (* parseline's result *)
  c_fork : Z;                           (* fork()'s result *)
  c_strerror : string;                  (* strerror(errno) if fork fails *)
  c_unblock : list delivery;            (* delivered at SIG_UNBLOCK *)
  c_sleeps : list (list delivery)       (* delivered during each sleep(1) *)
}.

Definition eval (c : command) : M unit := fun s =>
  match c_argv c with
  | [] => Ret tt s
  | cmd :: args =>
      (let* b := builtin_cmd cmd args (c_sleeps c) in
       if b =? 0 then
         (* sigprocmask(SIG_BLOCK, ...); pid = fork(); *)
         let pid' := c_fork c in
         if pid' <? 0 then
           (* unix_error("Fork error") *)
           (let* _ := printf ("Fork error: " +:+ c_strerror c +:+ LF) in
            fun s1 => Exit 1 s1)
         else if pid' =? 0 then
           (* the child: do_redirect, setpgid, execve or exit(0) *)
           (fun s1 => Exec s1)
         else
           let* _ :=
             (if c_bg c =? 0 then
                let* _ := lift (addjob pid' FG (c_line c)) in ret tt
              else
                let* _ := lift (addjob pid' BG (c_line c)) in
                fun s1 =>
                  printf ("[" +:+ fmt_d (pid2jid (jobs s1) pid') +:+ "] ("
                            +:+ fmt_d pid' +:+ ") " +:+ c_line c) s1) in
           (* sigprocmask(SIG_UNBLOCK, ...) *)
           let* _ := deliver (c_unblock c) in
           if c_bg c =? 0 then waitfg pid' (c_sleeps c) else ret tt
       else ret tt) s
  end.

(** The read/eval loop over the lines read; [before] are the signals
    delivered while the shell waits for the line. *)
Fixpoint tsh (lines : list (list delivery * command)) : M unit :=
  match lines with
  | [] => ret tt
  | (before, c) :: rest =>
      let* _ := deliver before in
      let* _ := eval c in
      tsh rest
  end.

(** The state [main] enters the loop with. *)
Definition tsh_start (verbose' : Z) : shell :=
  Shell (initjobs (replicate MAXJOBS inhabitant)) 1 verbose' [].

(** ** Predicates on the job table *)

(** A slot is free when its pid is 0: that is what [addjob] tests to take
    a slot and what [listjobs] tests to skip one. *)
Definition live (j : job_t) : Prop := pid j ≠ 0.

#[global] Instance live_dec j : Decision (live j).
Proof. unfold live. apply _. Defined.

Definition live_pids (js : list job_t) : list Z := pid <$> filter live js.
Definition live_jids (js : list job_t) : list Z := jid <$> filter live js.

(** The largest ID among the live jobs, 0 when there is none. *)
Definition max_live_jid (js : list job_t) : Z := foldr Z.max 0 (live_jids js).

(** The state every slot is in once initialised: cleared by [clearjob],
    or filled by [addjob] and left FG, BG or ST by the state changes. *)
Definition slot_ok (j : job_t) : bool :=
  if pid j =? 0 then (jid j =? 0) && (state j =? UNDEF)
  else (1 <=? pid j) && (1 <=? jid j)
       && ((state j =? FG) || (state j =? BG) || (state j =? ST)).

Definition table_ok (s : shell) : bool :=
  (length (jobs s) =? MAXJOBS)%nat && forallb slot_ok (jobs s)
  && (1 <=? nextjid s).

(** Number of slots in state FG. *)
Definition fg_count (js : list job_t) : nat :=
  length (filter (fun j => state j = FG) js).

(** ** What the handlers may do to a slot *)

(** The footprint of the handlers on one slot: left alone, cleared (by
    [deletejob]), or a live job put in state ST. *)
Definition slot_after (j j' : job_t) : Prop :=
  j' = j \/ j' = Job 0 0 UNDEF "" \/ (pid j ≠ 0 /\ j' = with_state ST j).

Definition handled (js js' : list job_t) : Prop := Forall2 slot_after js js'.

(** ** What waitfg observes *)

(** The table reports [pid'] as the foreground job: the job found for
    [pid'] is in state FG. *)
Definition reports_fg (js : list job_t) (pid' : Z) : bool :=
  match getjobpid js pid' with
  | Some i => state (js !!! i) =? FG
  | None => false
  end.

(** The shell after the sleeps of [sched], each with its deliveries. *)
Fixpoint sleeps (sched : list (list delivery)) : M unit :=
  match sched with
  | [] => ret tt
  | ds :: sched' =>
      let* _ := update (emit (Sleep 1)) in
      let* _ := deliver ds in
      sleeps sched'
  end.

(** A call that cannot block waiting for a child: every event but a
    waitpid without WNOHANG. *)
Definition nonblocking (e : event) : bool :=
  match e with
  | Waitpid _ options _ => negb (Z.land options WNOHANG =? 0)
  | _ => true
  end.

Definition all_nonblocking (s : shell) : Prop :=
  Forall (fun e => nonblocking e = true) (trace s).

(** ** Sequences of job-table operations *)

Inductive table_op :=
| Op_addjob (pid' state' : Z) (cmdline' : string)  (* a registration *)
| Op_deletejob (pid' : Z)                          (* a removal *)
| Op_bgfg (cmd : string) (args : list string)      (* bg or fg, up to its wait *)
| Op_sigchld (pending : list (Z * Z)).             (* the child-status handler *)

Definition apply_op (op : table_op) (s : shell) : shell :=
  match op with
  | Op_addjob p st c => snd (addjob p st c s)
  | Op_deletejob p => snd (deletejob p s)
  | Op_bgfg cmd args => final (do_bgfg cmd args [] s)
  | Op_sigchld pending => final (sigchld_handler pending s)
  end.

Definition run_ops (ops : list table_op) (s : shell) : shell :=
  foldl (fun s op => apply_op op s) s ops.

(** The operations that put a job in state FG: a registration with FG,
    and the fg command. *)
Definition to_foreground (op : table_op) : bool :=
  match op with
  | Op_addjob _ st _ => st =? FG
  | Op_bgfg cmd _ => String.eqb "fg" cmd
  | _ => false
  end.

(** A sequence in which a job is put in state FG only when no job is:
    what [eval] and [do_bgfg] arrange by running [waitfg] right after
    they put a job in the foreground. *)
Fixpoint fg_disciplined (ops : list table_op) (s : shell) : bool :=
  match ops with
  | [] => true
  | op :: rest =>
      (negb (to_foreground op) || (fg_count (jobs s) =? 0)%nat)
      && fg_disciplined rest (apply_op op s)
  end.

(** ** The history of job ID assignments *)

Record assignment := Assigned {
  a_jid : Z;         (* the ID the new job got *)
  a_wrapped : bool;  (* the counter did not advance: it wrapped to 1 *)
  a_live : list Z    (* the IDs of the jobs live just before *)
}.

(** What a call of [addjob] assigns, read off the slot the job lands in. *)
Definition assignment_of (p st : Z) (c : string) (s : shell)
  : list assignment :=
  let s' := snd (addjob p st c s) in
  if fst (addjob p st c s) =? 0 then []
  else
    match list_find (fun j => pid j = 0) (jobs s) with
    | Some (i, _) =>
        [Assigned (jid (jobs s' !!! i)) (nextjid s' <=? nextjid s)
           (live_jids (jobs s))]
    | None => []
    end.

Fixpoint assignments (ops : list table_op) (s : shell) : list assignment :=
  match ops with
  | [] => []
  | op :: rest =>
      match op with
      | Op_addjob p st c => assignment_of p st c s
      | _ => []
      end ++ assignments rest (apply_op op s)
  end.

Definition add_delete_only (ops : list table_op) : bool :=
  forallb (fun op => match op with
                     | Op_addjob _ _ _ | Op_deletejob _ => true
                     | _ => false
                     end) ops.

(** The three parts of the ID policy as the specification words it. *)
Definition ids_increasing (h : list assignment) : Prop :=
  forall (n : nat) (a b : assignment),
    h !! n = Some a -> h !! S n = Some b -> a_jid a < a_jid b.

Definition ids_unique (h : list assignment) : Prop :=
  forall a : assignment, a ∈ h -> a_jid a ∉ a_live a.

Definition reuse_after_wrap (h : list assignment) : Prop :=
  forall (n m : nat) (a b : assignment),
    (n < m)%nat -> h !! n = Some a -> h !! m = Some b -> a_jid a = a_jid b ->
    (exists (k : nat) (c : assignment),
        (n <= k < m)%nat /\ h !! k = Some c /\ a_wrapped c = true) /\
    (forall u : Z, u ∈ a_live b -> a_jid b <= u).

(** The invariant of the ID counter while it has not wrapped. *)
Definition jid_inv (s : shell) : Prop :=
  Forall (fun j => pid j = 0 -> jid j = 0) (jobs s) /\
  nextjid s = maxjid (jobs s) + 1 /\
  NoDup (live_jids (jobs s)).

(** ** Sample tables and sessions *)

(** Job 1 (pid 100) runs in the background, job 2 (pid 102) is the
    foreground job. *)
Definition sample_table : shell :=
  Shell ([Job 100 1 BG ("sleep 100 &" +:+ LF); Job 102 2 FG ("sleep 5" +:+ LF)]
           ++ replicate 14 (Job 0 0 UNDEF ""))
        3 0 [].

(** Only a background job: nothing is in the foreground. *)
Definition sample_background : shell :=
  Shell (Job 100 1 BG ("sleep 100 &" +:+ LF) :: replicate 15 (Job 0 0 UNDEF ""))
        2 0 [].

(** The line [sleep 100 &] when fork returns [p]. *)
Definition bg_line (p : Z) : list delivery * command :=
  ([], Command ("sleep 100 &" +:+ LF) ["sleep"; "100"] 1 p "" [] []).

(** Seventeen background launches (pids 101 to 117) fill the table and
    leave the last child untracked; that child then stops (status 0x137f:
    stopped by signal 19) while the shell waits for the next line. *)
Definition table_full_session : list (list delivery * command) :=
  (bg_line <$> (Z.of_nat <$> seq 101 17))
    ++ [([Sigchld [(117, 4991)]], Command ("jobs" +:+ LF) ["jobs"] 0 0 "" [] [])].

(** Fifteen registrations (IDs 1 to 15), one removal, and two more
    registrations: the first gets ID 16 and wraps the counter. *)
Definition wrap_ops : list table_op :=
  ((fun p => Op_addjob (Z.of_nat p) BG "job") <$> seq 101 15)
    ++ [Op_deletejob 102; Op_addjob 116 BG "job"; Op_addjob 117 BG "job"].

(** Two registrations, a removal, and a registration. *)
Definition compaction_ops : list table_op :=
  [Op_addjob 101 BG "a"; Op_addjob 102 BG "b"; Op_deletejob 102;
   Op_addjob 103 BG "c"].

(** A foreground job that exits before the next foreground launch. *)
Definition foreground_ops : list table_op :=
  [Op_addjob 100 FG "a"; Op_sigchld [(100, 0)]; Op_addjob 101 FG "b"].

(** ** The shell between and during commands *)





(** A session with job control: a background launch, a foreground launch
    that the user suspends, [jobs], [bg %2], and [fg 100] until that job
    exits. *)
Definition job_control_session : list (list delivery * command) :=
  [ bg_line 100;
    ([], Command ("sleep 5" +:+ LF) ["sleep"; "5"] 0 102 "" []
           [[Sigtstp]; [Sigchld [(102, 5247)]]]);
    ([], Command ("jobs" +:+ LF) ["jobs"] 0 0 "" [] []);
    ([], Command ("bg %2" +:+ LF) ["bg"; "%2"] 0 0 "" [] []);
    ([], Command ("fg 100" +:+ LF) ["fg"; "100"] 0 0 "" []
           [[]; [Sigchld [(100, 0)]]]) ].

(** The line [sleep 5] in the foreground (pid 100), interrupted by
    ctrl-c during the first sleep of [waitfg]; the child dies of SIGINT
    and is reaped during the second. *)
Definition interrupt_session : list (list delivery * command) :=
  [ ([], Command ("sleep 5" +:+ LF) ["sleep"; "5"] 0 100 "" []
           [[Sigint]; [Sigchld [(100, 2)]]; []]) ].

(** * The tokenizer and the child's side of eval *)

(** ** parseline *)

Definition MAXARGS : nat := 128.

(** [strchr(buf, c)] for a character [c] other than NUL: the text before
    the first [c] (what [buf] reads as once the delimiter is overwritten with NUL) and
    the text after it ([delim + 1]); [None] is [NULL]. *)
Fixpoint strchr (c : ascii) (buf : string) : option (string * string) :=
  match buf with
  | EmptyString => None
  | String x r =>
      if Ascii.eqb x c then Some (EmptyString, r)
      else
        match strchr c r with
        | Some (before, after) => Some (String x before, after)
        | None => None
        end
  end.

(** The loop that moves [buf] over the spaces it points at. *)
Fixpoint skip_blanks (buf : string) : string :=
  match buf with
  | String x r => if Ascii.eqb x " " then skip_blanks r else buf
  | EmptyString => buf
  end.

(** [buf[strlen(buf)-1] = ' ';] on a line that is not empty. *)
Fixpoint blank_last (buf : string) : string :=
  match buf with
  | EmptyString => EmptyString
  | String x EmptyString => String " " EmptyString
  | String x r => String x (blank_last r)
  end.

(** The delimiter search at the head of an argument: a leading single
    quote is skipped and the argument runs to the next quote, otherwise
    it runs to the next space. The argument and what follows the
    delimiter, or [None] when [delim] is [NULL]. *)
Definition next_arg (buf : string) : option (string * string) :=
  match buf with
  | String x r => if Ascii.eqb x "'" then strchr "'" r else strchr " " buf
  | EmptyString => strchr " " buf
  end.

(** The loop [while (delim)]; every turn moves [buf] past one delimiter,
    so [fuel] turns are enough for a buffer of [fuel] characters. *)
Fixpoint parse_args (fuel : nat) (buf : string) : list string :=
  match fuel with
  | O => []
  | S fuel' =>
      match next_arg buf with
      | None => []
      | Some (arg, rest) => arg :: parse_args fuel' (skip_blanks rest)
      end
  end.

(** The arguments the loop collects from [buf]. *)
Definition tokens (buf : string) : list string :=
  parse_args (String.length buf) buf.

Definition starts_with (c : ascii) (s : string) : bool :=
  match s with
  | String x _ => Ascii.eqb x c
  | EmptyString => false
  end.

(** [parseline]: the background flag it returns and the argument vector
    it builds (up to its NULL). [None] where the C code writes outside
    its arrays: on an empty line ([buf[-1]]), and when the line holds
    [MAXARGS] arguments or more ([argv[MAXARGS]] and beyond). *)
Definition parseline (cmdline : string) : option (Z * list string) :=
  match cmdline with
  | EmptyString => None
  | _ =>
      let argv := tokens (skip_blanks (blank_last cmdline)) in
      if (MAXARGS <=? length argv)%nat then None
      else
        match last argv with
        | None => Some (1, [])
        | Some a =>
            if starts_with "&" a then Some (1, removelast argv)
            else Some (0, argv)
        end
  end.

(** ** Lines as typed *)

Fixpoint blanks (n : nat) : string :=
  match n with
  | O => EmptyString
  | S n' => String " " (blanks n')
  end.

Fixpoint has_char (c : ascii) (w : string) : bool :=
  match w with
  | String x r => Ascii.eqb x c || has_char c r
  | EmptyString => false
  end.

(** A word typed without quotes: it is not empty, holds no space and
    does not start with a quote. *)
Definition plain (w : string) : bool :=
  match w with
  | String x _ => negb (Ascii.eqb x "'") && negb (has_char " " w)
  | EmptyString => false
  end.

(** Words typed one after the other, each followed by one space and as
    many more as given. *)
Fixpoint spaced (ws : list (string * nat)) : string :=
  match ws with
  | [] => EmptyString
  | (w, n) :: rest => w +:+ String " " (blanks n +:+ spaced rest)
  end.

(** [eval] on a line as read: [parseline], then the rest of [eval]. *)
Definition eval_line (cmdline : string) (fork_ret : Z) (strerror : string)
    (unblock : list delivery) (sleeps : list (list delivery)) (s : shell)
  : option (outcome unit) :=
  match parseline cmdline with
  | None => None
  | Some (bg, argv) =>
      Some (eval (Command cmdline argv bg fork_ret strerror unblock sleeps) s)
  end.

(** ** do_redirect and the child *)

Definition O_RDONLY : Z := 0.
Definition O_WRONLY : Z := 1.
Definition O_CREAT : Z := 64.
Definition STDIN_FILENO : Z := 0.
Definition STDOUT_FILENO : Z := 1.
(** [S_IRUSR|S_IWUSR|S_IRGRP|S_IWGRP|S_IROTH|S_IWOTH] *)
Definition MODE_RW_ALL : Z := 438.

(** What the kernel answers the child. *)
Record syscalls := Syscalls {
  sys_open : string -> Z -> Z;        (* open(path, flags, mode): fd or -1 *)
  sys_close : Z -> Z;                 (* close(fd): 0 or -1 *)
  sys_execve : string -> list string -> bool  (* is the image replaced *)
}.

Inductive child_event :=
| Open (path : option string) (flags mode ret : Z)
| Dup2 (oldfd newfd : Z)
| Close (fd ret : Z)
| Perror (msg : string)
| Setpgid (pid' pgid : Z)
| Unblock
| Execve (path : option string) (args : list string) (replaced : bool)
| Say (text : string)
| Leave (code : Z).

(** [open] on [argv[i+1]]; on the NULL that ends the vector it fails. *)
Definition open_call (sys : syscalls) (path : option string) (flags : Z) : Z :=
  match path with
  | Some p => sys_open sys p flags
  | None => -1
  end.

(** One redirection: open, then dup2 onto [target], then close. The
    events, and whether the code goes on to cut the vector. *)
Definition redirect_to (sys : syscalls) (path : option string)
    (flags mode target : Z) : list child_event * bool :=
  let fd := open_call sys path flags in
  if fd <? 0 then ([Open path flags mode fd; Perror "open"], false)
  else if sys_close sys fd <? 0 then
    ([Open path flags mode fd; Dup2 fd target; Close fd (sys_close sys fd);
      Perror "close"], false)
  else
    ([Open path flags mode fd; Dup2 fd target; Close fd (sys_close sys fd)],
     true).

(** The loop [for (i = 0; argv[i]; i++)] on the vector as an array whose
    cut entries are [None]; reading at its end gives the NULL that ends
    it. The index grows by one each turn, so [fuel] turns from index [i]
    are enough when [i + fuel] reaches the length. *)
Fixpoint do_redirect_loop (sys : syscalls) (fuel i : nat)
    (argv : list (option string)) : list (option string) * list child_event :=
  match fuel with
  | O => (argv, [])
  | S fuel' =>
      match argv !! i with
      | Some (Some a) =>
          if String.eqb a "<" then
            let (ev, cut) :=
              redirect_to sys (default None (argv !! S i)) O_RDONLY 0
                STDIN_FILENO in
            if cut then
              let (argv', ev') :=
                do_redirect_loop sys fuel' (S i) (<[i := None]> argv) in
              (argv', ev ++ ev')
            else (argv, ev)
          else if String.eqb a ">" then
            let (ev, cut) :=
              redirect_to sys (default None (argv !! S i))
                (Z.lor O_WRONLY O_CREAT) MODE_RW_ALL STDOUT_FILENO in
            if cut then
              let (argv', ev') :=
                do_redirect_loop sys fuel' (S i) (<[i := None]> argv) in
              (argv', ev ++ ev')
            else (argv, ev)
          else do_redirect_loop sys fuel' (S i) argv
      | _ => (argv, [])
      end
  end.

Definition do_redirect (sys : syscalls) (argv : list (option string))
  : list (option string) * list child_event :=
  do_redirect_loop sys (length argv) 0 argv.

Definition operator (w : string) : bool :=
  String.eqb w "<" || String.eqb w ">".

(** The redirection the loop does on meeting [op] followed by [path]. *)
Definition redirect_of (sys : syscalls) (op : string) (path : option string)
  : list child_event * bool :=
  if String.eqb op "<" then redirect_to sys path O_RDONLY 0 STDIN_FILENO
  else redirect_to sys path (Z.lor O_WRONLY O_CREAT) MODE_RW_ALL STDOUT_FILENO.

(** The arguments [execve] sees: the vector up to its first NULL. *)
Fixpoint exec_args (argv : list (option string)) : list string :=
  match argv with
  | Some a :: rest => a :: exec_args rest
  | _ => []
  end.

(** The branch [pid == 0] of [eval]: what the child does with the
    vector [parseline] built. A NULL [argv[0]] cannot be executed, and
    printf writes it as "(null)". *)
Definition child (sys : syscalls) (argv : list string) : list child_event :=
  let (argv', ev) := do_redirect sys (Some <$> argv) in
  let path := default None (argv' !! 0%nat) in
  let replaced :=
    match path with
    | Some p => sys_execve sys p (exec_args argv')
    | None => false
    end in
  ev ++ [Setpgid 0 0; Unblock; Execve path (exec_args argv') replaced]
     ++ (if replaced then []
         else [Say (default "(null)" path +:+ ": Command not found." +:+ LF);
               Leave 0]).

(** ** The conversion in atoi *)

(** [(int) v] for the [long] that [strtol] returns on the digits read:
    saturated at the range of [long], then truncated to 32 bits. *)
Definition int_of (v : Z) : Z :=
  (Z.max (- 2 ^ 63) (Z.min (2 ^ 63 - 1) v) + 2 ^ 31) mod 2 ^ 32 - 2 ^ 31.

(** ** Lines that fork *)

(** The four names [builtin_cmd] compares [argv[0]] with. *)
Definition builtin_name (cmd : string) : bool :=
  String.eqb cmd "quit" || String.eqb cmd "jobs"
  || String.eqb cmd "bg" || String.eqb cmd "fg".

(** ** Sample data *)

(** A kernel in which [/bin/ls] can be executed, every file but those
    under [/proc] can be opened (as descriptor 3), and [close]
    succeeds. *)
Definition sample_sys : syscalls :=
  Syscalls (fun path _ => if String.prefix "/proc" path then -1 else 3)
           (fun _ => 0)
           (fun path _ => String.eqb path "/bin/ls").

(** Sixteen background jobs (pids 101 to 116): no slot is free. *)
Definition full_table : shell :=
  Shell ((fun n => Job (Z.of_nat n) (Z.of_nat n - 100) BG "job")
           <$> seq 101 16)
        1 0 [].

(** The table of [wrap_ops] before its last registration: fifteen live
    jobs, among them job 1, and the counter back at 1. *)
Definition wrapped_table : shell := run_ops (take 17 wrap_ops) (tsh_start 0).

(** * Properties *)

(** ** The table scans *)

Lemma foldr_max_nonneg (l : list Z) : 0 <= foldr Z.max 0 l.
Proof. induction l; simpl; lia. Qed.

Lemma maxjid_acc (js : list job_t) (acc : Z) :
  0 <= acc ->
  foldl (fun max j => if max <? jid j then jid j else max) acc js
  = Z.max acc (foldr Z.max 0 (jid <$> js)).
Proof.
  revert acc. induction js as [|j js IH]; intros acc Hacc.
  - simpl. lia.
  - rewrite fmap_cons. cbn [foldl foldr].
    pose proof (foldr_max_nonneg (jid <$> js)).
    destruct (Z.ltb_spec acc (jid j)); rewrite IH by lia; lia.
Qed.

Lemma maxjid_foldr (js : list job_t) :
  maxjid js = foldr Z.max 0 (jid <$> js).
Proof.
  unfold maxjid. rewrite maxjid_acc by lia.
  pose proof (foldr_max_nonneg (jid <$> js)). lia.
Qed.

Lemma foldr_max_ge (l : list Z) (x : Z) : x ∈ l -> x <= foldr Z.max 0 l.
Proof.
  induction 1; simpl; lia.
Qed.

(** When the free slots carry jid 0, [maxjid] is the largest live ID. *)
Lemma maxjid_live (js : list job_t) :
  Forall (fun j => pid j = 0 -> jid j = 0) js ->
  maxjid js = max_live_jid js.
Proof.
  rewrite maxjid_foldr. unfold max_live_jid, live_jids.
  induction 1 as [|j js Hj _ IH]; [done|].
  rewrite fmap_cons, filter_cons. cbn [foldr]. rewrite IH.
  destruct (decide (live j)) as [Hl|Hl].
  - by rewrite fmap_cons.
  - assert (pid j = 0) as E.
    { unfold live in Hl. destruct (decide (pid j = 0)); [done|contradiction]. }
    rewrite (Hj E).
    pose proof (foldr_max_nonneg (jid <$> filter live js)). lia.
Qed.

Lemma getjobpid_Some (js : list job_t) (pid' : Z) (i : nat) :
  getjobpid js pid' = Some i <->
  1 <= pid' /\ exists j, list_find (fun j => pid j = pid') js = Some (i, j).
Proof.
  unfold getjobpid. destruct (Z.ltb_spec pid' 1).
  - split; [done|lia].
  - destruct (list_find _ js) as [[k j]|]; simpl; split.
    + intros [= ->]. eauto.
    + intros [_ [j' [= -> ->]]]. done.
    + done.
    + intros [_ [j' ?]]. done.
Qed.

Lemma getjobpid_None (js : list job_t) (pid' : Z) :
  getjobpid js pid' = None <->
  pid' < 1 \/ Forall (fun j => pid j ≠ pid') js.
Proof.
  unfold getjobpid. destruct (Z.ltb_spec pid' 1).
  - split; [auto|done].
  - destruct (list_find _ js) as [[k j]|] eqn:Hf; simpl.
    + split; [done | intros [?|HF]; [lia|]].
      apply (list_find_None (fun j => pid j = pid')) in HF. congruence.
    + split; [|done]. intros _. right.
      by apply (list_find_None (fun j => pid j = pid')).
Qed.

Lemma getjobjid_Some (js : list job_t) (jid' : Z) (i : nat) :
  getjobjid js jid' = Some i <->
  1 <= jid' /\ exists j, list_find (fun j => jid j = jid') js = Some (i, j).
Proof.
  unfold getjobjid. destruct (Z.ltb_spec jid' 1).
  - split; [done|lia].
  - destruct (list_find _ js) as [[k j]|]; simpl; split.
    + intros [= ->]. eauto.
    + intros [_ [j' [= -> ->]]]. done.
    + done.
    + intros [_ [j' ?]]. done.
Qed.

(** ** addjob and deletejob *)

(** C4. [addjob] returns 0 exactly when the pid is below 1 or all 16
    slots of the table are occupied, and then leaves the table (slots
    and [nextjid]) as it was; otherwise it returns 1 and the job sits in
    the first free slot. *)
Theorem addjob_result (s : shell) (pid' state' : Z) (cmdline' : string) :
  length (jobs s) = MAXJOBS ->
  let r := addjob pid' state' cmdline' s in
  let full :=
    forall i : nat, (i < 16)%nat -> exists j, jobs s !! i = Some j /\ pid j ≠ 0 in
  (fst r = 0 <-> pid' < 1 \/ full) /\
  (fst r = 0 -> jobs (snd r) = jobs s /\ nextjid (snd r) = nextjid s) /\
  (fst r ≠ 0 ->
     fst r = 1 /\
     exists (i : nat) (j0 : job_t),
       jobs s !! i = Some j0 /\ pid j0 = 0 /\
       (forall (k : nat) (j : job_t),
           (k < i)%nat -> jobs s !! k = Some j -> pid j ≠ 0) /\
       jobs (snd r) = <[i := Job pid' (nextjid s) state' cmdline']> (jobs s)).
Proof.
  intros Hlen r full. subst r. unfold addjob.
  destruct (Z.ltb_spec pid' 1) as [Hp|Hp]; simpl.
  { split_and!; [split; auto | done | done]. }
  destruct (list_find _ (jobs s)) as [[i j0]|] eqn:Hf.
  - apply list_find_Some in Hf as (Hi & H0 & Hfirst). simpl.
    split_and!.
    + split; [done|]. intros [?|Hfull]; [lia|].
      destruct (Hfull i) as (j & Hj & Hne).
      { apply lookup_lt_Some in Hi. unfold MAXJOBS in Hlen. lia. }
      congruence.
    + done.
    + intros _. split; [done|]. exists i, j0. split_and!; try done.
      * intros k j Hk Hj. by apply (Hfirst k j).
      * by destruct (verbose s =? 0).
  - apply list_find_None in Hf. simpl. split_and!; [|done|done].
    split; [|done]. intros _. right. intros i Hi.
    destruct (lookup_lt_is_Some_2 (jobs s) i) as [j Hj].
    { unfold MAXJOBS in Hlen. lia. }
    exists j. split; [done|]. by apply (Forall_lookup_1 _ _ _ _ Hf Hj).
Qed.

(** C3. Deleting a tracked pid succeeds, clears the slot found for it,
    and leaves [nextjid] at [maxjid + 1] of the table that remains, where
    [maxjid] is the largest ID among the jobs still live. *)
Theorem deletejob_nextjid (s : shell) (pid' : Z) (i : nat) :
  Forall (fun j => pid j = 0 -> jid j = 0) (jobs s) ->
  getjobpid (jobs s) pid' = Some i ->
  let r := deletejob pid' s in
  fst r = 1 /\
  jobs (snd r) = <[i := Job 0 0 UNDEF ""]> (jobs s) /\
  nextjid (snd r) = maxjid (jobs (snd r)) + 1 /\
  maxjid (jobs (snd r)) = max_live_jid (jobs (snd r)).
Proof.
  intros Hclean Hget r. subst r.
  apply getjobpid_Some in Hget as (Hp & j & Hf).
  unfold deletejob. destruct (Z.ltb_spec pid' 1); [lia|].
  rewrite Hf. simpl. split_and!; try done.
  apply maxjid_live. apply Forall_insert; done.
Qed.

(** ** Pointers into the table *)

Lemma getjobpid_lookup (js : list job_t) (pid' : Z) (i : nat) :
  getjobpid js pid' = Some i ->
  1 <= pid' /\ js !! i = Some (js !!! i) /\ pid (js !!! i) = pid' /\
  (forall (k : nat) (j : job_t), (k < i)%nat -> js !! k = Some j -> pid j ≠ pid').
Proof.
  intros (Hp & j & Hf)%getjobpid_Some.
  apply list_find_Some in Hf as (Hi & Hj & Hfirst).
  rewrite (list_lookup_total_correct _ _ _ Hi). split_and!; try done.
  intros k j' Hk Hj'. by apply (Hfirst k j').
Qed.

Lemma getjobjid_lookup (js : list job_t) (jid' : Z) (i : nat) :
  getjobjid js jid' = Some i ->
  1 <= jid' /\ js !! i = Some (js !!! i) /\ jid (js !!! i) = jid'.
Proof.
  intros (Hp & j & Hf)%getjobjid_Some.
  apply list_find_Some in Hf as (Hi & Hj & Hfirst).
  rewrite (list_lookup_total_correct _ _ _ Hi). done.
Qed.

Lemma pid2jid_getjobpid (js : list job_t) (pid' : Z) (i : nat) :
  getjobpid js pid' = Some i -> pid2jid js pid' = jid (js !!! i).
Proof.
  intros (Hp & j & Hf)%getjobpid_Some. unfold pid2jid.
  destruct (Z.ltb_spec pid' 1); [lia|]. rewrite Hf.
  apply list_find_Some in Hf as (Hi & _).
  by rewrite (list_lookup_total_correct _ _ _ Hi).
Qed.

Lemma alter_lookup_total (js : list job_t) (f : job_t -> job_t) (i : nat) :
  (i < length js)%nat -> alter f i js = <[i := f (js !!! i)]> js.
Proof.
  intros Hi. apply list_eq. intros k.
  destruct (decide (i = k)) as [<-|Hne].
  - rewrite list_lookup_alter, decide_True by done.
    rewrite list_lookup_insert_eq by done.
    destruct (lookup_lt_is_Some_2 js i Hi) as [j Hj].
    by rewrite Hj, (list_lookup_total_correct _ _ _ Hj).
  - by rewrite list_lookup_alter_ne, list_lookup_insert_ne.
Qed.

(** A state change through a pointer leaves the pid scans where they
    were. *)
Lemma list_find_pid_with_state (js : list job_t) (pid' st : Z) (i : nat) :
  list_find (fun j => pid j = pid') (alter (with_state st) i js)
  = (fun kj => (kj.1, if decide (kj.1 = i) then with_state st kj.2 else kj.2))
      <$> list_find (fun j => pid j = pid') js.
Proof.
  revert i. induction js as [|x js IH]; intros i; [done|].
  destruct i as [|i].
  - cbn. destruct (decide (pid x = pid')) as [E|E]; [done|].
    destruct (list_find _ js) as [[k j]|]; [|done]. done.
  - cbn. destruct (decide (pid x = pid')) as [E|E]; [done|].
    change (list_alter (with_state st) i js) with (alter (with_state st) i js).
    rewrite IH. destruct (list_find _ js) as [[k j]|]; [|done]. cbn.
    destruct (decide (k = i)) as [->|Hk].
    + by rewrite decide_True.
    + by rewrite decide_False by lia.
Qed.

Lemma getjobpid_set_state (s : shell) (pid' st : Z) (i : nat) :
  getjobpid (jobs (set_state i st s)) pid' = getjobpid (jobs s) pid'.
Proof.
  unfold getjobpid, set_state. simpl.
  destruct (pid' <? 1); [done|].
  rewrite list_find_pid_with_state.
  by destruct (list_find _ (jobs s)) as [[k j]|].
Qed.

Lemma pid2jid_set_state (s : shell) (pid' st : Z) (i : nat) :
  pid2jid (jobs (set_state i st s)) pid' = pid2jid (jobs s) pid'.
Proof.
  unfold pid2jid, set_state. simpl.
  destruct (pid' <? 1); [done|].
  rewrite list_find_pid_with_state.
  destruct (list_find _ (jobs s)) as [[k j]|]; simpl; [|done].
  by destruct (decide (k = i)).
Qed.

Lemma set_state_insert (s : shell) (st : Z) (i : nat) :
  (i < length (jobs s))%nat ->
  jobs (set_state i st s) = <[i := with_state st (jobs s !!! i)]> (jobs s).
Proof. intros Hi. unfold set_state. simpl. by apply alter_lookup_total. Qed.

(** ** The wait status macros *)

Lemma wstatus_stopped (status : Z) :
  WIFSTOPPED status = true ->
  WIFEXITED status = false /\ WIFSIGNALED status = false.
Proof.
  unfold WIFSTOPPED, WIFEXITED, WIFSIGNALED, WTERMSIG. intros H%Z.eqb_eq.
  assert (Z.land status 127 = 127) as ->.
  { change 127 with (Z.land 255 127) at 1. by rewrite Z.land_assoc, H. }
  done.
Qed.

Lemma wstatus_signaled (status : Z) :
  WIFSIGNALED status = true -> WIFEXITED status = false.
Proof.
  unfold WIFEXITED, WIFSIGNALED. intros [H _]%andb_true_iff.
  apply Z.leb_le in H. apply Z.eqb_neq. lia.
Qed.

(** ** The child-status handler *)

Lemma deletejob_tracked (s : shell) (pid' : Z) (i : nat) :
  getjobpid (jobs s) pid' = Some i ->
  snd (deletejob pid' s)
  = set_nextjid (maxjid (<[i := Job 0 0 UNDEF ""]> (jobs s)) + 1)
      (set_jobs (<[i := Job 0 0 UNDEF ""]> (jobs s)) s).
Proof.
  intros (Hp & j & Hf)%getjobpid_Some. unfold deletejob.
  destruct (Z.ltb_spec pid' 1); [lia|]. by rewrite Hf.
Qed.

Lemma deletejob_untracked (s : shell) (pid' : Z) :
  getjobpid (jobs s) pid' = None -> deletejob pid' s = (0, s).
Proof.
  unfold getjobpid, deletejob. destruct (pid' <? 1); [done|].
  by destruct (list_find _ (jobs s)) as [[k j]|].
Qed.

(** C5. At any iteration of the reaping loop, when waitpid returns the
    pid of a tracked job: after a normal exit the job is deleted and
    nothing is printed; after a death by signal the handler prints
    "Job [jid] (pid) terminated by signal n" and then deletes the job;
    after a stop it sets the job's state to ST and prints
    "Job [jid] (pid) stopped by signal n", the job staying in its slot.
    In each case the loop goes on with the next pending child. *)
Theorem sigchld_handler_reaps
    (s : shell) (pid' status : Z) (rest : list (Z * Z)) (i : nat) :
  getjobpid (jobs s) pid' = Some i ->
  let j := jobs s !!! i in
  let s0 := emit (Waitpid (-1) (Z.lor WUNTRACED WNOHANG) pid') s in
  let cleared := <[i := Job 0 0 UNDEF ""]> (jobs s) in
  let deleted s' := set_nextjid (maxjid cleared + 1) (set_jobs cleared s') in
  (WIFEXITED status = true ->
     sigchld_handler ((pid', status) :: rest) s
     = sigchld_handler rest (deleted s0)) /\
  (WIFSIGNALED status = true ->
     sigchld_handler ((pid', status) :: rest) s
     = sigchld_handler rest
         (deleted
            (emit (Printf ("Job [" +:+ fmt_d (jid j) +:+ "] (" +:+ fmt_d pid'
                             +:+ ") terminated by signal "
                             +:+ fmt_d (WTERMSIG status) +:+ LF)) s0))) /\
  (WIFSTOPPED status = true ->
     sigchld_handler ((pid', status) :: rest) s
     = sigchld_handler rest
         (emit (Printf ("Job [" +:+ fmt_d (jid j) +:+ "] (" +:+ fmt_d pid'
                          +:+ ") stopped by signal "
                          +:+ fmt_d (WSTOPSIG status) +:+ LF))
            (set_jobs (<[i := with_state ST j]> (jobs s)) s0))).
Proof.
  intros Hget j s0 cleared deleted.
  destruct (getjobpid_lookup _ _ _ Hget) as (Hp & Hi & Hpid & _).
  assert (getjobpid (jobs s0) pid' = Some i) as Hget0 by done.
  cbn [sigchld_handler]. fold s0.
  destruct (Z.ltb_spec 0 pid') as [_|?]; [|lia].
  unfold bind, reap, job_msg. split_and!.
  - intros ->. by rewrite (deletejob_tracked _ _ _ Hget0).
  - intros Hsig. rewrite (wstatus_signaled _ Hsig), Hsig.
    rewrite (pid2jid_getjobpid _ _ _ Hget0).
    by rewrite (deletejob_tracked _ pid' i).
  - intros Hst. destruct (wstatus_stopped _ Hst) as [-> ->]. rewrite Hst, Hget0.
    rewrite pid2jid_set_state, (pid2jid_getjobpid _ _ _ Hget0).
    f_equal. f_equal. unfold set_state.
    rewrite alter_lookup_total; [done|]. by eapply lookup_lt_Some.
Qed.

(** The stopped branch dereferences the lookup result unchecked. *)
Lemma reap_stopped_untracked (s : shell) (pid' status : Z) :
  WIFSTOPPED status = true ->
  getjobpid (jobs s) pid' = None ->
  reap pid' status s = Segv s.
Proof.
  intros Hst Hget. unfold reap.
  destruct (wstatus_stopped _ Hst) as [-> ->]. by rewrite Hst, Hget.
Qed.

(** ** The interrupt and stop forwarders *)

Lemma slot_ok_fg (js : list job_t) (i : nat) (j : job_t) :
  forallb slot_ok js = true -> js !! i = Some j -> state j = FG -> 1 <= pid j.
Proof.
  intros Hok Hi Hst. rewrite forallb_forall in Hok.
  assert (slot_ok j = true) as Hj.
  { apply Hok. apply list_elem_of_In. by eapply list_elem_of_lookup_2. }
  unfold slot_ok in Hj. rewrite Hst in Hj.
  destruct (Z.eqb_spec (pid j) 0).
  - by rewrite andb_false_r in Hj.
  - apply andb_true_iff in Hj as [[H1 _]%andb_true_iff _]. lia.
Qed.

Lemma fg_count_0 (js : list job_t) :
  fg_count js = 0%nat <-> Forall (fun j => state j ≠ FG) js.
Proof.
  unfold fg_count. induction js as [|x js IH]; [done|].
  rewrite filter_cons, Forall_cons.
  destruct (decide (state x = FG)) as [E|E]; simpl.
  - split; [lia | by intros [? _]].
  - rewrite IH. split; [done | by intros [_ ?]].
Qed.

Lemma fgpid_none (js : list job_t) : fg_count js = 0%nat -> fgpid js = 0.
Proof.
  intros H%fg_count_0. unfold fgpid.
  apply (list_find_None (fun j => state j = FG)) in H. by rewrite H.
Qed.

Lemma fgpid_first (js : list job_t) (i : nat) (j : job_t) :
  js !! i = Some j -> state j = FG ->
  (forall (k : nat) (j' : job_t),
      (k < i)%nat -> js !! k = Some j' -> state j' ≠ FG) ->
  fgpid js = pid j.
Proof.
  intros Hi Hst Hfirst. unfold fgpid.
  assert (list_find (fun j => state j = FG) js = Some (i, j)) as ->; [|done].
  apply list_find_Some. split_and!; try done.
  intros k j' Hk Hlt. by apply (Hfirst k j').
Qed.

Lemma getjobpid_member (js : list job_t) (i : nat) (j : job_t) :
  js !! i = Some j -> 1 <= pid j -> is_Some (getjobpid js (pid j)).
Proof.
  intros Hi Hp. destruct (getjobpid js (pid j)) eqn:E; [done|].
  apply getjobpid_None in E as [?|HF]; [lia|].
  by destruct (Forall_lookup_1 _ _ _ _ HF Hi).
Qed.

Lemma table_ok_slots (s : shell) :
  table_ok s = true ->
  length (jobs s) = MAXJOBS /\ forallb slot_ok (jobs s) = true /\ 1 <= nextjid s.
Proof.
  unfold table_ok. intros [[H1 H2]%andb_true_iff H3]%andb_true_iff.
  apply Nat.eqb_eq in H1. apply Z.leb_le in H3. done.
Qed.

(** C6. The interrupt and stop forwarders do nothing when no job is in
    state FG; otherwise each sends its own signal to minus the pid of the
    foreground job (the first slot in state FG), that is to its process
    group; in no case do they touch the slots of the table. *)
Theorem forwarders_spec (s : shell) :
  table_ok s = true ->
  (fg_count (jobs s) = 0%nat ->
     handle Sigint s = Ret tt s /\ handle Sigtstp s = Ret tt s) /\
  (forall (i : nat) (j : job_t),
      jobs s !! i = Some j -> state j = FG ->
      (forall (k : nat) (j' : job_t),
          (k < i)%nat -> jobs s !! k = Some j' -> state j' ≠ FG) ->
      handle Sigint s = Ret tt (emit (Kill (- pid j) SIGINT) s) /\
      handle Sigtstp s = Ret tt (emit (Kill (- pid j) SIGTSTP) s)) /\
  jobs (final (handle Sigint s)) = jobs s /\
  jobs (final (handle Sigtstp s)) = jobs s.
Proof.
  intros (_ & Hok & _)%table_ok_slots. simpl.
  unfold sigint_handler, sigtstp_handler. split_and!.
  - intros H0. rewrite (fgpid_none _ H0). done.
  - intros i j Hi Hst Hfirst. rewrite (fgpid_first _ _ _ Hi Hst Hfirst).
    destruct (getjobpid_member _ _ _ Hi (slot_ok_fg _ _ _ Hok Hi Hst)) as [k ->].
    done.
  - by destruct (getjobpid _ _).
  - by destruct (getjobpid _ _).
Qed.

(** ** do_bgfg *)

(** C8. Called without an argument, with a %jobid or a pid that names no
    tracked job, or with an argument that is neither, [do_bgfg] prints
    one diagnostic and returns: the slots and [nextjid] are as before and
    the only event is the message (no signal is sent). *)
Theorem do_bgfg_no_target
    (s : shell) (cmd : string) (sched : list (list delivery)) :
  let says msg := Ret tt (emit (Printf msg) s) in
  do_bgfg cmd [] sched s
  = says (cmd +:+ " command requires PID or %jobid argument" +:+ LF) /\
  (forall (rest : string) (more : list string),
      getjobjid (jobs s) (atoi rest) = None ->
      do_bgfg cmd (String "%" rest :: more) sched s
      = says (String "%" rest +:+ ": No such job" +:+ LF)) /\
  (forall (c : ascii) (r : string) (more : list string),
      isdigit c = true ->
      getjobpid (jobs s) (atoi (String c r)) = None ->
      do_bgfg cmd (String c r :: more) sched s
      = says ("(" +:+ fmt_d (atoi (String c r)) +:+ "): No such process"
                +:+ LF)) /\
  (forall (arg : string) (more : list string),
      (forall (c : ascii) (r : string),
          arg = String c r -> c ≠ "%"%char /\ isdigit c = false) ->
      do_bgfg cmd (arg :: more) sched s
      = says (cmd +:+ ": argument must be a PID or %jobid" +:+ LF)).
Proof.
  intros says. unfold do_bgfg. split_and!.
  - done.
  - intros rest more Hget. unfold resolve.
    rewrite Ascii.eqb_refl, Hget. done.
  - intros c r more Hd Hget. unfold resolve.
    destruct (Ascii.eqb_spec c "%") as [->|_]; [done|].
    rewrite Hd, Hget. done.
  - intros arg more Hneither. unfold resolve.
    destruct arg as [|c r]; [done|].
    destruct (Hneither c r eq_refl) as [Hne Hd].
    destruct (Ascii.eqb_spec c "%") as [->|_]; [done|].
    rewrite Hd. done.
Qed.

(** Live pids identify their slot when they are pairwise distinct. *)
Lemma live_pids_unique (js : list job_t) :
  NoDup (live_pids js) ->
  forall (i k : nat) (j j' : job_t),
    js !! i = Some j -> js !! k = Some j' -> pid j = pid j' -> live j ->
    i = k.
Proof.
  unfold live_pids. induction js as [|x js IH]; intros Hnd i k j j' Hi Hk E Hl.
  { done. }
  assert (forall (n : nat) (y : job_t),
             js !! n = Some y -> live y -> pid y ∈ pid <$> filter live js) as Hin.
  { intros n y Hy Hly. apply list_elem_of_fmap_2, list_elem_of_filter.
    split; [done|]. by eapply list_elem_of_lookup_2. }
  assert (live j') as Hl' by (unfold live in *; congruence).
  rewrite filter_cons in Hnd. destruct (decide (live x)) as [Hx|Hx].
  - rewrite fmap_cons in Hnd. apply NoDup_cons in Hnd as [Hnotin Hnd].
    destruct i as [|i], k as [|k]; simplify_eq/=; try done.
    + destruct Hnotin. rewrite E. by eapply Hin.
    + destruct Hnotin. rewrite <- E. by eapply Hin.
    + f_equal. by eapply IH.
  - destruct i as [|i], k as [|k]; simplify_eq/=; try done.
    f_equal. by eapply IH.
Qed.

Lemma slot_ok_live (js : list job_t) (i : nat) (j : job_t) :
  forallb slot_ok js = true -> js !! i = Some j -> 1 <= jid j ->
  1 <= pid j.
Proof.
  intros Hok Hi Hjid. rewrite forallb_forall in Hok.
  assert (slot_ok j = true) as Hj.
  { apply Hok. apply list_elem_of_In. by eapply list_elem_of_lookup_2. }
  unfold slot_ok in Hj. destruct (Z.eqb_spec (pid j) 0).
  - apply andb_true_iff in Hj as [H1%Z.eqb_eq _]. lia.
  - apply andb_true_iff in Hj as [[H1 _]%andb_true_iff _]. lia.
Qed.

Lemma getjobpid_unique (js : list job_t) (i : nat) (j : job_t) :
  NoDup (live_pids js) -> js !! i = Some j -> 1 <= pid j ->
  getjobpid js (pid j) = Some i.
Proof.
  intros Hnd Hi Hp.
  destruct (getjobpid_member _ _ _ Hi Hp) as [k Hk]. rewrite Hk. f_equal.
  destruct (getjobpid_lookup _ _ _ Hk) as (_ & Hk' & Hpid & _).
  eapply (live_pids_unique js Hnd k i); [done..|].
  unfold live. lia.
Qed.

(** C9. When the argument names a tracked job (a %jobid found by
    [getjobjid], or a pid found by [getjobpid]): bg sets the job's state
    to BG, prints "[jid] (pid) cmdline" and sends SIGCONT to minus the
    pid; fg sets the state to FG, sends SIGCONT to minus the pid and then
    runs [waitfg] on the pid. *)
Theorem do_bgfg_resolved
    (s : shell) (arg : string) (more : list string)
    (sched : list (list delivery)) (i : nat) :
  table_ok s = true ->
  NoDup (live_pids (jobs s)) ->
  (exists rest : string,
      arg = String "%" rest /\ getjobjid (jobs s) (atoi rest) = Some i) \/
  (exists (c : ascii) (r : string),
      arg = String c r /\ isdigit c = true /\
      getjobpid (jobs s) (atoi arg) = Some i) ->
  let j := jobs s !!! i in
  do_bgfg "bg" (arg :: more) sched s
  = Ret tt
      (emit (Kill (- pid j) SIGCONT)
         (emit (Printf ("[" +:+ fmt_d (jid j) +:+ "] (" +:+ fmt_d (pid j)
                          +:+ ") " +:+ cmdline j))
            (set_jobs (<[i := with_state BG j]> (jobs s)) s))) /\
  do_bgfg "fg" (arg :: more) sched s
  = waitfg (pid j) sched
      (emit (Kill (- pid j) SIGCONT)
         (set_jobs (<[i := with_state FG j]> (jobs s)) s)).
Proof.
  intros (_ & Hok & _)%table_ok_slots Hnd Harg j.
  assert (resolve "bg" arg (jobs s) = inl (i, pid j) /\
          resolve "fg" arg (jobs s) = inl (i, pid j) /\
          jobs s !! i = Some j /\ getjobpid (jobs s) (pid j) = Some i)
    as (Hbg & Hfg & Hi & Hget).
  { destruct Harg as [(rest & -> & Hj)|(c & r & -> & Hd & Hp)].
    - destruct (getjobjid_lookup _ _ _ Hj) as (Hjid & Hi & Hjid').
      unfold resolve. rewrite Ascii.eqb_refl, Hj. split_and!; try done.
      apply getjobpid_unique; [done..|].
      eapply slot_ok_live; [done..|]. fold j in Hjid'. lia.
    - destruct (getjobpid_lookup _ _ _ Hp) as (Hpid & Hi & Hpid' & _).
      unfold resolve.
      destruct (Ascii.eqb_spec c "%") as [->|_]; [done|].
      rewrite Hd, Hp. fold j in Hpid'. rewrite <- Hpid'.
      split_and!; try done. by rewrite Hpid'. }
  assert (i < length (jobs s))%nat as Hlt by (by eapply lookup_lt_Some).
  unfold do_bgfg. rewrite Hbg, Hfg.
  rewrite pid2jid_set_state, (pid2jid_getjobpid _ _ _ Hget).
  rewrite !set_state_insert by done. fold j.
  rewrite list_lookup_total_insert_eq by done.
  unfold set_state. rewrite !alter_lookup_total by done. fold j.
  split; reflexivity.
Qed.

(** ** The footprint of the handlers *)

Lemma slot_after_trans (j1 j2 j3 : job_t) :
  slot_after j1 j2 -> slot_after j2 j3 -> slot_after j1 j3.
Proof.
  unfold slot_after.
  intros [->|[->|[H1 ->]]] [->|[->|[H2 ->]]]; auto; done.
Qed.

Lemma handled_refl (js : list job_t) : handled js js.
Proof. apply Forall_Forall2_diag, Forall_forall. intros j _. by left. Qed.

Lemma handled_trans (js1 js2 js3 : list job_t) :
  handled js1 js2 -> handled js2 js3 -> handled js1 js3.
Proof.
  unfold handled. intros H12 H23.
  eapply Forall2_trans; [|exact H12|exact H23].
  intros x y z. apply slot_after_trans.
Qed.

Lemma handled_insert (js : list job_t) (i : nat) (x : job_t) :
  (forall j, js !! i = Some j -> slot_after j x) ->
  handled js (<[i := x]> js).
Proof.
  intros Hx. apply Forall2_same_length_lookup_2.
  { by rewrite length_insert. }
  intros k j j' Hj Hj'. destruct (decide (i = k)) as [->|Hne].
  - rewrite list_lookup_insert_eq in Hj' by (by eapply lookup_lt_Some).
    injection Hj' as <-. by apply Hx.
  - rewrite list_lookup_insert_ne in Hj' by done. left. congruence.
Qed.

Lemma handled_length (js js' : list job_t) :
  handled js js' -> length js' = length js.
Proof. intros H. symmetry. by eapply Forall2_length. Qed.

Lemma deletejob_handled (s : shell) (pid' : Z) :
  handled (jobs s) (jobs (snd (deletejob pid' s))).
Proof.
  unfold deletejob. destruct (pid' <? 1); [apply handled_refl|].
  destruct (list_find _ (jobs s)) as [[i j]|]; [|apply handled_refl].
  simpl. apply handled_insert. intros ? _. right. by left.
Qed.

Lemma set_state_handled (s : shell) (pid' : Z) (i : nat) :
  getjobpid (jobs s) pid' = Some i ->
  handled (jobs s) (jobs (set_state i ST s)).
Proof.
  intros Hget.
  destruct (getjobpid_lookup _ _ _ Hget) as (Hp & Hi & Hpid & _).
  simpl. rewrite alter_lookup_total by (by eapply lookup_lt_Some).
  apply handled_insert. intros j Hj. right. right.
  rewrite Hi in Hj. injection Hj as <-. split; [lia|done].
Qed.

Lemma deletejob_trace (s : shell) (pid' : Z) :
  trace (snd (deletejob pid' s)) = trace s.
Proof.
  unfold deletejob. destruct (pid' <? 1); [done|].
  by destruct (list_find _ (jobs s)) as [[i j]|].
Qed.

(** ** Invariants of the asynchronous code *)

(** A property of the shell state kept by recording an event other than
    a blocking wait, by [deletejob], and by stopping a tracked job is
    kept by the handlers, and so by everything that only sleeps while
    they run. *)
Section handler_invariant.
Variable P : shell -> Prop.
Hypothesis P_emit :
  forall (e : event) (s : shell), nonblocking e = true -> P s -> P (emit e s).
Hypothesis P_deletejob :
  forall (p : Z) (s : shell), P s -> P (snd (deletejob p s)).
Hypothesis P_stop :
  forall (i : nat) (p : Z) (s : shell),
    getjobpid (jobs s) p = Some i -> P s -> P (set_state i ST s).

Lemma reap_preserves (p status : Z) (s : shell) :
  P s -> P (final (reap p status s)).
Proof.
  intros Hs. unfold reap. destruct (WIFEXITED status); [by apply P_deletejob|].
  destruct (WIFSIGNALED status).
  { simpl. by apply P_deletejob, P_emit. }
  destruct (WIFSTOPPED status); [|done].
  destruct (getjobpid (jobs s) p) as [i|] eqn:Hget; [|done].
  cbn [final]. apply P_emit; [done|]. by eapply P_stop.
Qed.

Lemma sigchld_handler_preserves (pending : list (Z * Z)) (s : shell) :
  P s -> P (final (sigchld_handler pending s)).
Proof.
  revert s. induction pending as [|[p status] rest IH]; intros s Hs.
  { by apply P_emit. }
  cbn [sigchld_handler].
  assert (P (emit (Waitpid (-1) (Z.lor WUNTRACED WNOHANG) p) s)) as Hs0
    by (by apply P_emit).
  destruct (0 <? p); [|done]. unfold bind.
  pose proof (reap_preserves p status _ Hs0) as H.
  destruct (reap p status _) as [[] s1|s1|s1|c s1|s1]; try exact H.
  by apply IH.
Qed.

Lemma handle_preserves (d : delivery) (s : shell) :
  P s -> P (final (handle d s)).
Proof.
  intros Hs. destruct d; simpl.
  - by apply sigchld_handler_preserves.
  - unfold sigint_handler. destruct (getjobpid _ _); [|done]. by apply P_emit.
  - unfold sigtstp_handler. destruct (getjobpid _ _); [|done]. by apply P_emit.
Qed.

Lemma deliver_preserves (ds : list delivery) (s : shell) :
  P s -> P (final (deliver ds s)).
Proof.
  revert s. induction ds as [|d ds IH]; intros s Hs; [done|].
  cbn [deliver]. unfold bind. pose proof (handle_preserves d s Hs) as H.
  destruct (handle d s) as [[] s1|s1|s1|c s1|s1]; try exact H.
  by apply IH.
Qed.

Lemma sleeps_preserves (sched : list (list delivery)) (s : shell) :
  P s -> P (final (sleeps sched s)).
Proof.
  revert s. induction sched as [|ds sched IH]; intros s Hs; [done|].
  cbn [sleeps]. unfold bind, update.
  pose proof (deliver_preserves ds _ (P_emit (Sleep 1) s eq_refl Hs)) as H.
  destruct (deliver ds _) as [[] s1|s1|s1|c s1|s1]; try exact H.
  by apply IH.
Qed.

Lemma waitfg_poll_preserves
    (i : nat) (sched : list (list delivery)) (s : shell) :
  P s -> P (final (waitfg_poll i sched s)).
Proof.
  revert s. induction sched as [|ds sched IH]; intros s Hs;
    cbn [waitfg_poll]; destruct (state (jobs s !!! i) =? FG); try done.
  unfold bind.
  pose proof (deliver_preserves ds _ (P_emit (Sleep 1) s eq_refl Hs)) as H.
  destruct (deliver ds _) as [[] s1|s1|s1|c s1|s1]; try exact H.
  by apply IH.
Qed.

Lemma waitfg_preserves (p : Z) (sched : list (list delivery)) (s : shell) :
  P s -> P (final (waitfg p sched s)).
Proof.
  intros Hs. unfold waitfg. destruct (getjobpid _ _); [|done].
  by apply waitfg_poll_preserves.
Qed.
End handler_invariant.

(** The handlers stay within their footprint. *)
Section footprint.
Variable js0 : list job_t.

Lemma within_emit (e : event) (s : shell) :
  nonblocking e = true -> handled js0 (jobs s) -> handled js0 (jobs (emit e s)).
Proof. done. Qed.

Lemma within_deletejob (p : Z) (s : shell) :
  handled js0 (jobs s) -> handled js0 (jobs (snd (deletejob p s))).
Proof. intros H. eapply handled_trans; [exact H|apply deletejob_handled]. Qed.

Lemma within_stop (i : nat) (p : Z) (s : shell) :
  getjobpid (jobs s) p = Some i ->
  handled js0 (jobs s) -> handled js0 (jobs (set_state i ST s)).
Proof.
  intros Hget H. eapply handled_trans; [exact H|by eapply set_state_handled].
Qed.
End footprint.

Lemma sigchld_handler_handled (pending : list (Z * Z)) (s : shell) :
  handled (jobs s) (jobs (final (sigchld_handler pending s))).
Proof.
  apply (sigchld_handler_preserves (fun s' => handled (jobs s) (jobs s'))
           (within_emit _) (within_deletejob _) (within_stop _)).
  apply handled_refl.
Qed.

Lemma deliver_handled (ds : list delivery) (s : shell) :
  handled (jobs s) (jobs (final (deliver ds s))).
Proof.
  apply (deliver_preserves (fun s' => handled (jobs s) (jobs s'))
           (within_emit _) (within_deletejob _) (within_stop _)).
  apply handled_refl.
Qed.

Lemma sleeps_handled (sched : list (list delivery)) (s : shell) :
  handled (jobs s) (jobs (final (sleeps sched s))).
Proof.
  apply (sleeps_preserves (fun s' => handled (jobs s) (jobs s'))
           (within_emit _) (within_deletejob _) (within_stop _)).
  apply handled_refl.
Qed.

Lemma waitfg_handled (p : Z) (sched : list (list delivery)) (s : shell) :
  handled (jobs s) (jobs (final (waitfg p sched s))).
Proof.
  apply (waitfg_preserves (fun s' => handled (jobs s) (jobs s'))
           (within_emit _) (within_deletejob _) (within_stop _)).
  apply handled_refl.
Qed.

(** The handlers and the polling loop make no blocking wait. *)
Lemma emit_nonblocking (e : event) (s : shell) :
  nonblocking e = true -> all_nonblocking s -> all_nonblocking (emit e s).
Proof.
  unfold all_nonblocking. simpl. intros He Hs.
  apply Forall_app. split; [done|]. by constructor.
Qed.

Lemma deletejob_nonblocking (p : Z) (s : shell) :
  all_nonblocking s -> all_nonblocking (snd (deletejob p s)).
Proof. unfold all_nonblocking. by rewrite deletejob_trace. Qed.

Lemma stop_nonblocking (i : nat) (p : Z) (s : shell) :
  getjobpid (jobs s) p = Some i ->
  all_nonblocking s -> all_nonblocking (set_state i ST s).
Proof. done. Qed.

Lemma waitfg_nonblocking (p : Z) (sched : list (list delivery)) (s : shell) :
  all_nonblocking s -> all_nonblocking (final (waitfg p sched s)).
Proof.
  apply (waitfg_preserves all_nonblocking
           emit_nonblocking deletejob_nonblocking stop_nonblocking).
Qed.

(** ** waitfg *)

(** The polling loop returns at the first sleep after which the slot it
    watches is not in state FG. *)
Lemma waitfg_poll_sleeps (i : nat) (sched : list (list delivery)) (s s' : shell) :
  waitfg_poll i sched s = Ret tt s' <->
  exists k : nat,
    (k <= length sched)%nat /\
    sleeps (take k sched) s = Ret tt s' /\
    (state (jobs s' !!! i) =? FG) = false /\
    forall k' : nat, (k' < k)%nat ->
      exists s'', sleeps (take k' sched) s = Ret tt s'' /\
                  (state (jobs s'' !!! i) =? FG) = true.
Proof.
  revert s. induction sched as [|ds sched IH]; intros s.
  - cbn [waitfg_poll]. destruct (state (jobs s !!! i) =? FG) eqn:Hfg; split.
    + done.
    + intros (k & Hk & Hs & Hst & _). destruct k; [|simpl in Hk; lia].
      injection Hs as <-. congruence.
    + intros [= <-]. exists 0%nat. split_and!; [done..|]. intros; lia.
    + intros (k & Hk & Hs & _). destruct k; [|simpl in Hk; lia].
      by injection Hs as <-.
  - cbn [waitfg_poll]. destruct (state (jobs s !!! i) =? FG) eqn:Hfg; split.
    + unfold bind at 1.
      destruct (deliver ds (emit (Sleep 1) s)) as [[] s1|s1|s1|c s1|s1] eqn:Hd;
        try done.
      intros (k & Hk & Hs & Hst & Hbefore)%IH.
      exists (S k). split_and!.
      * simpl. lia.
      * cbn [take sleeps]. unfold bind, update. by rewrite Hd.
      * done.
      * intros [|k'] Hlt.
        -- exists s. done.
        -- destruct (Hbefore k') as (s'' & Hs'' & Hst''); [lia|].
           exists s''. split; [|done].
           cbn [take sleeps]. unfold bind, update. by rewrite Hd.
    + intros (k & Hk & Hs & Hst & Hbefore).
      destruct k as [|k].
      { injection Hs as <-. congruence. }
      cbn [take sleeps] in Hs. unfold bind at 1 2, update in Hs.
      unfold bind at 1.
      destruct (deliver ds (emit (Sleep 1) s)) as [[] s1|s1|s1|c s1|s1] eqn:Hd;
        try done.
      apply IH. exists k. split_and!; [simpl in Hk; lia|done..|].
      intros k' Hlt. destruct (Hbefore (S k')) as (s'' & Hs'' & Hst''); [lia|].
      exists s''. split; [|done].
      cbn [take sleeps] in Hs''. unfold bind at 1 2, update in Hs''.
      by rewrite Hd in Hs''.
    + intros [= <-]. exists 0%nat. split_and!; [simpl; lia|done..|].
      intros; lia.
    + intros (k & Hk & Hs & Hst & Hbefore). destruct k as [|k].
      { by injection Hs as <-. }
      destruct (Hbefore 0%nat) as (s'' & [= <-] & Hst''); [lia|]. congruence.
Qed.

(** After any handler activity, the slot that held [pid'] is in state FG
    exactly when the table still reports [pid'] as the foreground job. *)
Lemma handled_reports (js0 js : list job_t) (pid' : Z) (i : nat) :
  NoDup (live_pids js0) ->
  getjobpid js0 pid' = Some i ->
  handled js0 js ->
  (state (js !!! i) =? FG) = reports_fg js pid'.
Proof.
  intros Hnd Hget Hh.
  destruct (getjobpid_lookup _ _ _ Hget) as (Hp & Hi & Hpid & _).
  assert (length js = length js0) as Hlen by (by apply handled_length).
  assert (i < length js0)%nat as Hlt by (by eapply lookup_lt_Some).
  destruct (lookup_lt_is_Some_2 js i) as [j' Hj']; [lia|].
  rewrite (list_lookup_total_correct _ _ _ Hj').
  assert (forall (k : nat) (y : job_t),
             k ≠ i -> js !! k = Some y -> pid y ≠ pid') as Hother.
  { intros k y Hk Hy.
    destruct (lookup_lt_is_Some_2 js0 k) as [x Hx].
    { rewrite <- Hlen. by eapply lookup_lt_Some. }
    assert (pid x ≠ pid') as Hx'.
    { intros E. apply Hk.
      eapply (live_pids_unique js0 Hnd k i); [done..|congruence|].
      unfold live. lia. }
    destruct (Forall2_lookup_lr _ _ _ _ _ _ Hh Hx Hy) as [->|[->|[_ ->]]];
      [done|simpl; lia|done]. }
  unfold reports_fg.
  destruct (Forall2_lookup_lr _ _ _ _ _ _ Hh Hi Hj') as [E|[E|[_ E]]].
  - assert (getjobpid js pid' = Some i) as ->.
    { apply getjobpid_Some. split; [done|]. exists j'.
      apply list_find_Some. split_and!; [done|by rewrite E|].
      intros k y Hy Hk. apply (Hother k y); [lia|done]. }
    by rewrite (list_lookup_total_correct _ _ _ Hj').
  - assert (getjobpid js pid' = None) as ->.
    { apply getjobpid_None. right. apply Forall_lookup_2. intros k y Hy.
      destruct (decide (k = i)) as [->|Hk]; [|by eapply Hother].
      rewrite Hj' in Hy. injection Hy as <-. rewrite E. simpl. lia. }
    by rewrite E.
  - assert (getjobpid js pid' = Some i) as ->.
    { apply getjobpid_Some. split; [done|]. exists j'.
      apply list_find_Some. split_and!; [done|by rewrite E|].
      intros k y Hy Hk. apply (Hother k y); [lia|done]. }
    by rewrite (list_lookup_total_correct _ _ _ Hj').
Qed.

Lemma sleeps_take_handled (sched : list (list delivery)) (k : nat) (s s' : shell) :
  sleeps (take k sched) s = Ret tt s' -> handled (jobs s) (jobs s').
Proof.
  intros H. pose proof (sleeps_handled (take k sched) s) as Hh.
  by rewrite H in Hh.
Qed.

(** With no signal delivered the loop only sleeps, and the table stays
    as it is. *)
Lemma waitfg_poll_undisturbed (i n : nat) (s : shell) :
  exists m : nat,
    final (waitfg_poll i (replicate n []) s)
    = Shell (jobs s) (nextjid s) (verbose s)
            (trace s ++ replicate m (Sleep 1)).
Proof.
  revert s. induction n as [|n IH]; intros s; cbn [replicate waitfg_poll].
  - exists 0%nat. simpl. rewrite app_nil_r.
    destruct (state (jobs s !!! i) =? FG); by destruct s.
  - destruct (state (jobs s !!! i) =? FG).
    + destruct (IH (emit (Sleep 1) s)) as [m Hm]. exists (S m).
      unfold bind. cbn [deliver ret]. rewrite Hm. simpl.
      by rewrite <- app_assoc.
    + exists 0%nat. simpl. rewrite app_nil_r. by destruct s.
Qed.

(** C7. [waitfg] returns exactly at the first poll at which the table no
    longer reports the pid as the foreground job, in the state the
    handlers have left; it returns at once when the pid is not tracked;
    it makes no blocking call to wait for a child, and when no signal
    arrives it only sleeps and leaves the table alone. *)
Theorem waitfg_spec (s : shell) (pid' : Z) (sched : list (list delivery)) :
  NoDup (live_pids (jobs s)) ->
  (forall s' : shell,
      waitfg pid' sched s = Ret tt s' <->
      exists k : nat,
        (k <= length sched)%nat /\
        sleeps (take k sched) s = Ret tt s' /\
        reports_fg (jobs s') pid' = false /\
        forall k' : nat, (k' < k)%nat ->
          exists s'', sleeps (take k' sched) s = Ret tt s'' /\
                      reports_fg (jobs s'') pid' = true) /\
  (getjobpid (jobs s) pid' = None -> waitfg pid' sched s = Ret tt s) /\
  (all_nonblocking s -> all_nonblocking (final (waitfg pid' sched s))) /\
  (forall n : nat, exists m : nat,
      final (waitfg pid' (replicate n []) s)
      = Shell (jobs s) (nextjid s) (verbose s)
              (trace s ++ replicate m (Sleep 1))).
Proof.
  intros Hnd. pose proof (waitfg_nonblocking pid' sched s) as Hnb.
  unfold waitfg in *.
  destruct (getjobpid (jobs s) pid') as [i|] eqn:Hget.
  - split_and!.
    + intros s'. rewrite waitfg_poll_sleeps.
      split; intros (k & Hk & Hs & Hst & Hbefore); exists k;
        (split_and!; [done|done| |]).
      * rewrite <- (handled_reports (jobs s) _ pid' i); [done..|].
        by eapply sleeps_take_handled.
      * intros k' Hlt. destruct (Hbefore k' Hlt) as (s'' & Hs'' & Hst'').
        exists s''. split; [done|].
        rewrite <- (handled_reports (jobs s) _ pid' i); [done..|].
        by eapply sleeps_take_handled.
      * rewrite (handled_reports (jobs s) _ pid' i); [done..|].
        by eapply sleeps_take_handled.
      * intros k' Hlt. destruct (Hbefore k' Hlt) as (s'' & Hs'' & Hst'').
        exists s''. split; [done|].
        rewrite (handled_reports (jobs s) _ pid' i); [done..|].
        by eapply sleeps_take_handled.
    + done.
    + exact Hnb.
    + intros n. apply waitfg_poll_undisturbed.
  - assert (reports_fg (jobs s) pid' = false) as Hrep.
    { unfold reports_fg. by rewrite Hget. }
    split_and!.
    + intros s'. split.
      * intros [= <-]. exists 0%nat. split_and!; [lia|done..|]. intros; lia.
      * intros (k & Hk & Hs & Hst & Hbefore). destruct k as [|k].
        { rewrite take_0 in Hs. by injection Hs as <-. }
        destruct (Hbefore 0%nat) as (s'' & Hs'' & Hst''); [lia|].
        rewrite take_0 in Hs''. injection Hs'' as <-. congruence.
    + done.
    + done.
    + intros n. exists 0%nat. simpl. rewrite app_nil_r. by destruct s.
Qed.

(** ** At most one foreground job *)

Lemma fg_count_le (js js' : list job_t) :
  Forall2 (fun j j' => state j' = FG -> state j = FG) js js' ->
  (fg_count js' <= fg_count js)%nat.
Proof.
  unfold fg_count. induction 1 as [|j j' js js' Hj _ IH]; [done|].
  rewrite !filter_cons.
  destruct (decide (state j' = FG)) as [E|E].
  - rewrite decide_True by auto. simpl. lia.
  - destruct (decide (state j = FG)); simpl; lia.
Qed.

Lemma handled_fg_count (js js' : list job_t) :
  handled js js' -> (fg_count js' <= fg_count js)%nat.
Proof.
  intros H. apply fg_count_le. eapply Forall2_impl; [exact H|].
  by intros j j' [->|[->|[_ ->]]].
Qed.

Lemma fg_count_insert (js : list job_t) (i : nat) (x : job_t) :
  (fg_count (<[i := x]> js) <= fg_count js + 1)%nat.
Proof.
  unfold fg_count. revert i. induction js as [|j js IH]; intros i; [simpl; lia|].
  destruct i as [|i]; simpl.
  - rewrite !filter_cons. destruct (decide (state x = FG)),
      (decide (state j = FG)); simpl; lia.
  - change (list_insert i x js) with (<[i := x]> js).
    rewrite !filter_cons. specialize (IH i).
    destruct (decide (state j = FG)); simpl; lia.
Qed.

Lemma fg_count_insert_other (js : list job_t) (i : nat) (x : job_t) :
  state x ≠ FG -> (fg_count (<[i := x]> js) <= fg_count js)%nat.
Proof.
  intros Hx. apply fg_count_le. apply Forall2_same_length_lookup_2.
  { by rewrite length_insert. }
  intros k j j' Hj Hj'. destruct (decide (i = k)) as [->|Hne].
  - rewrite list_lookup_insert_eq in Hj' by (by eapply lookup_lt_Some).
    injection Hj' as <-. done.
  - rewrite list_lookup_insert_ne in Hj' by done. congruence.
Qed.

Lemma fg_count_set_state (s : shell) (i : nat) (st : Z) :
  (fg_count (jobs (set_state i st s)) <= fg_count (jobs s) + 1)%nat /\
  (st ≠ FG -> (fg_count (jobs (set_state i st s)) <= fg_count (jobs s))%nat).
Proof.
  unfold set_state. simpl.
  destruct (decide (i < length (jobs s))%nat) as [Hi|Hi].
  - rewrite alter_lookup_total by done. split.
    + apply fg_count_insert.
    + intros Hst. by apply fg_count_insert_other.
  - assert (alter (with_state st) i (jobs s) = jobs s) as ->; [|split; lia].
    apply list_eq. intros k. rewrite list_lookup_alter.
    destruct (decide (i = k)) as [<-|]; [|done].
    by rewrite lookup_ge_None_2 by lia.
Qed.

Lemma addjob_fg_count (s : shell) (pid' st : Z) (cmdline' : string) :
  (fg_count (jobs (snd (addjob pid' st cmdline' s))) <= fg_count (jobs s) + 1)%nat /\
  (st ≠ FG ->
   (fg_count (jobs (snd (addjob pid' st cmdline' s))) <= fg_count (jobs s))%nat).
Proof.
  unfold addjob. destruct (pid' <? 1); [simpl; split; lia|].
  destruct (list_find _ (jobs s)) as [[i j0]|]; [|simpl; split; lia].
  assert (forall s1 : shell,
             jobs (if verbose s =? 0 then s1 else emit (Printf
               ("Added job [" +:+ fmt_d (nextjid s) +:+ "] " +:+ fmt_d pid'
                  +:+ " " +:+ cmdline' +:+ LF)) s1) = jobs s1) as E.
  { intros s1. by destruct (verbose s =? 0). }
  cbn [snd pid jid cmdline]. rewrite E. simpl. split.
  - apply fg_count_insert.
  - intros Hst. by apply fg_count_insert_other.
Qed.

Lemma waitfg_unscheduled_jobs (s : shell) (pid' : Z) :
  jobs (final (waitfg pid' [] s)) = jobs s.
Proof.
  unfold waitfg. destruct (getjobpid _ _); [|done].
  cbn [waitfg_poll]. by destruct (state _ =? FG).
Qed.

Lemma do_bgfg_fg_count (s : shell) (cmd : string) (args : list string) :
  (fg_count (jobs (final (do_bgfg cmd args [] s))) <= fg_count (jobs s) + 1)%nat /\
  (String.eqb "fg" cmd = false ->
   (fg_count (jobs (final (do_bgfg cmd args [] s))) <= fg_count (jobs s))%nat).
Proof.
  unfold do_bgfg. destruct args as [|arg more]; [simpl; split; lia|].
  destruct (resolve cmd arg (jobs s)) as [[i pid']|msg]; [|simpl; split; lia].
  destruct (String.eqb "bg" cmd).
  { destruct (fg_count_set_state s i BG) as [_ H]. specialize (H ltac:(done)).
    match goal with
    | |- context [final ?o] =>
        assert (jobs (final o) = jobs (set_state i BG s)) as -> by done
    end.
    split; [lia|done]. }
  destruct (String.eqb "fg" cmd); [|simpl; split; lia].
  unfold bind, kill, update.
  rewrite (waitfg_unscheduled_jobs (emit _ (set_state i FG s))).
  split; [|done]. apply (fg_count_set_state s i FG).
Qed.

Lemma apply_op_fg_count (op : table_op) (s : shell) :
  (fg_count (jobs (apply_op op s)) <= fg_count (jobs s) + 1)%nat /\
  (to_foreground op = false ->
   (fg_count (jobs (apply_op op s)) <= fg_count (jobs s))%nat).
Proof.
  destruct op as [p st c|p|cmd args|pending]; simpl.
  - destruct (addjob_fg_count s p st c) as [H1 H2]. split; [done|].
    intros Hst%Z.eqb_neq. auto.
  - pose proof (handled_fg_count _ _ (deletejob_handled s p)). split; [lia|done].
  - apply do_bgfg_fg_count.
  - pose proof (handled_fg_count _ _ (sigchld_handler_handled pending s)).
    split; [lia|done].
Qed.

Lemma run_ops_fg_count (ops : list table_op) (s : shell) :
  (fg_count (jobs s) <= 1)%nat ->
  fg_disciplined ops s = true ->
  (fg_count (jobs (run_ops ops s)) <= 1)%nat.
Proof.
  revert s. induction ops as [|op ops IH]; intros s Hs Hd; [done|].
  cbn [fg_disciplined] in Hd. apply andb_true_iff in Hd as [Hop Hd].
  cbn [run_ops foldl]. apply IH; [|done].
  destruct (apply_op_fg_count op s) as [H1 H2].
  destruct (to_foreground op); simpl in Hop.
  - apply Nat.eqb_eq in Hop. lia.
  - specialize (H2 eq_refl). lia.
Qed.

Lemma fg_disciplined_take (ops : list table_op) (n : nat) (s : shell) :
  fg_disciplined ops s = true -> fg_disciplined (take n ops) s = true.
Proof.
  revert n s. induction ops as [|op ops IH]; intros n s Hd.
  { by rewrite take_nil. }
  destruct n as [|n]; [done|].
  cbn [fg_disciplined] in Hd. apply andb_true_iff in Hd as [Hop Hd].
  cbn [take fg_disciplined]. rewrite Hop. simpl. by apply IH.
Qed.

(** C1, as the code has it. From the initial table, along every sequence
    of registrations, removals, bg/fg state changes and child-status
    handler runs in which a job is put in state FG only when no job is
    in that state, at most one job is in state FG at every instant. *)
Theorem at_most_one_fg (verbose' : Z) (ops : list table_op) (n : nat) :
  fg_disciplined ops (tsh_start verbose') = true ->
  (fg_count (jobs (run_ops (take n ops) (tsh_start verbose'))) <= 1)%nat.
Proof.
  intros Hd. apply run_ops_fg_count.
  - vm_compute. lia.
  - by apply fg_disciplined_take.
Qed.

(** C1 as stated fails: the table does not refuse a second registration
    in state FG. *)
Lemma two_fg_registrations :
  ~ (forall ops : list table_op,
        (fg_count (jobs (run_ops ops (tsh_start 0))) <= 1)%nat).
Proof.
  intros H.
  specialize (H [Op_addjob 100 FG "a"; Op_addjob 101 FG "b"]).
  vm_compute in H. lia.
Qed.

(** ** Job IDs *)

Lemma addjob_Some (s : shell) (p st : Z) (c : string) (i : nat) (j0 : job_t) :
  1 <= p ->
  list_find (fun j => pid j = 0) (jobs s) = Some (i, j0) ->
  fst (addjob p st c s) = 1 /\
  jobs (snd (addjob p st c s)) = <[i := Job p (nextjid s) st c]> (jobs s) /\
  nextjid (snd (addjob p st c s))
  = (if Z.of_nat MAXJOBS <? nextjid s + 1 then 1 else nextjid s + 1).
Proof.
  intros Hp Hf. unfold addjob. destruct (Z.ltb_spec p 1); [lia|].
  rewrite Hf. cbn [fst snd pid jid cmdline]. by destruct (verbose s =? 0).
Qed.

Lemma addjob_fails (s : shell) (p st : Z) (c : string) :
  p < 1 \/ list_find (fun j => pid j = 0) (jobs s) = None ->
  fst (addjob p st c s) = 0 /\
  jobs (snd (addjob p st c s)) = jobs s /\
  nextjid (snd (addjob p st c s)) = nextjid s.
Proof.
  intros H. unfold addjob. destruct (Z.ltb_spec p 1); [done|].
  destruct H as [? | ->]; [lia|done].
Qed.

Lemma foldr_max_app (l1 l2 : list Z) :
  foldr Z.max 0 (l1 ++ l2) = Z.max (foldr Z.max 0 l1) (foldr Z.max 0 l2).
Proof.
  induction l1 as [|x l1 IH]; simpl.
  - pose proof (foldr_max_nonneg l2). lia.
  - rewrite IH. lia.
Qed.

Lemma live_jids_app (l1 l2 : list job_t) :
  live_jids (l1 ++ l2) = live_jids l1 ++ live_jids l2.
Proof. unfold live_jids. by rewrite filter_app, fmap_app. Qed.

Lemma live_jids_split (js : list job_t) (i : nat) (j0 : job_t) :
  js !! i = Some j0 ->
  live_jids js
  = live_jids (take i js) ++ live_jids [j0] ++ live_jids (drop (S i) js).
Proof.
  intros Hi. rewrite <- (take_drop_middle js i j0 Hi) at 1.
  change (j0 :: drop (S i) js) with ([j0] ++ drop (S i) js).
  by rewrite !live_jids_app.
Qed.

Lemma live_jids_insert (js : list job_t) (i : nat) (j0 x : job_t) :
  js !! i = Some j0 ->
  live_jids (<[i := x]> js)
  = live_jids (take i js) ++ live_jids [x] ++ live_jids (drop (S i) js).
Proof.
  intros Hi. rewrite insert_take_drop by (by eapply lookup_lt_Some).
  change (x :: drop (S i) js) with ([x] ++ drop (S i) js).
  by rewrite !live_jids_app.
Qed.

Lemma live_jids_free (j : job_t) : pid j = 0 -> live_jids [j] = [].
Proof.
  intros E. unfold live_jids. rewrite filter_cons.
  destruct (decide (live j)) as [H|H]; [by destruct H|done].
Qed.

Lemma live_jids_live (j : job_t) : pid j ≠ 0 -> live_jids [j] = [jid j].
Proof.
  intros E. unfold live_jids. rewrite filter_cons.
  by destruct (decide (live j)) as [H|H].
Qed.

Lemma jid_inv_start (verbose' : Z) : jid_inv (tsh_start verbose').
Proof.
  split_and!.
  - unfold tsh_start, initjobs. cbn [jobs].
    apply Forall_fmap, Forall_forall. by intros j _.
  - done.
  - vm_compute. constructor.
Qed.

Lemma jid_inv_deletejob (s : shell) (p : Z) :
  jid_inv s -> jid_inv (snd (deletejob p s)).
Proof.
  intros (H1 & H2 & H3). unfold deletejob.
  destruct (p <? 1); [done|].
  destruct (list_find _ (jobs s)) as [[i j]|] eqn:Hf; [|done].
  apply list_find_Some in Hf as (Hi & _).
  unfold jid_inv. cbn [snd set_nextjid set_jobs jobs nextjid]. split_and!.
  - by apply Forall_insert.
  - done.
  - rewrite (live_jids_insert _ _ _ _ Hi), live_jids_free by done.
    rewrite (live_jids_split _ _ _ Hi) in H3.
    apply NoDup_app in H3 as (Ha & Hb & Hc).
    apply NoDup_app in Hc as (_ & _ & Hc).
    apply NoDup_app. split_and!; [done| |done].
    intros x Hx Hx'. apply (Hb x Hx). apply elem_of_app. by right.
Qed.

Lemma jid_inv_addjob (s : shell) (p st : Z) (c : string) :
  jid_inv s ->
  Forall (fun a => a_wrapped a = false) (assignment_of p st c s) ->
  jid_inv (snd (addjob p st c s)) /\
  Forall (fun a => a_jid a = foldr Z.max 0 (a_live a) + 1)
         (assignment_of p st c s).
Proof.
  intros (H1 & H2 & H3) Hw. unfold assignment_of in *.
  destruct (Z.ltb_spec p 1) as [Hp|Hp].
  { destruct (addjob_fails s p st c) as (E1 & E2 & E3); [by left|].
    rewrite E1. split; [|by constructor].
    unfold jid_inv. by rewrite E2, E3. }
  destruct (list_find (fun j => pid j = 0) (jobs s)) as [[i j0]|] eqn:Hf.
  2:{ destruct (addjob_fails s p st c) as (E1 & E2 & E3); [by right|].
      rewrite E1. split; [|by constructor].
      unfold jid_inv. by rewrite E2, E3. }
  destruct (addjob_Some s p st c i j0 Hp Hf) as (E1 & E2 & E3).
  apply list_find_Some in Hf as (Hi & Hfree & _).
  assert (i < length (jobs s))%nat as Hlt by (by eapply lookup_lt_Some).
  rewrite E1 in *. cbn [Z.eqb] in *.
  rewrite E2, E3 in *. rewrite list_lookup_total_insert_eq in * by done.
  cbn [jid] in *.
  apply Forall_cons in Hw as [Hw _]. cbn [a_wrapped] in Hw.
  pose proof (maxjid_live _ H1) as Hmax.
  pose proof (foldr_max_nonneg (live_jids (jobs s))) as Hnn.
  fold (max_live_jid (jobs s)) in Hnn.
  assert (nextjid s = max_live_jid (jobs s) + 1) as Hnext by lia.
  destruct (Z.ltb_spec (Z.of_nat MAXJOBS) (nextjid s + 1)) as [Hwrap|Hwrap].
  { apply Z.leb_gt in Hw. lia. }
  assert (Forall (fun j => pid j = 0 -> jid j = 0)
            (<[i := Job p (nextjid s) st c]> (jobs s))) as H1'.
  { apply Forall_insert; [done|]. simpl. lia. }
  assert (live_jids (<[i := Job p (nextjid s) st c]> (jobs s))
          = live_jids (take i (jobs s)) ++ [nextjid s]
              ++ live_jids (drop (S i) (jobs s))) as Hlive'.
  { rewrite (live_jids_insert _ _ _ _ Hi), live_jids_live; [done|simpl; lia]. }
  assert (live_jids (jobs s)
          = live_jids (take i (jobs s)) ++ live_jids (drop (S i) (jobs s)))
    as Hlive.
  { by rewrite (live_jids_split _ _ _ Hi), live_jids_free. }
  assert (forall x, x ∈ live_jids (jobs s) -> x < nextjid s) as Hbelow.
  { intros x Hx. apply foldr_max_ge in Hx.
    fold (max_live_jid (jobs s)) in Hx. lia. }
  split; [unfold jid_inv; rewrite E2, E3; split_and!|].
  - done.
  - rewrite (maxjid_live _ H1'). unfold max_live_jid.
    rewrite Hlive', !foldr_max_app. simpl.
    unfold max_live_jid in Hnext. rewrite Hlive, foldr_max_app in Hnext.
    pose proof (foldr_max_nonneg (live_jids (take i (jobs s)))).
    pose proof (foldr_max_nonneg (live_jids (drop (S i) (jobs s)))).
    lia.
  - rewrite Hlive'. rewrite Hlive in H3, Hbelow.
    apply NoDup_app in H3 as (Ha & Hb & Hc).
    apply NoDup_app. split_and!; [done| |].
    + intros x Hx [->%list_elem_of_singleton|Hx']%elem_of_app.
      * assert (nextjid s < nextjid s); [|lia].
        apply Hbelow, elem_of_app. by left.
      * by apply (Hb x).
    + apply NoDup_cons. split; [|done]. intros Hx.
      assert (nextjid s < nextjid s); [|lia].
      apply Hbelow, elem_of_app. by right.
  - constructor; [|constructor]. simpl. fold (max_live_jid (jobs s)). lia.
Qed.

Lemma jid_policy_inv (ops : list table_op) (s : shell) :
  jid_inv s ->
  add_delete_only ops = true ->
  Forall (fun a => a_wrapped a = false) (assignments ops s) ->
  jid_inv (run_ops ops s) /\
  Forall (fun a => a_jid a = foldr Z.max 0 (a_live a) + 1) (assignments ops s).
Proof.
  revert s. induction ops as [|op ops IH]; intros s Hinv Hops Hw.
  { split; [done|constructor]. }
  cbn [add_delete_only forallb] in Hops.
  apply andb_true_iff in Hops as [Hop Hops].
  cbn [assignments] in *. apply Forall_app in Hw as [Hw1 Hw2].
  cbn [run_ops foldl].
  destruct op as [p st c|p|cmd args|pending]; try done; cbn [apply_op] in *.
  - destruct (jid_inv_addjob s p st c Hinv Hw1) as [Hinv' Ha].
    destruct (IH _ Hinv' Hops Hw2) as [Hfin Hrest].
    split; [done|]. by apply Forall_app.
  - destruct (IH _ (jid_inv_deletejob s p Hinv) Hops Hw2) as [Hfin Hrest].
    split; [done|]. by apply Forall_app.
Qed.

(** C2, as the code has it. From the initial table, along every sequence
    of registrations and removals during which the counter has not
    wrapped back to 1: each registration assigns one more than the
    largest live ID, so the new ID is above every live ID; the IDs of the
    live jobs are pairwise distinct; and [nextjid] is one more than the
    largest live ID, so an ID is assigned again once it and every larger
    ID have been removed. *)
Theorem jid_policy_before_wrap (verbose' : Z) (ops : list table_op) :
  add_delete_only ops = true ->
  forallb (fun a => negb (a_wrapped a)) (assignments ops (tsh_start verbose'))
  = true ->
  (forall a : assignment,
      a ∈ assignments ops (tsh_start verbose') ->
      a_jid a = foldr Z.max 0 (a_live a) + 1) /\
  NoDup (live_jids (jobs (run_ops ops (tsh_start verbose')))) /\
  nextjid (run_ops ops (tsh_start verbose'))
  = max_live_jid (jobs (run_ops ops (tsh_start verbose'))) + 1.
Proof.
  intros Hops Hw.
  destruct (jid_policy_inv ops (tsh_start verbose')) as [(H1 & H2 & H3) Ha].
  - apply jid_inv_start.
  - done.
  - apply Forall_forall. intros a Ha%list_elem_of_In.
    rewrite forallb_forall in Hw. specialize (Hw a Ha).
    by destruct (a_wrapped a).
  - split_and!.
    + intros a Hin. by apply (proj1 (Forall_forall _ _) Ha).
    + done.
    + by rewrite <- (maxjid_live _ H1).
Qed.

(** C2 as stated fails: the compaction of [deletejob] hands out an ID
    again right after its removal, with no wrap of the counter and with a
    lower ID still live. *)
Lemma jid_reused_after_removal :
  ~ (forall ops : list table_op,
        add_delete_only ops = true ->
        ids_increasing (assignments ops (tsh_start 0)) /\
        ids_unique (assignments ops (tsh_start 0)) /\
        reuse_after_wrap (assignments ops (tsh_start 0))).
Proof.
  intros H.
  destruct (H compaction_ops eq_refl) as (_ & _ & Hr).
  destruct (Hr 1%nat 2%nat (Assigned 2 false [1]) (Assigned 2 false [1]))
    as [(k & c & Hk & Hc & Hw) _]; [lia|done..|].
  assert (k = 1%nat) as -> by lia.
  vm_compute in Hc. injection Hc as <-. done.
Qed.

(** Past the wrap the counter restarts at 1 whatever IDs are live: here
    the job of pid 117 gets ID 1 while the job of pid 101 still holds
    it. *)
Lemma jid_duplicated_after_wrap :
  let s := run_ops wrap_ops (tsh_start 0) in
  jobs s !! 0%nat = Some (Job 101 1 BG "job") /\
  jobs s !! 15%nat = Some (Job 117 1 BG "job") /\
  ~ NoDup (live_jids (jobs s)).
Proof.
  split_and!; [done..|]. vm_compute.
  intros [Hnotin _]%NoDup_cons. apply Hnotin.
  repeat first [apply list_elem_of_here | apply list_elem_of_further].
Qed.

(** ** The stopped branch of the child-status handler *)

(** C10 fails on the code. Once the table is full a launched child runs
    untracked; when it stops, the handler looks it up, gets no job, and
    dereferences the result all the same. *)
Theorem sigchld_stop_of_untracked_child :
  exists s : shell,
    tsh table_full_session (tsh_start 0) = Segv s /\
    getjobpid (jobs s) 117 = None /\
    last (trace s) = Some (Waitpid (-1) (Z.lor WUNTRACED WNOHANG) 117).
Proof. eexists. split_and!; vm_compute; reflexivity. Qed.

(** ** The foreground discipline of the read/eval loop *)



Lemma handled_live_pids (js js' : list job_t) :
  handled js js' -> live_pids js' `sublist_of` live_pids js.
Proof.
  unfold live_pids. induction 1 as [|j j' js js' Hj _ IH]; [done|].
  rewrite !filter_cons. destruct Hj as [->|[->|[Hl ->]]].
  - destruct (decide (live j)); [|done]. rewrite !fmap_cons.
    by apply sublist_skip.
  - rewrite decide_False by (unfold live; simpl; lia).
    destruct (decide (live j)); [|done]. rewrite fmap_cons.
    by apply sublist_cons.
  - rewrite !decide_True by done. rewrite !fmap_cons. by apply sublist_skip.
Qed.








































(** * More of the job table *)

Lemma list_find_insert_same {A} (P : A -> Prop) `{!forall x, Decision (P x)}
    (l : list A) (i : nat) (x : A) :
  ~ P x -> (forall y, l !! i = Some y -> ~ P y) ->
  list_find P (<[i := x]> l) = list_find P l.
Proof.
  intros Hx. revert i. induction l as [|y l IH]; intros i Hy; [done|].
  destruct i as [|i]; cbn.
  - rewrite decide_False by done.
    rewrite (decide_False (P := P y)) by (by apply Hy). done.
  - destruct (decide (P y)); [done|].
    change (list_insert i x l) with (<[i := x]> l). by rewrite IH.
Qed.

Lemma list_find_insert_fresh {A} (P : A -> Prop) `{!forall x, Decision (P x)}
    (l : list A) (i : nat) (x : A) :
  P x -> (i < length l)%nat -> Forall (fun y => ~ P y) l ->
  list_find P (<[i := x]> l) = Some (i, x).
Proof.
  intros Hx Hi Hl. apply list_find_Some. split_and!.
  - by apply list_lookup_insert_eq.
  - done.
  - intros k y Hk Hlt. rewrite list_lookup_insert_ne in Hk by lia.
    by apply (Forall_lookup_1 _ _ _ _ Hl Hk).
Qed.

Lemma initjobs_cleared (js : list job_t) :
  Forall (fun j => j = Job 0 0 UNDEF "") (initjobs js).
Proof. unfold initjobs. apply Forall_fmap, Forall_forall. by intros j _. Qed.

(** X1. Whatever the array held, after [initjobs] it has as many slots,
    no pid and no job ID is found in it, no job is in the foreground,
    the largest ID is 0, and [jobs] lists nothing. *)
Theorem initjobs_empty_table (js : list job_t) :
  length (initjobs js) = length js /\
  (forall p : Z, getjobpid (initjobs js) p = None) /\
  (forall n : Z, getjobjid (initjobs js) n = None) /\
  (forall p : Z, pid2jid (initjobs js) p = 0) /\
  fgpid (initjobs js) = 0 /\
  maxjid (initjobs js) = 0 /\
  (forall s : shell, jobs s = initjobs js -> listjobs s = s).
Proof.
  pose proof (initjobs_cleared js) as Hall. split_and!.
  - unfold initjobs. by rewrite length_fmap.
  - intros p. apply getjobpid_None. destruct (Z.ltb_spec p 1); [by left|right].
    eapply Forall_impl; [exact Hall|]. intros j ->. simpl. lia.
  - intros n. unfold getjobjid. destruct (Z.ltb_spec n 1); [done|].
    assert (list_find (fun j => jid j = n) (initjobs js) = None) as ->; [|done].
    apply list_find_None. eapply Forall_impl; [exact Hall|].
    intros j ->. simpl. lia.
  - intros p. unfold pid2jid. destruct (Z.ltb_spec p 1); [done|].
    assert (list_find (fun j => pid j = p) (initjobs js) = None) as ->; [|done].
    apply list_find_None. eapply Forall_impl; [exact Hall|].
    intros j ->. simpl. lia.
  - unfold fgpid.
    assert (list_find (fun j => state j = FG) (initjobs js) = None) as ->;
      [|done].
    apply list_find_None. eapply Forall_impl; [exact Hall|]. by intros j ->.
  - rewrite maxjid_foldr. induction Hall as [|j l -> _ IH]; [done|].
    rewrite fmap_cons. cbn [foldr jid]. rewrite IH. done.
  - intros s Hs. unfold listjobs. rewrite Hs.
    assert (forall (l : list job_t) (k : nat),
               Forall (fun j => j = Job 0 0 UNDEF "") l ->
               concat (imap (fun i => listjobs_line (k + i)) l) = []) as Hnil.
    { induction l as [|j l IH]; intros k Hl; [done|].
      apply Forall_cons in Hl as [-> Hl]. cbn [imap concat]. simpl.
      rewrite <- (IH (S k) Hl). f_equal. apply imap_ext. intros i x _. simpl.
      f_equal. lia. }
    assert (concat (imap listjobs_line (initjobs js)) = []) as ->
      by exact (Hnil (initjobs js) 0%nat Hall).
    rewrite app_nil_r, <- Hs. by destruct s.
Qed.

(** X2. A registration that succeeds for a pid no job has makes the pid
    findable: the job found is the one registered, with the ID the
    counter held, and no other pid's lookup changes. *)
Theorem addjob_then_lookup (s : shell) (p st : Z) (c : string) :
  getjobpid (jobs s) p = None ->
  fst (addjob p st c s) = 1 ->
  let s' := snd (addjob p st c s) in
  (exists i : nat,
      getjobpid (jobs s') p = Some i /\
      jobs s' !!! i = Job p (nextjid s) st c /\
      forall k : nat, k ≠ i -> jobs s' !! k = jobs s !! k) /\
  pid2jid (jobs s') p = nextjid s /\
  (forall q : Z, q ≠ p ->
     getjobpid (jobs s') q = getjobpid (jobs s) q /\
     pid2jid (jobs s') q = pid2jid (jobs s) q).
Proof.
  intros Hfresh Hok s'. subst s'.
  destruct (Z.ltb_spec p 1) as [Hp|Hp].
  { destruct (addjob_fails s p st c) as (E & _); [by left|]. congruence. }
  destruct (list_find (fun j => pid j = 0) (jobs s)) as [[i j0]|] eqn:Hf.
  2:{ destruct (addjob_fails s p st c) as (E & _); [by right|]. congruence. }
  destruct (addjob_Some s p st c i j0 Hp Hf) as (_ & E2 & _). rewrite E2.
  apply list_find_Some in Hf as (Hi & Hfree & _).
  assert (i < length (jobs s))%nat as Hlt by (by eapply lookup_lt_Some).
  apply getjobpid_None in Hfresh as [?|Hfresh]; [lia|].
  assert (list_find (fun j => pid j = p)
            (<[i := Job p (nextjid s) st c]> (jobs s))
          = Some (i, Job p (nextjid s) st c)) as Hfind.
  { by apply list_find_insert_fresh. }
  split_and!.
  - exists i. split_and!.
    + unfold getjobpid. destruct (Z.ltb_spec p 1); [lia|]. by rewrite Hfind.
    + by rewrite list_lookup_total_insert_eq.
    + intros k Hk. by rewrite list_lookup_insert_ne.
  - unfold pid2jid. destruct (Z.ltb_spec p 1); [lia|]. by rewrite Hfind.
  - intros q Hq. unfold getjobpid, pid2jid.
    destruct (Z.ltb_spec q 1); [done|].
    rewrite (list_find_insert_same (fun j => pid j = q)); [done|simpl; lia|].
    intros y Hy. rewrite Hi in Hy. injection Hy as <-. lia.
Qed.

(** With pairwise distinct live pids, a deleted pid is gone. *)
Lemma deletejob_untracks (s : shell) (p : Z) :
  NoDup (live_pids (jobs s)) ->
  getjobpid (jobs (snd (deletejob p s))) p = None /\
  pid2jid (jobs (snd (deletejob p s))) p = 0.
Proof.
  intros Hnd.
  assert (list_find (fun j => pid j = p) (jobs (snd (deletejob p s))) = None
          \/ p < 1) as Hnone.
  { destruct (Z.ltb_spec p 1) as [?|Hp]; [by right|left].
    destruct (getjobpid (jobs s) p) as [i|] eqn:Hget.
    - rewrite (deletejob_tracked s p i Hget). cbn [jobs set_nextjid set_jobs].
      destruct (getjobpid_lookup _ _ _ Hget) as (_ & Hi & Hpid & _).
      apply list_find_None, Forall_lookup_2. intros k y Hy Hpy.
      destruct (decide (k = i)) as [->|Hk].
      + rewrite list_lookup_insert_eq in Hy by (by eapply lookup_lt_Some).
        injection Hy as <-. simpl in Hpy. lia.
      + rewrite list_lookup_insert_ne in Hy by done. apply Hk.
        eapply (live_pids_unique _ Hnd k i); [done..|congruence|].
        unfold live. lia.
    - rewrite (deletejob_untracked s p Hget).
      apply getjobpid_None in Hget as [?|Hall]; [lia|].
      by apply list_find_None. }
  unfold getjobpid, pid2jid. destruct (Z.ltb_spec p 1); [done|].
  destruct Hnone as [-> | ?]; [done|lia].
Qed.

(** X3. [deletejob] returns 0 exactly when the pid has no job, and then
    the shell state is untouched; otherwise it returns 1. Either way the
    lookups of every other pid are as before, and with pairwise distinct
    live pids the deleted pid is gone: no job is found for it and
    [pid2jid] answers 0. *)
Theorem deletejob_result (s : shell) (p : Z) :
  (fst (deletejob p s) = 0 <-> getjobpid (jobs s) p = None) /\
  (fst (deletejob p s) = 0 -> snd (deletejob p s) = s) /\
  (fst (deletejob p s) = 0 \/ fst (deletejob p s) = 1) /\
  (forall q : Z, q ≠ p ->
     getjobpid (jobs (snd (deletejob p s))) q = getjobpid (jobs s) q /\
     pid2jid (jobs (snd (deletejob p s))) q = pid2jid (jobs s) q) /\
  (NoDup (live_pids (jobs s)) ->
   getjobpid (jobs (snd (deletejob p s))) p = None /\
   pid2jid (jobs (snd (deletejob p s))) p = 0).
Proof.
  split_and!; [..|apply deletejob_untracks];
    destruct (getjobpid (jobs s) p) as [i|] eqn:Hget;
    try (rewrite (deletejob_untracked s p Hget); by auto).
  all: destruct (getjobpid_lookup _ _ _ Hget) as (Hp & Hi & Hpid & _).
  all: pose proof (deletejob_tracked s p i Hget) as E.
  all: apply getjobpid_Some in Hget as (_ & j & Hf).
  all: assert (fst (deletejob p s) = 1) as E1
         by (unfold deletejob; destruct (Z.ltb_spec p 1); [lia|]; by rewrite Hf).
  all: rewrite ?E1, ?E; try done; auto.
  intros q Hq. unfold getjobpid, pid2jid. cbn [jobs set_nextjid set_jobs].
  destruct (Z.ltb_spec q 1); [done|].
  rewrite (list_find_insert_same (fun j => pid j = q)); [done|simpl; lia|].
  intros y Hy. rewrite Hi in Hy. injection Hy as <-. lia.
Qed.

(** X4. Registering a new pid and deleting it again gives back the
    slots the table had, when its free slots are cleared ones; the
    counter ends one above the largest ID in the table. *)
Theorem addjob_deletejob_roundtrip (s : shell) (p st : Z) (c : string) :
  Forall (fun j => pid j = 0 -> j = Job 0 0 UNDEF "") (jobs s) ->
  getjobpid (jobs s) p = None ->
  let s' := snd (deletejob p (snd (addjob p st c s))) in
  jobs s' = jobs s /\
  (fst (addjob p st c s) = 1 -> nextjid s' = maxjid (jobs s) + 1).
Proof.
  intros Hclean Hfresh s'. subst s'.
  destruct (Z.ltb_spec p 1) as [Hp|Hp].
  { destruct (addjob_fails s p st c) as (E1 & E2 & _); [by left|].
    split; [|congruence]. unfold deletejob.
    destruct (Z.ltb_spec p 1); [done|lia]. }
  destruct (list_find (fun j => pid j = 0) (jobs s)) as [[i j0]|] eqn:Hf.
  2:{ destruct (addjob_fails s p st c) as (E1 & E2 & _); [by right|].
      split; [|congruence].
      rewrite deletejob_untracked; [done|]. by rewrite E2. }
  destruct (addjob_Some s p st c i j0 Hp Hf) as (_ & E2 & _).
  apply list_find_Some in Hf as (Hi & Hfree & _).
  assert (i < length (jobs s))%nat as Hlt by (by eapply lookup_lt_Some).
  pose proof (Forall_lookup_1 _ _ _ _ Hclean Hi Hfree) as ->.
  apply getjobpid_None in Hfresh as [?|Hfresh]; [lia|].
  assert (getjobpid (jobs (snd (addjob p st c s))) p = Some i) as Hget.
  { rewrite E2. unfold getjobpid. destruct (Z.ltb_spec p 1); [lia|].
    by rewrite (list_find_insert_fresh (fun j => pid j = p)). }
  rewrite (deletejob_tracked _ p i Hget), E2. cbn [jobs nextjid set_nextjid set_jobs].
  rewrite list_insert_insert_eq, (list_insert_id _ _ _ Hi). done.
Qed.

(** X5. [maxjid] bounds the ID of every slot, and is 0 or the ID of
    some slot. *)
Theorem maxjid_is_max (js : list job_t) :
  (forall j : job_t, j ∈ js -> jid j <= maxjid js) /\
  (maxjid js = 0 \/ exists j : job_t, j ∈ js /\ jid j = maxjid js).
Proof.
  rewrite maxjid_foldr. split.
  - intros j Hj. apply foldr_max_ge. by apply list_elem_of_fmap_2.
  - induction js as [|j js IH]; [by left|]. rewrite fmap_cons. cbn [foldr].
    destruct (Z.max_spec (jid j) (foldr Z.max 0 (jid <$> js))) as [[_ ->]|[_ ->]].
    + destruct IH as [IH|(j' & Hj' & E)]; [by left|right].
      exists j'. split; [by apply list_elem_of_further|done].
    + right. exists j. split; [apply list_elem_of_here|done].
Qed.

Lemma slot_ok_cases (j : job_t) :
  slot_ok j = true ->
  (pid j = 0 /\ jid j = 0 /\ state j = UNDEF) \/
  (1 <= pid j /\ 1 <= jid j /\ (state j = FG \/ state j = BG \/ state j = ST)).
Proof.
  unfold slot_ok. destruct (Z.eqb_spec (pid j) 0) as [E|E].
  - intros [H1%Z.eqb_eq H2%Z.eqb_eq]%andb_true_iff. by left.
  - intros [[H1%Z.leb_le H2%Z.leb_le]%andb_true_iff H3]%andb_true_iff.
    right. split_and!; [done..|].
    apply orb_true_iff in H3 as [H3|H3%Z.eqb_eq]; [|auto].
    apply orb_true_iff in H3 as [H3%Z.eqb_eq|H3%Z.eqb_eq]; auto.
Qed.

Lemma slots_ok_lookup (js : list job_t) (i : nat) (j : job_t) :
  forallb slot_ok js = true -> js !! i = Some j -> slot_ok j = true.
Proof.
  intros Hok Hi. rewrite forallb_forall in Hok.
  apply Hok, list_elem_of_In. by eapply list_elem_of_lookup_2.
Qed.

Lemma live_jids_unique (js : list job_t) :
  NoDup (live_jids js) ->
  forall (i k : nat) (j j' : job_t),
    js !! i = Some j -> js !! k = Some j' -> jid j = jid j' ->
    live j -> live j' -> i = k.
Proof.
  unfold live_jids.
  induction js as [|x js IH]; intros Hnd i k j j' Hi Hk E Hl Hl'; [done|].
  assert (forall (n : nat) (y : job_t),
             js !! n = Some y -> live y -> jid y ∈ jid <$> filter live js)
    as Hin.
  { intros n y Hy Hly. apply list_elem_of_fmap_2, list_elem_of_filter.
    split; [done|]. by eapply list_elem_of_lookup_2. }
  rewrite filter_cons in Hnd. destruct (decide (live x)) as [Hx|Hx].
  - rewrite fmap_cons in Hnd. apply NoDup_cons in Hnd as [Hnotin Hnd].
    destruct i as [|i], k as [|k]; simplify_eq/=; try done.
    + destruct Hnotin. rewrite E. by eapply Hin.
    + destruct Hnotin. rewrite <- E. by eapply Hin.
    + f_equal. by eapply IH.
  - destruct i as [|i], k as [|k]; simplify_eq/=; try done.
    f_equal. by eapply IH.
Qed.

(** X6. In a well-formed table [pid2jid] answers 0 exactly for the pids
    that have no job; for the others it answers the ID of the job
    [getjobpid] finds, which is at least 1. *)
Theorem pid2jid_zero_iff_untracked (s : shell) (p : Z) :
  table_ok s = true ->
  (pid2jid (jobs s) p = 0 <-> getjobpid (jobs s) p = None) /\
  (forall i : nat,
      getjobpid (jobs s) p = Some i ->
      pid2jid (jobs s) p = jid (jobs s !!! i) /\ 1 <= pid2jid (jobs s) p).
Proof.
  intros (_ & Hok & _)%table_ok_slots.
  assert (forall i : nat,
             getjobpid (jobs s) p = Some i ->
             pid2jid (jobs s) p = jid (jobs s !!! i) /\
             1 <= pid2jid (jobs s) p) as Hsome.
  { intros i Hget. rewrite (pid2jid_getjobpid _ _ _ Hget). split; [done|].
    destruct (getjobpid_lookup _ _ _ Hget) as (Hp & Hi & Hpid & _).
    destruct (slot_ok_cases _ (slots_ok_lookup _ _ _ Hok Hi)) as [[? _]|[_ [? _]]];
      lia. }
  split; [|done]. split.
  - intros H0. destruct (getjobpid (jobs s) p) as [i|] eqn:Hget; [|done].
    destruct (Hsome i eq_refl). lia.
  - intros Hnone. unfold getjobpid, pid2jid in *.
    destruct (p <? 1); [done|].
    by destruct (list_find _ (jobs s)) as [[i j]|].
Qed.

(** X7. With a well-formed table and pairwise distinct live job IDs, the
    ID that [pid2jid] gives for a tracked pid leads [getjobjid] back to
    the same job. *)
Theorem getjobjid_of_pid2jid (s : shell) (p : Z) (i : nat) :
  table_ok s = true ->
  NoDup (live_jids (jobs s)) ->
  getjobpid (jobs s) p = Some i ->
  getjobjid (jobs s) (pid2jid (jobs s) p) = Some i.
Proof.
  intros (_ & Hok & _)%table_ok_slots Hnd Hget.
  rewrite (pid2jid_getjobpid _ _ _ Hget).
  destruct (getjobpid_lookup _ _ _ Hget) as (Hp & Hi & Hpid & _).
  set (j := jobs s !!! i) in *.
  assert (1 <= jid j /\ live j) as [Hjid Hlive].
  { destruct (slot_ok_cases _ (slots_ok_lookup _ _ _ Hok Hi)) as [[? _]|(?&?&_)];
      [lia|]. split; [done|]. unfold live. lia. }
  destruct (list_find (fun y => jid y = jid j) (jobs s)) as [[k y]|] eqn:Hf.
  - apply getjobjid_Some. split; [done|]. exists y.
    apply list_find_Some in Hf as Hf'. destruct Hf' as (Hk & Hy & _).
    assert (k = i) as <-; [|done].
    eapply (live_jids_unique _ Hnd k i); [done..| |done].
    destruct (slot_ok_cases _ (slots_ok_lookup _ _ _ Hok Hk)) as [(?&?&_)|(?&_)];
      unfold live; lia.
  - apply list_find_None in Hf.
    by destruct (Forall_lookup_1 _ _ _ _ Hf Hi).
Qed.

(** X8. In a well-formed table [fgpid] answers 0 exactly when no job is
    in state FG; a non-zero answer is the pid of a job in state FG, and
    with pairwise distinct live pids that job is the one [getjobpid]
    finds for it. *)
Theorem fgpid_foreground_job (s : shell) :
  table_ok s = true ->
  (fgpid (jobs s) = 0 <-> fg_count (jobs s) = 0%nat) /\
  (fgpid (jobs s) ≠ 0 ->
   exists (i : nat) (j : job_t),
     jobs s !! i = Some j /\ state j = FG /\ pid j = fgpid (jobs s) /\
     (NoDup (live_pids (jobs s)) ->
      getjobpid (jobs s) (fgpid (jobs s)) = Some i)).
Proof.
  intros (_ & Hok & _)%table_ok_slots. unfold fgpid.
  destruct (list_find (fun j => state j = FG) (jobs s)) as [[i j]|] eqn:Hf.
  - apply list_find_Some in Hf as (Hi & Hst & _).
    pose proof (slot_ok_fg _ _ _ Hok Hi Hst) as Hpid. split.
    + split; [lia|]. intros H0%fg_count_0.
      by destruct (Forall_lookup_1 _ _ _ _ H0 Hi).
    + intros _. exists i, j. split_and!; [done..|].
      intros Hnd. by apply getjobpid_unique.
  - apply list_find_None in Hf. split; [|done].
    split; [intros _; by apply fg_count_0|done].
Qed.

Lemma listjobs_lines_shift (js : list job_t) (k : nat) :
  forallb slot_ok js = true ->
  concat (imap (fun i => listjobs_line (k + i)) js)
  = concat
      ((fun j =>
          [Printf ("[" +:+ fmt_d (jid j) +:+ "] (" +:+ fmt_d (pid j) +:+ ") ");
           Printf (if state j =? BG then "Running "
                   else if state j =? FG then "Foreground " else "Stopped ");
           Printf (cmdline j)]) <$> filter live js).
Proof.
  revert k. induction js as [|j js IH]; intros k Hok; [done|].
  simpl in Hok. apply andb_true_iff in Hok as [Hj Hok].
  cbn [imap concat]. rewrite filter_cons.
  assert (concat (imap ((fun i => listjobs_line (k + i)) ∘ S) js)
          = concat (imap (fun i => listjobs_line (S k + i)) js)) as ->.
  { f_equal. apply imap_ext. intros i x _. simpl. f_equal. lia. }
  rewrite (IH (S k) Hok). unfold listjobs_line at 1.
  destruct (slot_ok_cases _ Hj) as [(E & _)|(Hp & _ & Hst)].
  - rewrite E. cbn [Z.eqb app]. rewrite decide_False; [done|].
    unfold live. lia.
  - destruct (Z.eqb_spec (pid j) 0); [lia|].
    rewrite decide_True by (unfold live; lia). rewrite fmap_cons.
    cbn [concat app]. do 2 f_equal.
    destruct Hst as [-> | [-> | ->]]; done.
Qed.

(** X9. On a well-formed table [listjobs] prints, in slot order, one
    line per live job and nothing for a free slot: "[jid] (pid) ", then
    Running, Foreground or Stopped (never the internal-error text), then
    the command line. It changes nothing else. *)
Theorem listjobs_lines (s : shell) :
  table_ok s = true ->
  listjobs s
  = Shell (jobs s) (nextjid s) (verbose s)
      (trace s ++
       concat
         ((fun j =>
             [Printf ("[" +:+ fmt_d (jid j) +:+ "] (" +:+ fmt_d (pid j)
                        +:+ ") ");
              Printf (if state j =? BG then "Running "
                      else if state j =? FG then "Foreground "
                      else "Stopped ");
              Printf (cmdline j)]) <$> filter live (jobs s))).
Proof.
  intros (_ & Hok & _)%table_ok_slots. unfold listjobs. do 2 f_equal.
  exact (listjobs_lines_shift (jobs s) 0 Hok).
Qed.

(** * More of the handlers *)

Lemma grows_emit (s0 : shell) (e : event) (s : shell) :
  nonblocking e = true ->
  (verbose s = verbose s0 /\ exists ev, trace s = trace s0 ++ ev) ->
  verbose (emit e s) = verbose s0 /\
  exists ev, trace (emit e s) = trace s0 ++ ev.
Proof.
  intros _ [Hv [ev Hev]]. split; [done|]. exists (ev ++ [e]). simpl.
  by rewrite Hev, app_assoc.
Qed.

Lemma grows_deletejob (s0 : shell) (p : Z) (s : shell) :
  (verbose s = verbose s0 /\ exists ev, trace s = trace s0 ++ ev) ->
  verbose (snd (deletejob p s)) = verbose s0 /\
  exists ev, trace (snd (deletejob p s)) = trace s0 ++ ev.
Proof.
  rewrite deletejob_trace. intros [Hv Hev]. split; [|done]. rewrite <- Hv.
  unfold deletejob. destruct (p <? 1); [done|].
  by destruct (list_find _ (jobs s)) as [[i j]|].
Qed.

Lemma grows_stop (s0 : shell) (i : nat) (p : Z) (s : shell) :
  getjobpid (jobs s) p = Some i ->
  (verbose s = verbose s0 /\ exists ev, trace s = trace s0 ++ ev) ->
  verbose (set_state i ST s) = verbose s0 /\
  exists ev, trace (set_state i ST s) = trace s0 ++ ev.
Proof. done. Qed.

(** X10. Whatever signals are delivered, the three handlers only extend
    the trace and leave each slot as it was, cleared, or (for a live
    job) with its state set to ST: they register no job, change no pid,
    job ID or command line of a job that stays, and put no job in state
    FG or BG. *)
Theorem handlers_footprint (ds : list delivery) (s : shell) :
  let s' := final (deliver ds s) in
  length (jobs s') = length (jobs s) /\
  verbose s' = verbose s /\
  (exists ev : list event, trace s' = trace s ++ ev) /\
  (forall (i : nat) (j' : job_t),
      jobs s' !! i = Some j' ->
      exists j : job_t,
        jobs s !! i = Some j /\
        (j' = j \/ j' = Job 0 0 UNDEF "" \/
         (pid j ≠ 0 /\ j' = with_state ST j))).
Proof.
  intros s'. subst s'. pose proof (deliver_handled ds s) as Hh.
  destruct (deliver_preserves
              (fun s' => verbose s' = verbose s /\
                         exists ev, trace s' = trace s ++ ev)
              (grows_emit s) (grows_deletejob s) (grows_stop s) ds s)
    as [Hv Hev].
  { split; [done|]. exists []. by rewrite app_nil_r. }
  split_and!; [by apply handled_length|done|done|].
  intros i j' Hj'. by apply (Forall2_lookup_r _ _ _ _ _ Hh Hj').
Qed.

(** X11. When waitpid reports a child that has no job in the table: a
    normal exit changes nothing; a death by signal prints the message
    with job ID 0 and changes nothing in the table; a stop makes the
    handler write through the NULL that [getjobpid] returned. *)
Theorem sigchld_handler_untracked
    (s : shell) (p status : Z) (rest : list (Z * Z)) :
  0 < p ->
  getjobpid (jobs s) p = None ->
  let s0 := emit (Waitpid (-1) (Z.lor WUNTRACED WNOHANG) p) s in
  (WIFEXITED status = true ->
     sigchld_handler ((p, status) :: rest) s = sigchld_handler rest s0) /\
  (WIFSIGNALED status = true ->
     sigchld_handler ((p, status) :: rest) s
     = sigchld_handler rest
         (emit (Printf ("Job [0] (" +:+ fmt_d p +:+ ") terminated by signal "
                          +:+ fmt_d (WTERMSIG status) +:+ LF)) s0)) /\
  (WIFSTOPPED status = true ->
     sigchld_handler ((p, status) :: rest) s = Segv s0).
Proof.
  intros Hp Hget s0.
  assert (getjobpid (jobs s0) p = None) as Hget0 by done.
  assert (pid2jid (jobs s0) p = 0) as Hjid.
  { unfold pid2jid, getjobpid in *. destruct (p <? 1); [done|].
    by destruct (list_find _ (jobs s0)) as [[i j]|]. }
  cbn [sigchld_handler]. fold s0.
  destruct (Z.ltb_spec 0 p) as [_|?]; [|lia]. unfold bind. split_and!.
  - intros Hex. unfold reap. rewrite Hex.
    by rewrite (deletejob_untracked _ _ Hget0).
  - intros Hsig. unfold reap, job_msg.
    rewrite (wstatus_signaled _ Hsig), Hsig, Hjid.
    by rewrite (deletejob_untracked (emit _ s0) p).
  - intros Hst. by rewrite (reap_stopped_untracked _ _ _ Hst Hget0).
Qed.

Lemma handled_untracked (js js' : list job_t) (p : Z) :
  handled js js' -> getjobpid js p = None -> getjobpid js' p = None.
Proof.
  intros Hh Hnone. apply getjobpid_None.
  destruct (Z.ltb_spec p 1) as [?|Hp]; [by left|right].
  apply getjobpid_None in Hnone as [?|Hall]; [lia|].
  apply Forall_lookup_2. intros k j' Hj'.
  destruct (Forall2_lookup_r _ _ _ _ _ Hh Hj') as (j & Hj & [->|[->|[_ ->]]]).
  - by apply (Forall_lookup_1 _ _ _ _ Hall Hj).
  - simpl. lia.
  - by apply (Forall_lookup_1 _ _ _ _ Hall Hj).
Qed.

Lemma handled_NoDup (js js' : list job_t) :
  handled js js' -> NoDup (live_pids js) -> NoDup (live_pids js').
Proof.
  intros Hh Hnd. eapply sublist_NoDup; [exact Hnd|].
  by apply handled_live_pids.
Qed.

(** X12. One run of the child-status handler drains what waitpid
    reports: when every reported child has exited or was killed, and
    the live pids are pairwise distinct, the handler returns and none of
    the reported pids has a job any more. *)
Theorem sigchld_handler_drains (pending : list (Z * Z)) (s : shell) :
  NoDup (live_pids (jobs s)) ->
  Forall (fun r => 0 < fst r /\
                   (WIFEXITED (snd r) = true \/ WIFSIGNALED (snd r) = true))
         pending ->
  exists s' : shell,
    sigchld_handler pending s = Ret tt s' /\
    forall r : Z * Z, r ∈ pending -> getjobpid (jobs s') (fst r) = None.
Proof.
  revert s. induction pending as [|[p status] rest IH]; intros s Hnd Hall.
  { eexists. split; [done|]. by intros r ?%elem_of_nil. }
  apply Forall_cons in Hall as [[Hp Hstatus] Hall]. cbn [fst snd] in *.
  cbn [sigchld_handler]. destruct (Z.ltb_spec 0 p) as [_|?]; [|lia].
  set (s0 := emit (Waitpid (-1) (Z.lor WUNTRACED WNOHANG) p) s).
  assert (exists s1 : shell,
             reap p status s0 = Ret tt s1 /\
             NoDup (live_pids (jobs s1)) /\
             getjobpid (jobs s1) p = None) as (s1 & Hreap & Hnd1 & Hgone).
  { unfold reap. destruct Hstatus as [Hex|Hsig].
    - rewrite Hex. eexists. split; [done|]. split.
      + eapply handled_NoDup; [apply deletejob_handled|done].
      + by apply deletejob_untracks.
    - rewrite (wstatus_signaled _ Hsig), Hsig. eexists. split; [done|]. split.
      + eapply handled_NoDup; [apply (deletejob_handled (emit _ s0))|done].
      + by apply (deletejob_untracks (emit _ s0)). }
  unfold bind. rewrite Hreap.
  destruct (IH s1 Hnd1 Hall) as (s' & Hret & Hrest).
  exists s'. split; [done|].
  intros r [->|Hr]%elem_of_cons; [|by apply Hrest].
  cbn [fst]. eapply handled_untracked; [|exact Hgone].
  pose proof (sigchld_handler_handled rest s1) as Hh. by rewrite Hret in Hh.
Qed.

(** * Numbers printed and read back *)

Lemma pretty_N_char_digit (d : N) :
  (d < 10)%N ->
  isdigit (pretty_N_char d) = true /\
  Z.of_nat (nat_of_ascii (pretty_N_char d)) - 48 = Z.of_N d.
Proof.
  intros Hd.
  assert (d = 0 \/ d = 1 \/ d = 2 \/ d = 3 \/ d = 4 \/ d = 5 \/ d = 6 \/ d = 7
          \/ d = 8 \/ d = 9)%N as Hcases by lia.
  repeat (destruct Hcases as [->|Hcases]; [by vm_compute|]).
  subst d. by vm_compute.
Qed.

Lemma digits_pretty_N_go (x : N) :
  exists k : Z,
    0 < k /\ Z.of_N x < k /\
    forall (acc : Z) (s : string),
      digits acc (pretty_N_go x s) = digits (acc * k + Z.of_N x) s.
Proof.
  induction (N.lt_wf_0 x) as [x _ IH].
  destruct (decide (x = 0)%N) as [->|Hx].
  { exists 1. split; [lia|]. split; [lia|]. intros acc s.
    rewrite pretty_N_go_0. f_equal. lia. }
  destruct (IH (x `div` 10)%N) as (k & Hk & Hlt & Hgo).
  { apply N.div_lt; lia. }
  exists (10 * k). split; [lia|].
  pose proof (N.div_mod x 10 ltac:(lia)) as Hdm.
  pose proof (N.mod_lt x 10 ltac:(lia)) as Hm.
  split; [lia|]. intros acc s.
  rewrite pretty_N_go_step by lia. rewrite Hgo. cbn [digits].
  destruct (pretty_N_char_digit _ Hm) as [-> ->]. f_equal. lia.
Qed.

Lemma pretty_N_go_head (x : N) (s : string) :
  (0 < x)%N ->
  exists (c : ascii) (r : string),
    pretty_N_go x s = String c r /\ isdigit c = true.
Proof.
  revert s. induction (N.lt_wf_0 x) as [x _ IH]. intros s Hx.
  rewrite pretty_N_go_step by done.
  destruct (decide (x `div` 10 = 0)%N) as [->|Hd].
  - rewrite pretty_N_go_0. eexists _, _. split; [done|].
    apply pretty_N_char_digit, N.mod_lt. lia.
  - apply IH; [apply N.div_lt; lia|by apply N.neq_0_lt_0].
Qed.

Lemma atoi_digit (c : ascii) (r : string) :
  isdigit c = true -> atoi (String c r) = int_of (digits 0 (String c r)).
Proof.
  intros Hc. unfold atoi, int_of.
  destruct c as [[] [] [] [] [] [] [] []]; try discriminate Hc; reflexivity.
Qed.

Lemma fmt_d_Zpos (p : positive) : fmt_d (Z.pos p) = pretty_N_go (N.pos p) "".
Proof. reflexivity. Qed.

Lemma fmt_d_Zneg (p : positive) :
  fmt_d (Z.neg p) = String "-" (pretty_N_go (N.pos p) "").
Proof. reflexivity. Qed.

Lemma fmt_d_pos (p : positive) :
  exists (c : ascii) (r : string),
    pretty_N_go (N.pos p) "" = String c r /\ isdigit c = true /\
    digits 0 (String c r) = Z.pos p.
Proof.
  destruct (pretty_N_go_head (N.pos p) "" ltac:(lia)) as (c & r & E & Hc).
  exists c, r. split; [done|]. split; [done|]. rewrite <- E.
  destruct (digits_pretty_N_go (N.pos p)) as (k & _ & _ & ->). simpl. lia.
Qed.

Lemma atoi_fmt_d (n : Z) :
  - 2 ^ 31 <= n < 2 ^ 31 -> atoi (fmt_d n) = n.
Proof.
  intros Hn.
  assert (forall v, - 2 ^ 31 <= v < 2 ^ 31 -> int_of v = v) as Hint.
  { intros v Hv. unfold int_of.
    rewrite Z.max_r, Z.min_r by lia. rewrite Z.mod_small by lia. lia. }
  destruct n as [|p|p].
  - reflexivity.
  - rewrite fmt_d_Zpos.
    destruct (fmt_d_pos p) as (c & r & -> & Hc & Hd).
    rewrite atoi_digit, Hd by done. by apply Hint.
  - rewrite fmt_d_Zneg.
    destruct (fmt_d_pos p) as (c & r & -> & Hc & Hd).
    unfold atoi. cbn [skip_space]. 
    change (isspace "-") with false. cbv iota.
    rewrite Hd. apply (Hint (Z.neg p)). done.
Qed.

Lemma pretty_N_go_app (x : N) (s rest : string) :
  pretty_N_go x s +:+ rest = pretty_N_go x (s +:+ rest).
Proof.
  revert s. induction (N.lt_wf_0 x) as [x _ IH]. intros s.
  destruct (decide (x = 0)%N) as [->|Hx].
  { by rewrite !pretty_N_go_0. }
  assert (0 < x)%N as Hpos by by apply N.neq_0_lt_0.
  rewrite (pretty_N_go_step x s), (pretty_N_go_step x (s +:+ rest)) by done.
  rewrite IH; [reflexivity|]. apply N.div_lt; lia.
Qed.

Lemma digits_stop (acc : Z) (rest : string) :
  (forall (c : ascii) (r : string), rest = String c r -> isdigit c = false) ->
  digits acc rest = acc.
Proof.
  intros H. destruct rest as [|c r]; [done|].
  cbn [digits]. by rewrite (H c r).
Qed.

(** X13. Reading back what printf wrote: [atoi] of the [%d] text of an
    [int] is that [int], negative ones included, and whatever follows
    the digits is ignored, so that [fg 12abc] means [fg 12]. *)
Theorem atoi_reads_printed_int (n : Z) (rest : string) :
  - 2 ^ 31 <= n < 2 ^ 31 ->
  (forall (c : ascii) (r : string), rest = String c r -> isdigit c = false) ->
  atoi (fmt_d n +:+ rest) = n.
Proof.
  intros Hn Hrest.
  assert (forall v, - 2 ^ 31 <= v < 2 ^ 31 -> int_of v = v) as Hint.
  { intros v Hv. unfold int_of.
    rewrite Z.max_r, Z.min_r by lia. rewrite Z.mod_small by lia. lia. }
  assert (forall p : positive,
             exists (c : ascii) (r : string),
               pretty_N_go (N.pos p) "" +:+ rest = String c r /\
               isdigit c = true /\ digits 0 (String c r) = Z.pos p)
    as Hpos.
  { intros p. rewrite pretty_N_go_app. cbn [append].
    destruct (pretty_N_go_head (N.pos p) rest ltac:(lia)) as (c & r & E & Hc).
    exists c, r. split; [done|]. split; [done|]. rewrite <- E.
    destruct (digits_pretty_N_go (N.pos p)) as (k & _ & _ & ->).
    rewrite digits_stop by done. lia. }
  destruct n as [|p|p].
  - change (fmt_d 0 +:+ rest) with (String "0" rest).
    rewrite atoi_digit by done. cbn [digits].
    change (isdigit "0") with true. cbv iota.
    rewrite digits_stop by done. by apply Hint.
  - rewrite fmt_d_Zpos.
    destruct (Hpos p) as (c & r & -> & Hc & Hd).
    rewrite atoi_digit, Hd by done. by apply Hint.
  - rewrite fmt_d_Zneg.
    change (String "-" (pretty_N_go (N.pos p) "") +:+ rest)
      with (String "-" (pretty_N_go (N.pos p) "" +:+ rest)).
    destruct (Hpos p) as (c & r & -> & Hc & Hd).
    unfold atoi. cbn [skip_space].
    change (isspace "-") with false. cbv iota.
    rewrite Hd. by apply (Hint (Z.neg p)).
Qed.

Lemma getjobjid_unique (js : list job_t) (i : nat) (j : job_t) :
  forallb slot_ok js = true -> NoDup (live_jids js) ->
  js !! i = Some j -> 1 <= jid j ->
  getjobjid js (jid j) = Some i.
Proof.
  intros Hok Hnd Hj Hjid. apply getjobjid_Some. split; [done|].
  destruct (list_find_elem_of (fun j' => jid j' = jid j) js j) as [[k j'] Hf].
  { by eapply list_elem_of_lookup_2. }
  { done. }
  exists j'. rewrite Hf.
  apply list_find_Some in Hf as (Hk & Hjid' & _).
  assert (k = i) as ->; [|done].
  eapply (live_jids_unique js Hnd k i j' j); try done.
  - pose proof (slot_ok_live js k j' Hok Hk) as H. unfold live. lia.
  - pose proof (slot_ok_live js i j Hok Hj) as H. unfold live. lia.
Qed.

(** X14. What the shell prints for a job can be typed back: in a
    well-formed table with pairwise distinct live pids and job IDs,
    [bg] and [fg] resolve both "%jid" and "pid", written as printf
    writes them, to the job they were printed for. *)
Theorem resolve_printed_ids (s : shell) (cmd : string) (i : nat) (j : job_t) :
  table_ok s = true ->
  NoDup (live_pids (jobs s)) -> NoDup (live_jids (jobs s)) ->
  jobs s !! i = Some j -> pid j ≠ 0 ->
  pid j < 2 ^ 31 -> jid j < 2 ^ 31 ->
  resolve cmd ("%" +:+ fmt_d (jid j)) (jobs s) = inl (i, pid j) /\
  resolve cmd (fmt_d (pid j)) (jobs s) = inl (i, pid j).
Proof.
  intros Hok Hndp Hndj Hj Hlive Hp Hjid.
  destruct (table_ok_slots s Hok) as (_ & Hslots & _).
  destruct (slot_ok_cases j (slots_ok_lookup _ _ _ Hslots Hj))
    as [[? _]|(Hp1 & Hj1 & _)]; [done|].
  split.
  - change ("%" +:+ fmt_d (jid j)) with (String "%" (fmt_d (jid j))).
    cbn [resolve]. change (Ascii.eqb "%" "%") with true. cbv iota.
    rewrite atoi_fmt_d by lia.
    rewrite (getjobjid_unique _ _ _ Hslots Hndj Hj Hj1).
    by rewrite (list_lookup_total_correct _ _ _ Hj).
  - destruct (pid j) as [|p|p] eqn:E; try lia.
    pose proof (atoi_fmt_d (Z.pos p) ltac:(lia)) as Hatoi.
    rewrite fmt_d_Zpos in *.
    destruct (fmt_d_pos p) as (c & r & Ec & Hc & _). rewrite Ec in *.
    cbn [resolve]. rewrite Hc.
    assert (Ascii.eqb c "%" = false) as ->.
    { destruct (Ascii.eqb_spec c "%") as [->|]; [discriminate Hc|done]. }
    rewrite Hatoi, <- E.
    rewrite (getjobpid_unique _ _ _ Hndp Hj); [done|lia].
Qed.

(** * parseline *)

Lemma length_append (x y : string) :
  String.length (x +:+ y) = (String.length x + String.length y)%nat.
Proof. induction x as [|c x IH]; [done|]. simpl. by rewrite IH. Qed.

Lemma append_cons (c : ascii) (x y : string) :
  String c x +:+ y = String c (x +:+ y).
Proof. reflexivity. Qed.

Lemma append_assoc (x y z : string) : (x +:+ y) +:+ z = x +:+ (y +:+ z).
Proof. induction x as [|c x IH]; [done|]. by rewrite !append_cons, IH. Qed.

Lemma append_empty_r (x : string) : x +:+ "" = x.
Proof. induction x as [|c x IH]; [done|]. by rewrite append_cons, IH. Qed.

Lemma blanks_snoc (n : nat) : blanks n +:+ " " = String " " (blanks n).
Proof.
  induction n as [|n IH]; [done|]. cbn [blanks]. by rewrite append_cons, IH.
Qed.

Lemma blank_last_app (x y : string) :
  y ≠ "" -> blank_last (x +:+ y) = x +:+ blank_last y.
Proof.
  intros Hy. induction x as [|c x IH]; [done|].
  rewrite append_cons. cbn [blank_last]. rewrite IH.
  destruct (x +:+ y) eqn:E; [|done].
  destruct x; [|done]. by destruct y.
Qed.

Lemma skip_blanks_blanks (n : nat) (s : string) :
  skip_blanks (blanks n +:+ s) = skip_blanks s.
Proof.
  induction n as [|n IH]; [done|].
  cbn [blanks]. rewrite append_cons. cbn [skip_blanks].
  by change (Ascii.eqb " " " ") with true.
Qed.

Lemma skip_blanks_length (s : string) :
  (String.length (skip_blanks s) <= String.length s)%nat.
Proof.
  induction s as [|c s IH]; [done|]. cbn [skip_blanks].
  destruct (Ascii.eqb c " "); cbn; lia.
Qed.

Lemma strchr_length (c : ascii) (buf before after : string) :
  strchr c buf = Some (before, after) ->
  String.length buf = S (String.length before + String.length after).
Proof.
  revert before. induction buf as [|x r IH]; intros before; [done|].
  cbn [strchr]. destruct (Ascii.eqb x c).
  - intros [= <- <-]. done.
  - destruct (strchr c r) as [[b a]|]; [|done].
    intros [= <- <-]. cbn. by rewrite (IH b).
Qed.

Lemma next_arg_length (buf arg rest : string) :
  next_arg buf = Some (arg, rest) ->
  (String.length rest < String.length buf)%nat.
Proof.
  unfold next_arg. destruct buf as [|x r]; [done|].
  destruct (Ascii.eqb x "'").
  - intros H%strchr_length. cbn. lia.
  - intros H%strchr_length. lia.
Qed.

Lemma parse_args_fuel (f g : nat) (buf : string) :
  (String.length buf <= f)%nat -> (String.length buf <= g)%nat ->
  parse_args f buf = parse_args g buf.
Proof.
  revert g buf. induction f as [|f IH]; intros g buf Hf Hg.
  { destruct buf; [|cbn in Hf; lia]. by destruct g. }
  destruct g as [|g].
  { destruct buf; [|cbn in Hg; lia]. done. }
  cbn [parse_args]. destruct (next_arg buf) as [[arg rest]|] eqn:E; [|done].
  apply next_arg_length in E. pose proof (skip_blanks_length rest).
  f_equal. apply IH; lia.
Qed.

Lemma tokens_step (buf : string) :
  tokens buf
  = match next_arg buf with
    | None => []
    | Some (arg, rest) => arg :: tokens (skip_blanks rest)
    end.
Proof.
  unfold tokens. destruct buf as [|x r]; [done|].
  cbn [String.length parse_args].
  destruct (next_arg (String x r)) as [[arg rest]|] eqn:E; [|done].
  apply next_arg_length in E. pose proof (skip_blanks_length rest).
  cbn in E. f_equal. apply parse_args_fuel; lia.
Qed.

Lemma strchr_app (c : ascii) (w rest : string) :
  has_char c w = false -> strchr c (w +:+ String c rest) = Some (w, rest).
Proof.
  induction w as [|x w IH]; cbn [has_char].
  - intros _. change ("" +:+ String c rest) with (String c rest).
    cbn [strchr]. by rewrite Ascii.eqb_refl.
  - intros [Hx Hw]%orb_false_elim. rewrite append_cons. cbn [strchr].
    by rewrite Hx, IH.
Qed.

Lemma strchr_none (c : ascii) (w : string) :
  has_char c w = false -> strchr c w = None.
Proof.
  induction w as [|x w IH]; [done|]. cbn [has_char strchr].
  intros [-> Hw]%orb_false_elim. by rewrite IH.
Qed.

Lemma plain_cases (w : string) :
  plain w = true ->
  exists (x : ascii) (r : string),
    w = String x r /\ Ascii.eqb x "'" = false /\ Ascii.eqb x " " = false /\
    has_char " " w = false.
Proof.
  destruct w as [|x r]; [done|]. unfold plain.
  intros [Hq Hs]%andb_true_iff. apply negb_true_iff in Hq, Hs.
  exists x, r. split; [done|]. split; [done|]. split; [|done].
  cbn [has_char] in Hs. by apply orb_false_elim in Hs as [? _].
Qed.

Lemma tokens_word (w rest : string) :
  plain w = true ->
  tokens (w +:+ String " " rest) = w :: tokens (skip_blanks rest).
Proof.
  intros (x & r & -> & Hq & _ & Hs)%plain_cases.
  rewrite tokens_step. unfold next_arg. rewrite append_cons, Hq.
  rewrite <- append_cons. by rewrite strchr_app.
Qed.

Lemma skip_blanks_plain (w rest : string) :
  plain w = true -> skip_blanks (w +:+ rest) = w +:+ rest.
Proof.
  intros (x & r & -> & _ & Hs & _)%plain_cases.
  rewrite append_cons. cbn [skip_blanks]. by rewrite Hs.
Qed.

Lemma skip_blanks_spaced (ws : list (string * nat)) (rest : string) :
  Forall (fun w => plain w.1 = true) ws ->
  skip_blanks rest = rest ->
  skip_blanks (spaced ws +:+ rest) = spaced ws +:+ rest.
Proof.
  intros Hws Hrest. destruct Hws as [|[w n] ws Hw _]; [done|].
  cbn [spaced]. rewrite append_assoc. by apply skip_blanks_plain.
Qed.

Lemma tokens_spaced (ws : list (string * nat)) (rest : string) :
  Forall (fun w => plain w.1 = true) ws ->
  skip_blanks rest = rest ->
  tokens (spaced ws +:+ rest) = ws.*1 ++ tokens rest.
Proof.
  intros Hws Hrest. induction Hws as [|[w n] ws Hw Hws IH]; [done|].
  rewrite fmap_cons. cbn [spaced fst app]. rewrite append_assoc, append_cons.
  rewrite tokens_word by done. rewrite append_assoc, skip_blanks_blanks.
  rewrite skip_blanks_spaced by done. by rewrite IH.
Qed.

Lemma tokens_quoted (q rest : string) :
  has_char "'" q = false ->
  tokens (String "'" (q +:+ String "'" rest)) = q :: tokens (skip_blanks rest).
Proof.
  intros Hq. rewrite tokens_step. unfold next_arg.
  change (Ascii.eqb "'" "'") with true. cbv iota. by rewrite strchr_app.
Qed.

Lemma tokens_unterminated (q : string) :
  has_char "'" q = false -> tokens (String "'" q) = [].
Proof.
  intros Hq. rewrite tokens_step. unfold next_arg.
  change (Ascii.eqb "'" "'") with true. cbv iota. by rewrite strchr_none.
Qed.

Lemma tokens_blanks (n : nat) : tokens (skip_blanks (blanks n)) = [].
Proof.
  replace (blanks n) with (blanks n +:+ "") by apply append_empty_r.
  by rewrite skip_blanks_blanks.
Qed.

Lemma parseline_nonempty (cmdline : string) :
  cmdline ≠ "" ->
  parseline cmdline
  = let argv := tokens (skip_blanks (blank_last cmdline)) in
    if (MAXARGS <=? length argv)%nat then None
    else match last argv with
         | None => Some (1, [])
         | Some a =>
             if starts_with "&" a then Some (1, removelast argv)
             else Some (0, argv)
         end.
Proof. by destruct cmdline. Qed.

Lemma append_nonempty (x : string) (c : ascii) : x +:+ String c "" ≠ "".
Proof. by destruct x. Qed.

Lemma blank_last_snoc (x : string) (c : ascii) :
  blank_last (x +:+ String c "") = x +:+ " ".
Proof. by rewrite blank_last_app. Qed.

(** X15. The last character of the line is overwritten whatever it is:
    a line that does not end in a newline loses its last character. *)
Theorem parseline_last_char (line : string) (c1 c2 : ascii) :
  parseline (line +:+ String c1 "") = parseline (line +:+ String c2 "").
Proof.
  rewrite !parseline_nonempty by apply append_nonempty.
  by rewrite !blank_last_snoc.
Qed.

Lemma parseline_buffer (k : nat) (body : string) (c : ascii) :
  parseline (blanks k +:+ body +:+ String c "")
  = let argv := tokens (skip_blanks (body +:+ " ")) in
    if (MAXARGS <=? length argv)%nat then None
    else match last argv with
         | None => Some (1, [])
         | Some a =>
             if starts_with "&" a then Some (1, removelast argv)
             else Some (0, argv)
         end.
Proof.
  rewrite <- append_assoc.
  rewrite parseline_nonempty by apply append_nonempty.
  by rewrite blank_last_snoc, append_assoc, skip_blanks_blanks.
Qed.

Lemma parseline_argv (argv : list string) (a : string) :
  (if (MAXARGS <=? length (argv ++ [a]))%nat then None
   else match last (argv ++ [a]) with
        | None => Some (1, [])
        | Some a' =>
            if starts_with "&" a' then Some (1, removelast (argv ++ [a]))
            else Some (0, argv ++ [a])
        end)
  = if (MAXARGS <=? S (length argv))%nat then None
    else Some (if starts_with "&" a then (1, argv) else (0, argv ++ [a])).
Proof.
  rewrite length_app, last_snoc, removelast_last. cbn [length].
  replace (length argv + 1)%nat with (S (length argv)) by lia.
  destruct (MAXARGS <=? _)%nat; [done|]. by destruct (starts_with "&" a).
Qed.

(** X16. Words typed without quotes, with any number of spaces before,
    between and after them, come back as the argument vector. The line
    is a background one exactly when its last word starts with an
    ampersand, and that whole word is then dropped; [sleep 5&] is a
    foreground line with the argument [5&]. With [MAXARGS] words or
    more the vector is written past its end. *)
Theorem parseline_words
    (k m : nat) (ws : list (string * nat)) (a : string) (c : ascii) :
  Forall (fun w => plain w.1 = true) ws -> plain a = true ->
  parseline (blanks k +:+ (spaced ws +:+ a +:+ blanks m) +:+ String c "")
  = if (MAXARGS <=? S (length ws))%nat then None
    else Some (if starts_with "&" a then (1, ws.*1) else (0, ws.*1 ++ [a])).
Proof.
  intros Hws Ha. rewrite parseline_buffer. cbv zeta.
  rewrite !append_assoc, blanks_snoc.
  assert (skip_blanks (a +:+ String " " (blanks m))
          = a +:+ String " " (blanks m)) as Hskip
      by by apply skip_blanks_plain.
  rewrite skip_blanks_spaced, tokens_spaced by done.
  rewrite tokens_word, tokens_blanks by done.
  rewrite parseline_argv. by rewrite length_fmap.
Qed.

(** X17. A line of spaces only gives no argument and the answer 1, and
    [eval] then returns without doing anything. *)
Theorem eval_blank_line
    (k : nat) (c : ascii) (fork_ret : Z) (strerror : string)
    (unblock : list delivery) (sleeps : list (list delivery)) (s : shell) :
  parseline (blanks k +:+ String c "") = Some (1, []) /\
  eval_line (blanks k +:+ String c "") fork_ret strerror unblock sleeps s
  = Some (Ret tt s).
Proof.
  assert (parseline (blanks k +:+ String c "") = Some (1, [])) as H.
  { pose proof (parseline_buffer k "" c) as Hb.
    change ("" +:+ String c "") with (String c "") in Hb. rewrite Hb.
    change ("" +:+ " ") with (blanks 1). by rewrite tokens_blanks. }
  split; [done|]. unfold eval_line. by rewrite H.
Qed.

(** X18. A last argument in single quotes is taken as typed, spaces
    included and the quotes removed; it still makes the line a
    background one, and is dropped, when it starts with an ampersand. *)
Theorem parseline_quoted
    (k m : nat) (ws : list (string * nat)) (q : string) (c : ascii) :
  Forall (fun w => plain w.1 = true) ws -> has_char "'" q = false ->
  parseline
    (blanks k +:+ (spaced ws +:+ String "'" (q +:+ String "'" (blanks m)))
       +:+ String c "")
  = if (MAXARGS <=? S (length ws))%nat then None
    else Some (if starts_with "&" q then (1, ws.*1) else (0, ws.*1 ++ [q])).
Proof.
  intros Hws Hq. rewrite parseline_buffer. cbv zeta.
  rewrite append_assoc, !append_cons, append_assoc, append_cons, blanks_snoc.
  rewrite skip_blanks_spaced, tokens_spaced by done.
  rewrite tokens_quoted by done.
  change (String " " (blanks m)) with (blanks (S m)).
  rewrite tokens_blanks, parseline_argv. by rewrite length_fmap.
Qed.

(** X19. A quote that is not closed ends the arguments without a
    diagnostic: the words before it are the vector, and the quote and
    all that follows it are dropped. *)
Theorem parseline_unterminated_quote
    (k : nat) (ws : list (string * nat)) (a : string) (n : nat)
    (q : string) (c : ascii) :
  Forall (fun w => plain w.1 = true) ws -> plain a = true ->
  has_char "'" q = false ->
  parseline
    (blanks k +:+ (spaced (ws ++ [(a, n)]) +:+ String "'" q) +:+ String c "")
  = if (MAXARGS <=? S (length ws))%nat then None
    else Some (if starts_with "&" a then (1, ws.*1) else (0, ws.*1 ++ [a])).
Proof.
  intros Hws Ha Hq. rewrite parseline_buffer. cbv zeta.
  rewrite append_assoc, append_cons.
  assert (Forall (fun w : string * nat => plain w.1 = true) (ws ++ [(a, n)]))
    as Hall by (apply Forall_app; split; [done|by repeat constructor]).
  rewrite skip_blanks_spaced, tokens_spaced by done.
  rewrite tokens_unterminated.
  - rewrite app_nil_r, fmap_app. cbn [fmap list_fmap fst].
    rewrite parseline_argv. by rewrite length_fmap.
  - clear -Hq. induction q as [|x q IH]; [done|].
    rewrite append_cons. cbn [has_char] in *.
    apply orb_false_elim in Hq as [-> Hq]. by rewrite IH.
Qed.

(** * do_redirect and the child *)

Section do_redirect.
Variable sys : syscalls.

Lemma do_redirect_loop_take (fuel i : nat) (argv : list (option string)) :
  take i (do_redirect_loop sys fuel i argv).1 = take i argv.
Proof.
  revert i argv. induction fuel as [|fuel IH]; intros i argv; [done|].
  assert (forall argv0,
             take i (do_redirect_loop sys fuel (S i) argv0).1 = take i argv0)
    as IH'.
  { intros argv0. pose proof (IH (S i) argv0) as H.
    apply (f_equal (take i)) in H. rewrite !take_take in H.
    by replace (i `min` S i)%nat with i in H by lia. }
  assert (forall ev cut,
             take i
               (if cut : bool
                then
                  let (argv', ev') :=
                    do_redirect_loop sys fuel (S i) (<[i := None]> argv) in
                  (argv', ev ++ ev')
                else (argv, ev)).1
             = take i argv) as Hcut.
  { intros ev [|]; [|done].
    pose proof (IH' (<[i := None]> argv)) as H.
    destruct (do_redirect_loop sys fuel (S i) (<[i := None]> argv)).
    cbn [fst] in *. rewrite H. by apply take_insert_ge. }
  cbn [do_redirect_loop]. destruct (argv !! i) as [[a|]|]; try done.
  destruct (String.eqb a "<").
  { destruct (redirect_to _ _ _ _ _). apply Hcut. }
  destruct (String.eqb a ">").
  { destruct (redirect_to _ _ _ _ _). apply Hcut. }
  apply IH'.
Qed.

Lemma operator_false (w : string) :
  operator w = false -> String.eqb w "<" = false /\ String.eqb w ">" = false.
Proof. by intros ?%orb_false_elim. Qed.

Lemma do_redirect_loop_skip
    (pre : list string) (A R : list (option string)) (f : nat) :
  Forall (fun w => operator w = false) pre ->
  do_redirect_loop sys (length pre + f) (length A)
    (A ++ (Some <$> pre) ++ R)
  = do_redirect_loop sys f (length A + length pre)
      (A ++ (Some <$> pre) ++ R).
Proof.
  intros Hpre. revert A. induction Hpre as [|w pre Hw Hpre IH]; intros A.
  { cbn [length]. by rewrite Nat.add_0_r. }
  cbn [length Nat.add do_redirect_loop]. rewrite fmap_cons.
  cbn [app]. rewrite list_lookup_middle by done.
  destruct (operator_false w Hw) as [-> ->].
  pose proof (IH (A ++ [Some w])) as H.
  rewrite length_app, <- !(assoc_L (++)) in H. cbn [length app] in H.
  replace (length A + 1)%nat with (S (length A)) in H by lia.
  rewrite H. f_equal. lia.
Qed.

Lemma exec_args_cut (pre : list string) (R : list (option string)) :
  exec_args ((Some <$> pre) ++ None :: R) = pre.
Proof. induction pre as [|w pre IH]; [done|]. rewrite fmap_cons. cbn. by rewrite IH. Qed.

Lemma exec_args_all (argv : list string) : exec_args (Some <$> argv) = argv.
Proof. induction argv as [|w argv IH]; [done|]. rewrite fmap_cons. cbn. by rewrite IH. Qed.

Lemma do_redirect_plain (argv : list string) :
  Forall (fun w => operator w = false) argv ->
  do_redirect sys (Some <$> argv) = (Some <$> argv, []).
Proof.
  intros Hargv. unfold do_redirect. rewrite length_fmap.
  pose proof (do_redirect_loop_skip argv [] [] 0 Hargv) as H.
  rewrite app_nil_r, Nat.add_0_r in H. cbn [app length] in H. by rewrite H.
Qed.

Lemma do_redirect_at_operator (pre : list string) (op : string)
    (post : list string) :
  Forall (fun w => operator w = false) pre -> operator op = true ->
  do_redirect sys (Some <$> (pre ++ op :: post))
  = let arr := Some <$> (pre ++ op :: post) in
    let (ev, cut) := redirect_of sys op (head post) in
    if cut then
      let (argv', ev') :=
        do_redirect_loop sys (length post) (S (length pre))
          (<[length pre := None]> arr) in
      (argv', ev ++ ev')
    else (arr, ev).
Proof.
  intros Hpre Hop. unfold do_redirect. rewrite length_fmap, length_app.
  rewrite fmap_app, fmap_cons. cbn [length].
  pose proof (do_redirect_loop_skip pre [] (Some op :: (Some <$> post))
                (length (op :: post)) Hpre) as H.
  cbn [app length Nat.add] in H. rewrite H. clear H.
  assert (((Some <$> pre) ++ Some op :: (Some <$> post)) !! length pre
          = Some (Some op)) as Hop'.
  { rewrite <- (length_fmap Some pre). by apply list_lookup_middle. }
  assert (default None
            (((Some <$> pre) ++ Some op :: (Some <$> post)) !! S (length pre))
          = head post) as Hpath.
  { rewrite lookup_app_r by (rewrite length_fmap; lia).
    rewrite length_fmap.
    replace (S (length pre) - length pre)%nat with 1%nat by lia.
    by destruct post. }
  cbn [do_redirect_loop]. rewrite Hop', Hpath.
  unfold redirect_of.
  destruct (String.eqb op "<") eqn:E; [done|].
  unfold operator in Hop. rewrite E in Hop. cbn [orb] in Hop. by rewrite Hop.
Qed.

(** X20. Without a redirection operator among the words the child opens
    nothing and hands every word to [execve]; if that fails it prints
    the message and exits with status 0, so it never returns into the
    shell's code. *)
Theorem child_without_redirection (cmd : string) (args : list string) :
  Forall (fun w => operator w = false) (cmd :: args) ->
  child sys (cmd :: args)
  = [Setpgid 0 0; Unblock;
     Execve (Some cmd) (cmd :: args) (sys_execve sys cmd (cmd :: args))]
      ++ (if sys_execve sys cmd (cmd :: args) then []
          else [Say (cmd +:+ ": Command not found." +:+ LF); Leave 0]).
Proof.
  intros Hargv. unfold child. rewrite do_redirect_plain by done.
  rewrite exec_args_all. done.
Qed.

(** X21. At the first operator of the vector: if the file cannot be
    opened (also when no file name follows) or closed, [do_redirect]
    returns at once and the vector stays whole, so the operator and
    what follows are arguments of the command; otherwise the vector is
    cut there and the command gets the words before the operator,
    whatever else the rest of the loop does. *)
Theorem do_redirect_first_operator
    (pre : list string) (op : string) (post : list string) :
  Forall (fun w => operator w = false) pre -> operator op = true ->
  let out := do_redirect sys (Some <$> (pre ++ op :: post)) in
  let r := redirect_of sys op (head post) in
  (r.2 = false -> out = (Some <$> (pre ++ op :: post), r.1)) /\
  (r.2 = true -> exec_args out.1 = pre /\ r.1 `prefix_of` out.2).
Proof.
  intros Hpre Hop out r. subst out r.
  rewrite do_redirect_at_operator by done. cbv zeta.
  destruct (redirect_of sys op (head post)) as [ev cut]. cbn [fst snd].
  split; intros ->; [done|].
  pose proof (do_redirect_loop_take (length post) (S (length pre))
                (<[length pre := None]> (Some <$> (pre ++ op :: post))))
    as Htake.
  destruct (do_redirect_loop _ _ _ _) as [argv' ev']. cbn [fst snd] in *.
  split; [|by eexists].
  rewrite <- (take_drop (S (length pre)) argv'), Htake.
  rewrite fmap_app, fmap_cons.
  rewrite <- (length_fmap Some pre).
  rewrite insert_app_r_alt by lia. rewrite Nat.sub_diag. cbn [insert list_insert].
  rewrite (cons_middle None), (assoc_L (++)).
  replace (S (length (Some <$> pre)))
    with (length ((Some <$> pre) ++ [None])) at 1
    by (rewrite length_app; cbn [length]; lia).
  rewrite take_app_length, <- (assoc_L (++)). apply exec_args_cut.
Qed.

(** X22. An output redirection that succeeds, written out: the file is
    opened write-only, created if missing and not truncated, with mode
    rw-rw-rw-, and put on standard output; the command runs with the
    words before the operator, and the words after the file name are
    dropped. When the file cannot be opened the command runs all the
    same, on the shell's standard output and with the operator and the
    file name as arguments. *)
Theorem child_output_redirection
    (cmd : string) (args : list string) (file : string) (rest : list string) :
  Forall (fun w => operator w = false) (cmd :: args) ->
  Forall (fun w => operator w = false) (file :: rest) ->
  let argv := cmd :: args ++ ">" :: file :: rest in
  let fd := sys_open sys file 65 in
  (0 <= fd -> 0 <= sys_close sys fd ->
   child sys argv
   = [Open (Some file) 65 438 fd; Dup2 fd 1; Close fd (sys_close sys fd);
      Setpgid 0 0; Unblock;
      Execve (Some cmd) (cmd :: args) (sys_execve sys cmd (cmd :: args))]
       ++ (if sys_execve sys cmd (cmd :: args) then []
           else [Say (cmd +:+ ": Command not found." +:+ LF); Leave 0])) /\
  (fd < 0 ->
   child sys argv
   = [Open (Some file) 65 438 fd; Perror "open";
      Setpgid 0 0; Unblock;
      Execve (Some cmd) argv (sys_execve sys cmd argv)]
       ++ (if sys_execve sys cmd argv then []
           else [Say (cmd +:+ ": Command not found." +:+ LF); Leave 0])).
Proof.
  intros Hpre Hpost argv fd. subst argv fd.
  pose proof (do_redirect_at_operator (cmd :: args) ">" (file :: rest)
                Hpre eq_refl) as Hdo.
  cbv zeta in Hdo. unfold redirect_of, redirect_to, open_call in Hdo.
  change (String.eqb ">" "<") with false in Hdo.
  change (Z.lor O_WRONLY O_CREAT) with 65 in Hdo.
  change MODE_RW_ALL with 438 in Hdo. change STDOUT_FILENO with 1 in Hdo.
  cbn [head] in Hdo.
  change ((cmd :: args) ++ ">" :: file :: rest)
    with (cmd :: args ++ ">" :: file :: rest) in Hdo.
  split.
  - intros Hfd Hclose. unfold child. rewrite Hdo.
    destruct (Z.ltb_spec (sys_open sys file 65) 0) as [|_]; [lia|].
    destruct (Z.ltb_spec (sys_close sys (sys_open sys file 65)) 0) as [|_];
      [lia|].
    pose proof (do_redirect_loop_skip (file :: rest)
                  ((Some <$> (cmd :: args)) ++ [None]) [] 0 Hpost) as Hskip.
    rewrite length_app, length_fmap in Hskip. cbn [length] in Hskip.
    rewrite !Nat.add_0_r, app_nil_r in Hskip.
    assert (<[length (cmd :: args) := None]>
              (Some <$> cmd :: args ++ ">" :: file :: rest)
            = ((Some <$> cmd :: args) ++ [None]) ++ (Some <$> file :: rest))
      as ->.
    { change (cmd :: args ++ ">" :: file :: rest)
        with ((cmd :: args) ++ ">" :: file :: rest).
      rewrite fmap_app, (fmap_cons _ ">").
      rewrite <- (length_fmap Some (cmd :: args)).
      rewrite insert_app_r_alt by lia. rewrite Nat.sub_diag.
      cbn [insert list_insert]. by rewrite <- (assoc_L (++)). }
    cbn [length] in *.
    replace (S (length args) + 1)%nat with (S (S (length args))) in Hskip by lia.
    rewrite Hskip. cbn [do_redirect_loop].
    rewrite <- (assoc_L (++) _ [None]). cbn [app].
    change (Some <$> cmd :: args) with (Some cmd :: (Some <$> args)).
    cbn [app lookup list_lookup default exec_args].
    by rewrite exec_args_cut.
  - intros Hfd. unfold child. rewrite Hdo.
    destruct (Z.ltb_spec (sys_open sys file 65) 0) as [_|]; [|lia].
    rewrite exec_args_all. done.
Qed.
End do_redirect.

(** * eval on lines that fork *)

Lemma builtin_cmd_other (cmd : string) (args : list string)
    (sched : list (list delivery)) (s : shell) :
  builtin_name cmd = false -> builtin_cmd cmd args sched s = Ret 0 s.
Proof.
  unfold builtin_name, builtin_cmd.
  intros [[[-> ->]%orb_false_elim ->]%orb_false_elim ->]%orb_false_elim.
  done.
Qed.

Lemma eval_forks (c : command) (cmd : string) (args : list string) (s : shell) :
  c_argv c = cmd :: args -> builtin_name cmd = false -> 1 <= c_fork c ->
  eval c s
  = (let* _ :=
       (if c_bg c =? 0 then
          let* _ := lift (addjob (c_fork c) FG (c_line c)) in ret tt
        else
          let* _ := lift (addjob (c_fork c) BG (c_line c)) in
          fun s1 =>
            printf ("[" +:+ fmt_d (pid2jid (jobs s1) (c_fork c)) +:+ "] ("
                      +:+ fmt_d (c_fork c) +:+ ") " +:+ c_line c) s1) in
     let* _ := deliver (c_unblock c) in
     if c_bg c =? 0 then waitfg (c_fork c) (c_sleeps c) else ret tt) s.
Proof.
  intros Hargv Hcmd Hp. unfold eval. rewrite Hargv.
  unfold bind at 1. rewrite builtin_cmd_other by done.
  change (0 =? 0) with true. cbv iota.
  destruct (Z.ltb_spec (c_fork c) 0); [lia|].
  destruct (Z.eqb_spec (c_fork c) 0); [lia|]. done.
Qed.

Lemma pid2jid_untracked (js : list job_t) (p : Z) :
  getjobpid js p = None -> pid2jid js p = 0.
Proof.
  unfold getjobpid, pid2jid. destruct (p <? 1); [done|].
  by destruct (list_find _ js) as [[]|].
Qed.

Lemma waitfg_untracked (p : Z) (sched : list (list delivery)) (s : shell) :
  getjobpid (jobs s) p = None -> waitfg p sched s = Ret tt s.
Proof. intros H. unfold waitfg. by rewrite H. Qed.

(** X23. When the table is full the child that was forked runs without a
    job: [addjob] prints its complaint and nothing is registered; a
    background line is still announced, as job 0, and a foreground line
    is not waited for, whatever signals arrive when they are
    unblocked. *)
Theorem eval_table_full
    (c : command) (cmd : string) (args : list string) (s : shell) :
  c_argv c = cmd :: args -> builtin_name cmd = false ->
  1 <= c_fork c -> getjobpid (jobs s) (c_fork c) = None ->
  Forall (fun j => pid j ≠ 0) (jobs s) ->
  let s1 := emit (Printf ("Tried to create too many jobs" +:+ LF)) s in
  eval c s
  = deliver (c_unblock c)
      (if c_bg c =? 0 then s1
       else emit (Printf ("[0] (" +:+ fmt_d (c_fork c) +:+ ") "
                            +:+ c_line c)) s1).
Proof.
  intros Hargv Hcmd Hp Hfresh Hfull s1. subst s1.
  rewrite (eval_forks c cmd args s Hargv Hcmd Hp).
  assert (forall st,
             addjob (c_fork c) st (c_line c) s
             = (0, emit (Printf ("Tried to create too many jobs" +:+ LF)) s))
    as Hadd.
  { intros st. unfold addjob. destruct (Z.ltb_spec (c_fork c) 1); [lia|].
    assert (list_find (fun j => pid j = 0) (jobs s) = None) as ->; [|done].
    by apply (list_find_None (fun j => pid j = 0)). }
  unfold bind at 1. destruct (c_bg c =? 0) eqn:Hbg.
  - unfold bind at 1, lift. rewrite Hadd. unfold ret at 1.
    unfold bind.
    pose proof (deliver_handled (c_unblock c)
                  (emit (Printf ("Tried to create too many jobs" +:+ LF)) s))
      as Hh.
    destruct (deliver _ _) as [[] s2|s2|s2|code s2|s2]; try done.
    cbn [final] in Hh. apply waitfg_untracked.
    eapply handled_untracked; [exact Hh|done].
  - unfold bind at 1, lift. rewrite Hadd. unfold printf, update.
    cbn [jobs emit]. rewrite (pid2jid_untracked _ _ Hfresh).
    change (fmt_d 0) with "0".
    unfold bind. by destruct (deliver _ _) as [[] s2|s2|s2|code s2|s2].
Qed.

Lemma addjob_registers (s : shell) (p st : Z) (c : string) :
  1 <= p -> getjobpid (jobs s) p = None ->
  (exists j : job_t, j ∈ jobs s /\ pid j = 0) ->
  exists (i : nat) (j0 : job_t),
    jobs s !! i = Some j0 /\ pid j0 = 0 /\
    fst (addjob p st c s) = 1 /\
    jobs (snd (addjob p st c s)) = <[i := Job p (nextjid s) st c]> (jobs s) /\
    list_find (fun j => pid j = p) (jobs (snd (addjob p st c s)))
    = Some (i, Job p (nextjid s) st c).
Proof.
  intros Hp Hfresh (j & Hj & Hfree).
  destruct (list_find_elem_of (fun j => pid j = 0) (jobs s) j Hj Hfree)
    as [[i j0] Hf].
  destruct (addjob_Some s p st c i j0 Hp Hf) as (E1 & E2 & _).
  apply list_find_Some in Hf as (Hi & Hfree0 & _).
  exists i, j0. split_and!; try done. rewrite E2.
  apply getjobpid_None in Hfresh as [?|Hfresh]; [lia|].
  apply (list_find_insert_fresh (fun j => pid j = p)); try done.
  by eapply lookup_lt_Some.
Qed.

(** X24. A background line with a free slot and a pid no job has:
    the job is registered in state BG, the announcement shows the ID
    the counter held and the pid, and the shell does not wait, however
    long the job runs. *)
Theorem eval_background_launch
    (c : command) (cmd : string) (args : list string) (s : shell) :
  c_argv c = cmd :: args -> builtin_name cmd = false ->
  1 <= c_fork c -> getjobpid (jobs s) (c_fork c) = None ->
  (exists j : job_t, j ∈ jobs s /\ pid j = 0) ->
  c_bg c ≠ 0 ->
  eval c s
  = deliver (c_unblock c)
      (emit (Printf ("[" +:+ fmt_d (nextjid s) +:+ "] ("
                       +:+ fmt_d (c_fork c) +:+ ") " +:+ c_line c))
         (snd (addjob (c_fork c) BG (c_line c) s))).
Proof.
  intros Hargv Hcmd Hp Hfresh Hfree Hbg.
  rewrite (eval_forks c cmd args s Hargv Hcmd Hp).
  destruct (Z.eqb_spec (c_bg c) 0) as [|_]; [done|].
  destruct (addjob_registers s (c_fork c) BG (c_line c) Hp Hfresh Hfree)
    as (i & j0 & _ & _ & _ & _ & Hfind).
  unfold bind at 1. unfold bind at 1, lift.
  destruct (addjob (c_fork c) BG (c_line c) s) as [r s1] eqn:E.
  cbn [snd] in *. unfold printf, update.
  assert (pid2jid (jobs s1) (c_fork c) = nextjid s) as ->.
  { unfold pid2jid. destruct (Z.ltb_spec (c_fork c) 1); [lia|].
    by rewrite Hfind. }
  unfold bind. by destruct (deliver _ _) as [[] s2|s2|s2|code s2|s2].
Qed.

Lemma waitfg_poll_quiet (i n : nat) (rest : list (list delivery)) (s : shell) :
  state (jobs s !!! i) = FG ->
  waitfg_poll i (replicate n [] ++ rest) s
  = waitfg_poll i rest
      (Shell (jobs s) (nextjid s) (verbose s)
         (trace s ++ replicate n (Sleep 1))).
Proof.
  intros Hfg. revert s Hfg. induction n as [|n IH]; intros s Hfg.
  { cbn [replicate app]. rewrite app_nil_r. by destruct s. }
  cbn [replicate app waitfg_poll]. rewrite Hfg.
  change (FG =? FG) with true. cbv iota.
  unfold bind, deliver, ret. rewrite IH by done.
  cbn [emit jobs nextjid verbose trace].
  by rewrite <- (assoc_L (++)).
Qed.

Lemma waitfg_poll_done (i : nat) (sched : list (list delivery)) (s : shell) :
  (state (jobs s !!! i) =? FG) = false -> waitfg_poll i sched s = Ret tt s.
Proof. intros H. destruct sched; cbn [waitfg_poll]; by rewrite H. Qed.

(** X25. A foreground line whose child exits: the job is registered in
    state FG, the shell sleeps a second at a time while no signal
    arrives, and returns after the sleep in which the child is reaped,
    with the slots the table had before the line and with the counter
    one above the largest job ID. *)
Theorem eval_foreground_reaped
    (c : command) (cmd : string) (args : list string) (s : shell)
    (n : nat) (status : Z) (more : list (list delivery)) :
  c_argv c = cmd :: args -> builtin_name cmd = false ->
  1 <= c_fork c -> getjobpid (jobs s) (c_fork c) = None ->
  (exists j : job_t, j ∈ jobs s /\ pid j = 0) ->
  Forall (fun j => pid j = 0 -> j = Job 0 0 UNDEF "") (jobs s) ->
  c_bg c = 0 -> c_unblock c = [] ->
  c_sleeps c = replicate n [] ++ [Sigchld [(c_fork c, status)]] :: more ->
  WIFEXITED status = true ->
  exists s' : shell,
    eval c s = Ret tt s' /\
    jobs s' = jobs s /\
    nextjid s' = maxjid (jobs s) + 1 /\
    trace s'
    = trace (snd (addjob (c_fork c) FG (c_line c) s))
        ++ replicate (S n) (Sleep 1)
        ++ [Waitpid (-1) (Z.lor WUNTRACED WNOHANG) (c_fork c);
            Waitpid (-1) (Z.lor WUNTRACED WNOHANG) 0].
Proof.
  intros Hargv Hcmd Hp Hfresh Hfree Hclean Hbg Hunblock Hsleeps Hexit.
  rewrite (eval_forks c cmd args s Hargv Hcmd Hp).
  rewrite Hbg, Hunblock, Hsleeps. change (0 =? 0) with true. cbv iota.
  destruct (addjob_registers s (c_fork c) FG (c_line c) Hp Hfresh Hfree)
    as (i & j0 & Hi & Hj0 & _ & Hjobs & Hfind).
  pose proof (Forall_lookup_1 _ _ _ _ Hclean Hi Hj0) as ->.
  unfold bind at 1. unfold bind at 1, lift.
  destruct (addjob (c_fork c) FG (c_line c) s) as [r s1] eqn:E.
  cbn [snd] in *. unfold ret at 1. unfold bind at 1. cbn [deliver]. unfold ret at 1.
  assert (getjobpid (jobs s1) (c_fork c) = Some i) as Hget.
  { unfold getjobpid. destruct (Z.ltb_spec (c_fork c) 1); [lia|].
    by rewrite Hfind. }
  assert (i < length (jobs s))%nat as Hlt by (by eapply lookup_lt_Some).
  assert (jobs s1 !!! i = Job (c_fork c) (nextjid s) FG (c_line c)) as Hslot.
  { rewrite Hjobs. by apply list_lookup_total_insert_eq. }
  unfold waitfg. rewrite Hget.
  rewrite waitfg_poll_quiet by by rewrite Hslot.
  set (s2 := Shell (jobs s1) (nextjid s1) (verbose s1)
               (trace s1 ++ replicate n (Sleep 1))).
  cbn [waitfg_poll]. change (jobs s2) with (jobs s1). rewrite Hslot.
  change (state (Job (c_fork c) (nextjid s) FG (c_line c)) =? FG) with true.
  cbv iota. unfold bind at 1. cbn [deliver]. unfold bind at 1.
  cbn [handle sigchld_handler]. destruct (Z.ltb_spec 0 (c_fork c)); [|lia].
  unfold bind at 1. unfold reap. rewrite Hexit.
  set (s3 := emit (Waitpid (-1) (Z.lor WUNTRACED WNOHANG) (c_fork c))
               (emit (Sleep 1) s2)).
  assert (getjobpid (jobs s3) (c_fork c) = Some i) as Hget3 by exact Hget.
  rewrite (deletejob_tracked s3 _ i Hget3).
  change (jobs s3) with (jobs s1). rewrite Hjobs.
  rewrite list_insert_insert_eq, (list_insert_id _ _ _ Hi).
  unfold ret.
  eexists. split.
  - apply waitfg_poll_done. cbn [emit set_nextjid set_jobs jobs].
    by rewrite (list_lookup_total_correct _ _ _ Hi).
  - cbn [emit set_nextjid set_jobs jobs nextjid trace]. split; [done|].
    split; [done|]. subst s3 s2. cbn [emit trace].
    rewrite <- !(assoc_L (++)). do 1 f_equal.
    rewrite replicate_S_end. by rewrite <- !(assoc_L (++)).
Qed.

(** X26. When [fork] fails the shell prints the error and exits with
    status 1 ([unix_error] does not return): no job is registered and
    the lines that follow are never read. *)
Theorem tsh_fork_failure
    (before : list delivery) (c : command) (cmd : string) (args : list string)
    (rest : list (list delivery * command)) (s s1 : shell) :
  deliver before s = Ret tt s1 ->
  c_argv c = cmd :: args -> builtin_name cmd = false -> c_fork c < 0 ->
  tsh ((before, c) :: rest) s
  = Exit 1 (emit (Printf ("Fork error: " +:+ c_strerror c +:+ LF)) s1).
Proof.
  intros Hbefore Hargv Hcmd Hfork. cbn [tsh].
  unfold bind at 1. rewrite Hbefore. unfold bind at 1.
  unfold eval. rewrite Hargv. unfold bind at 1.
  rewrite builtin_cmd_other by done. change (0 =? 0) with true. cbv iota.
  destruct (Z.ltb_spec (c_fork c) 0); [|lia]. done.
Qed.

(** X27. A built-in line is run by the shell itself: what [fork] would
    return, the background flag, the text of the line and the signals
    pending at the unblock have no influence on it, so [jobs &] is
    [jobs]. *)
Theorem eval_builtin_no_fork
    (c c' : command) (cmd : string) (args : list string) (s : shell) :
  builtin_name cmd = true ->
  c_argv c = cmd :: args -> c_argv c' = cmd :: args ->
  c_sleeps c = c_sleeps c' ->
  eval c s = eval c' s.
Proof.
  intros Hcmd Hargv Hargv' Hsleeps. unfold eval.
  rewrite Hargv, Hargv', Hsleeps. unfold bind at 1 3. unfold builtin_cmd.
  unfold builtin_name in Hcmd.
  destruct (String.eqb cmd "quit"); [done|].
  destruct (String.eqb cmd "jobs"); [done|].
  destruct (String.eqb cmd "bg" || String.eqb cmd "fg") eqn:E.
  - unfold bind. by destruct (do_bgfg cmd args (c_sleeps c') s).
  - apply orb_false_elim in E as [E1 E2].
    rewrite E1, E2 in Hcmd. discriminate.
Qed.

(** X28. [addjob] gives the new job the counter's value without looking
    at the table: when a live job already has that ID, as after the
    counter wrapped to 1, the registration succeeds and two live jobs
    share the ID. *)
Theorem addjob_reuses_live_jid (s : shell) (p st : Z) (c : string) :
  1 <= p ->
  nextjid s ∈ live_jids (jobs s) ->
  (exists j : job_t, j ∈ jobs s /\ pid j = 0) ->
  fst (addjob p st c s) = 1 /\
  ~ NoDup (live_jids (jobs (snd (addjob p st c s)))).
Proof.
  intros Hp Hlive (j & Hj & Hfree).
  destruct (list_find_elem_of (fun j => pid j = 0) (jobs s) j Hj Hfree)
    as [[i j0] Hf].
  destruct (addjob_Some s p st c i j0 Hp Hf) as (E1 & E2 & _).
  split; [done|]. rewrite E2.
  apply list_find_Some in Hf as (Hi & Hfree0 & _).
  rewrite (live_jids_insert _ _ _ _ Hi), live_jids_live by (simpl; lia).
  rewrite (live_jids_split _ _ _ Hi), live_jids_free in Hlive by done.
  cbn [jid app] in *.
  intros (_ & Hdisj & [Hnot _]%NoDup_cons)%NoDup_app.
  apply elem_of_app in Hlive as [Hin|Hin]; [|done].
  apply (Hdisj _ Hin). by left.
Qed.

(** * The properties at work on the sample tables and sessions *)

Lemma at_most_one_fg_witness :
  fg_disciplined foreground_ops (tsh_start 0) = true /\
  (fg_count (jobs (run_ops (take 3 foreground_ops) (tsh_start 0))) <= 1)%nat.
Proof.
  split; [reflexivity|].
  apply (at_most_one_fg 0 foreground_ops 3). reflexivity.
Defined.

Lemma jid_policy_before_wrap_witness :
  add_delete_only compaction_ops = true /\
  forallb (fun a => negb (a_wrapped a)) (assignments compaction_ops (tsh_start 0))
  = true /\
  NoDup (live_jids (jobs (run_ops compaction_ops (tsh_start 0)))) /\
  nextjid (run_ops compaction_ops (tsh_start 0))
  = max_live_jid (jobs (run_ops compaction_ops (tsh_start 0))) + 1.
Proof.
  split; [reflexivity|]. split; [reflexivity|].
  apply (jid_policy_before_wrap 0 compaction_ops); reflexivity.
Defined.

Lemma deletejob_nextjid_witness :
  Forall (fun j => pid j = 0 -> jid j = 0) (jobs sample_table) /\
  getjobpid (jobs sample_table) 102 = Some 1%nat /\
  nextjid (snd (deletejob 102 sample_table))
  = maxjid (jobs (snd (deletejob 102 sample_table))) + 1 /\
  maxjid (jobs (snd (deletejob 102 sample_table)))
  = max_live_jid (jobs (snd (deletejob 102 sample_table))).
Proof.
  assert (Forall (fun j => pid j = 0 -> jid j = 0) (jobs sample_table)) as H.
  { apply (bool_decide_unpack _). vm_compute. exact I. }
  split; [exact H|]. split; [reflexivity|].
  apply (deletejob_nextjid sample_table 102 1 H). reflexivity.
Defined.

Lemma addjob_result_witness :
  length (jobs sample_table) = MAXJOBS /\
  (fst (addjob 0 BG "ls" sample_table) = 0 ->
   jobs (snd (addjob 0 BG "ls" sample_table)) = jobs sample_table /\
   nextjid (snd (addjob 0 BG "ls" sample_table)) = nextjid sample_table).
Proof.
  split; [reflexivity|].
  apply (addjob_result sample_table 0 BG "ls"). reflexivity.
Defined.

Lemma sigchld_handler_reaps_witness :
  getjobpid (jobs sample_table) 102 = Some 1%nat /\
  WIFEXITED 0 = true /\ WIFSIGNALED 2 = true /\ WIFSTOPPED 5247 = true /\
  trace (final (sigchld_handler [(102, 0)] sample_table))
  = [Waitpid (-1) 3 102; Waitpid (-1) 3 0] /\
  trace (final (sigchld_handler [(102, 2)] sample_table))
  = [Waitpid (-1) 3 102;
     Printf ("Job [2] (102) terminated by signal 2" +:+ LF);
     Waitpid (-1) 3 0] /\
  trace (final (sigchld_handler [(102, 5247)] sample_table))
  = [Waitpid (-1) 3 102;
     Printf ("Job [2] (102) stopped by signal 20" +:+ LF);
     Waitpid (-1) 3 0].
Proof.
  split; [reflexivity|]. do 3 (split; [reflexivity|]).
  pose proof (sigchld_handler_reaps sample_table 102 0 [] 1 eq_refl)
    as (H0 & _ & _).
  pose proof (sigchld_handler_reaps sample_table 102 2 [] 1 eq_refl)
    as (_ & H2 & _).
  pose proof (sigchld_handler_reaps sample_table 102 5247 [] 1 eq_refl)
    as (_ & _ & H3).
  rewrite (H0 eq_refl), (H2 eq_refl), (H3 eq_refl).
  split_and!; reflexivity.
Defined.

Lemma forwarders_spec_witness :
  table_ok sample_table = true /\
  table_ok sample_background = true /\
  handle Sigint sample_background = Ret tt sample_background /\
  handle Sigint sample_table = Ret tt (emit (Kill (-102) SIGINT) sample_table) /\
  handle Sigtstp sample_table = Ret tt (emit (Kill (-102) SIGTSTP) sample_table).
Proof.
  split; [reflexivity|]. split; [reflexivity|].
  pose proof (forwarders_spec sample_background eq_refl) as (Hnone & _).
  pose proof (forwarders_spec sample_table eq_refl) as (_ & Hfg & _).
  split; [apply Hnone; reflexivity|].
  apply (Hfg 1%nat (Job 102 2 FG ("sleep 5" +:+ LF))); [reflexivity..|].
  intros [|k] j' Hk Hj'; [|lia]. injection Hj' as <-. discriminate.
Defined.

Lemma waitfg_spec_witness :
  NoDup (live_pids (jobs sample_table)) /\
  waitfg 102 [[Sigint]; [Sigchld [(102, 2)]]; []] sample_table
  = sleeps [[Sigint]; [Sigchld [(102, 2)]]] sample_table /\
  waitfg 117 [] sample_table = Ret tt sample_table.
Proof.
  assert (NoDup (live_pids (jobs sample_table))) as Hnd.
  { apply (bool_decide_unpack _). vm_compute. exact I. }
  split; [exact Hnd|]. split.
  - pose proof (waitfg_spec sample_table 102
                  [[Sigint]; [Sigchld [(102, 2)]]; []] Hnd) as (Hret & _).
    change (sleeps [[Sigint]; [Sigchld [(102, 2)]]] sample_table)
      with (Ret tt (final (sleeps [[Sigint]; [Sigchld [(102, 2)]]] sample_table))).
    apply Hret. exists 2%nat. split_and!.
    + simpl. lia.
    + reflexivity.
    + reflexivity.
    + intros [|[|k']] Hlt; [| |lia]; eexists; (split; [reflexivity|]);
        reflexivity.
  - apply (waitfg_spec sample_table 117 [] Hnd). reflexivity.
Defined.

Lemma do_bgfg_no_target_witness :
  getjobjid (jobs sample_table) (atoi "7") = None /\
  getjobpid (jobs sample_table) (atoi "999") = None /\
  do_bgfg "fg" [] [] sample_table
  = Ret tt (emit (Printf ("fg command requires PID or %jobid argument" +:+ LF))
              sample_table) /\
  do_bgfg "bg" ["%7"] [] sample_table
  = Ret tt (emit (Printf ("%7: No such job" +:+ LF)) sample_table) /\
  do_bgfg "bg" ["999"] [] sample_table
  = Ret tt (emit (Printf ("(999): No such process" +:+ LF)) sample_table) /\
  do_bgfg "fg" ["job"] [] sample_table
  = Ret tt (emit (Printf ("fg: argument must be a PID or %jobid" +:+ LF))
              sample_table).
Proof.
  split; [reflexivity|]. split; [reflexivity|].
  pose proof (do_bgfg_no_target sample_table "fg" []) as (Hnone & _ & _ & Hbad).
  pose proof (do_bgfg_no_target sample_table "bg" []) as (_ & Hjob & Hpid & _).
  split_and!.
  - exact Hnone.
  - apply (Hjob "7" []). reflexivity.
  - apply (Hpid "9"%char "99" []); reflexivity.
  - apply (Hbad "job" []). intros c r [= <- <-]. split; [discriminate|reflexivity].
Defined.

Lemma do_bgfg_resolved_witness :
  table_ok sample_table = true /\
  NoDup (live_pids (jobs sample_table)) /\
  getjobjid (jobs sample_table) (atoi "1") = Some 0%nat /\
  do_bgfg "bg" ["%1"] [] sample_table
  = Ret tt
      (emit (Kill (-100) SIGCONT)
         (emit (Printf ("[1] (100) sleep 100 &" +:+ LF))
            (set_jobs (<[0%nat := Job 100 1 BG ("sleep 100 &" +:+ LF)]>
                         (jobs sample_table)) sample_table))) /\
  do_bgfg "fg" ["%1"] [] sample_table
  = waitfg 100 []
      (emit (Kill (-100) SIGCONT)
         (set_jobs (<[0%nat := Job 100 1 FG ("sleep 100 &" +:+ LF)]>
                      (jobs sample_table)) sample_table)).
Proof.
  assert (NoDup (live_pids (jobs sample_table))) as Hnd.
  { apply (bool_decide_unpack _). vm_compute. exact I. }
  split; [reflexivity|]. split; [exact Hnd|]. split; [reflexivity|].
  apply (do_bgfg_resolved sample_table "%1" [] [] 0 eq_refl Hnd).
  left. exists "1". split; reflexivity.
Defined.


(** * Sample runs of the model *)

Example background_launch :
  tsh [bg_line 100] (tsh_start 0)
  = Ret tt
      (Shell (Job 100 1 BG ("sleep 100 &" +:+ LF)
                :: replicate 15 (Job 0 0 UNDEF ""))
             2 0 [Printf ("[1] (100) sleep 100 &" +:+ LF)]).
Proof. vm_compute. reflexivity. Qed.

Example foreground_interrupted :
  tsh interrupt_session (tsh_start 0)
  = Ret tt
      (Shell (replicate 16 (Job 0 0 UNDEF "")) 1 0
             [Sleep 1; Kill (-100) SIGINT; Sleep 1; Waitpid (-1) 3 100;
              Printf ("Job [1] (100) terminated by signal 2" +:+ LF);
              Waitpid (-1) 3 0]).
Proof. vm_compute. reflexivity. Qed.

Example job_control_trace :
  trace (final (tsh job_control_session (tsh_start 0)))
  = [Printf ("[1] (100) sleep 100 &" +:+ LF);
     Sleep 1; Kill (-102) SIGTSTP; Sleep 1; Waitpid (-1) 3 102;
     Printf ("Job [2] (102) stopped by signal 20" +:+ LF); Waitpid (-1) 3 0;
     Printf "[1] (100) "; Printf "Running "; Printf ("sleep 100 &" +:+ LF);
     Printf "[2] (102) "; Printf "Stopped "; Printf ("sleep 5" +:+ LF);
     Printf ("[2] (102) sleep 5" +:+ LF); Kill (-102) SIGCONT;
     Kill (-100) SIGCONT; Sleep 1; Sleep 1; Waitpid (-1) 3 100;
     Waitpid (-1) 3 0].
Proof. vm_compute. reflexivity. Qed.

(** * The further properties on the sample tables and lines *)

Lemma sample_background_clean :
  Forall (fun j => pid j = 0 -> j = Job 0 0 UNDEF "") (jobs sample_background).
Proof.
  unfold sample_background. cbn [jobs replicate].
  repeat (constructor; [intros H; first [reflexivity|cbn in H; discriminate H]|]).
  constructor.
Defined.

Lemma sample_background_free :
  exists j : job_t, j ∈ jobs sample_background /\ pid j = 0.
Proof.
  exists (Job 0 0 UNDEF ""). split; [|reflexivity].
  apply (list_elem_of_lookup_2 _ 1%nat). reflexivity.
Defined.

Lemma sample_table_pids : NoDup (live_pids (jobs sample_table)).
Proof. apply (bool_decide_unpack _). vm_compute. exact I. Defined.

Lemma sample_table_jids : NoDup (live_jids (jobs sample_table)).
Proof. apply (bool_decide_unpack _). vm_compute. exact I. Defined.


Lemma addjob_then_lookup_witness :
  getjobpid (jobs sample_background) 103 = None /\
  fst (addjob 103 BG "ls" sample_background) = 1 /\
  pid2jid (jobs (snd (addjob 103 BG "ls" sample_background))) 103 = 2.
Proof.
  split; [reflexivity|]. split; [reflexivity|].
  exact (proj1 (proj2 (addjob_then_lookup sample_background 103 BG "ls"
                         eq_refl eq_refl))).
Defined.

Lemma addjob_deletejob_roundtrip_witness :
  Forall (fun j => pid j = 0 -> j = Job 0 0 UNDEF "") (jobs sample_background) /\
  getjobpid (jobs sample_background) 103 = None /\
  jobs (snd (deletejob 103 (snd (addjob 103 FG "ls" sample_background))))
  = jobs sample_background.
Proof.
  split; [exact sample_background_clean|]. split; [reflexivity|].
  exact (proj1 (addjob_deletejob_roundtrip sample_background 103 FG "ls"
                  sample_background_clean eq_refl)).
Defined.

Lemma pid2jid_zero_iff_untracked_witness :
  table_ok sample_table = true /\
  (pid2jid (jobs sample_table) 117 = 0 <->
   getjobpid (jobs sample_table) 117 = None).
Proof.
  split; [reflexivity|].
  exact (proj1 (pid2jid_zero_iff_untracked sample_table 117 eq_refl)).
Defined.

Lemma getjobjid_of_pid2jid_witness :
  table_ok sample_table = true /\
  NoDup (live_jids (jobs sample_table)) /\
  getjobpid (jobs sample_table) 102 = Some 1%nat /\
  getjobjid (jobs sample_table) (pid2jid (jobs sample_table) 102) = Some 1%nat.
Proof.
  split; [reflexivity|]. split; [exact sample_table_jids|].
  split; [reflexivity|].
  exact (getjobjid_of_pid2jid sample_table 102 1 eq_refl sample_table_jids
           eq_refl).
Defined.

Lemma fgpid_foreground_job_witness :
  table_ok sample_background = true /\
  (fgpid (jobs sample_background) = 0 <->
   fg_count (jobs sample_background) = 0%nat).
Proof.
  split; [reflexivity|].
  exact (proj1 (fgpid_foreground_job sample_background eq_refl)).
Defined.

Lemma listjobs_lines_witness :
  table_ok sample_table = true /\
  trace (listjobs sample_table)
  = [Printf "[1] (100) "; Printf "Running "; Printf ("sleep 100 &" +:+ LF);
     Printf "[2] (102) "; Printf "Foreground "; Printf ("sleep 5" +:+ LF)].
Proof.
  split; [reflexivity|].
  rewrite (listjobs_lines sample_table eq_refl). reflexivity.
Defined.

Lemma sigchld_handler_untracked_witness :
  0 < 117 /\
  getjobpid (jobs sample_table) 117 = None /\
  WIFSIGNALED 9 = true /\
  sigchld_handler [(117, 9)] sample_table
  = sigchld_handler []
      (emit (Printf ("Job [0] (117) terminated by signal 9" +:+ LF))
         (emit (Waitpid (-1) (Z.lor WUNTRACED WNOHANG) 117) sample_table)).
Proof.
  split; [reflexivity|]. split; [reflexivity|]. split; [reflexivity|].
  apply (sigchld_handler_untracked sample_table 117 9 [] eq_refl eq_refl).
  reflexivity.
Defined.

Lemma sigchld_handler_drains_witness :
  NoDup (live_pids (jobs sample_table)) /\
  exists s' : shell,
    sigchld_handler [(102, 0); (100, 9)] sample_table = Ret tt s' /\
    forall r : Z * Z,
      r ∈ [(102, 0); (100, 9)] -> getjobpid (jobs s') (fst r) = None.
Proof.
  split; [exact sample_table_pids|].
  apply (sigchld_handler_drains [(102, 0); (100, 9)] sample_table
           sample_table_pids).
  constructor; [split; [reflexivity|left; reflexivity]|].
  constructor; [split; [reflexivity|right; reflexivity]|].
  constructor.
Defined.

Lemma atoi_reads_printed_int_witness :
  - 2 ^ 31 <= 12 < 2 ^ 31 /\ atoi (fmt_d 12 +:+ "abc") = 12.
Proof.
  assert (- 2 ^ 31 <= 12 < 2 ^ 31) as H by lia.
  split; [exact H|].
  apply (atoi_reads_printed_int 12 "abc" H).
  intros c r E. injection E as <- _. reflexivity.
Defined.

Lemma resolve_printed_ids_witness :
  table_ok sample_table = true /\
  jobs sample_table !! 1%nat = Some (Job 102 2 FG ("sleep 5" +:+ LF)) /\
  resolve "fg" ("%" +:+ fmt_d 2) (jobs sample_table) = inl (1%nat, 102) /\
  resolve "fg" (fmt_d 102) (jobs sample_table) = inl (1%nat, 102).
Proof.
  split; [reflexivity|]. split; [reflexivity|].
  apply (resolve_printed_ids sample_table "fg" 1
           (Job 102 2 FG ("sleep 5" +:+ LF)) eq_refl sample_table_pids
           sample_table_jids eq_refl); [discriminate|reflexivity..].
Defined.

Lemma parseline_words_witness :
  plain "sleep" = true /\ plain "5&" = true /\
  parseline (" sleep  5&" +:+ LF) = Some (0, ["sleep"; "5&"]).
Proof.
  split; [reflexivity|]. split; [reflexivity|].
  apply (parseline_words 1 0 [("sleep", 1%nat)] "5&" "010");
    [repeat constructor|reflexivity].
Defined.

Lemma parseline_quoted_witness :
  plain "echo" = true /\ has_char "'" "a b" = false /\
  parseline ("echo 'a b'" +:+ LF) = Some (0, ["echo"; "a b"]).
Proof.
  split; [reflexivity|]. split; [reflexivity|].
  apply (parseline_quoted 0 0 [("echo", 0%nat)] "a b" "010");
    [repeat constructor|reflexivity].
Defined.

Lemma parseline_unterminated_quote_witness :
  plain "echo" = true /\ has_char "'" "abc def" = false /\
  parseline ("echo 'abc def" +:+ LF) = Some (0, ["echo"]).
Proof.
  split; [reflexivity|]. split; [reflexivity|].
  apply (parseline_unterminated_quote 0 [] "echo" 0 "abc def" "010");
    [constructor|reflexivity..].
Defined.

Lemma child_without_redirection_witness :
  Forall (fun w => operator w = false) ["/bin/ls"; "-l"] /\
  child sample_sys ["/bin/ls"; "-l"]
  = [Setpgid 0 0; Unblock; Execve (Some "/bin/ls") ["/bin/ls"; "-l"] true].
Proof.
  assert (Forall (fun w => operator w = false) ["/bin/ls"; "-l"]) as H
      by repeat constructor.
  split; [exact H|].
  exact (child_without_redirection sample_sys "/bin/ls" ["-l"] H).
Defined.

Lemma do_redirect_first_operator_witness :
  Forall (fun w => operator w = false) ["/bin/ls"] /\
  operator ">" = true /\
  (redirect_of sample_sys ">" (Some "out")).2 = true /\
  exec_args (do_redirect sample_sys (Some <$> ["/bin/ls"; ">"; "out"; "-l"])).1
  = ["/bin/ls"].
Proof.
  assert (Forall (fun w => operator w = false) ["/bin/ls"]) as H
      by repeat constructor.
  split; [exact H|]. split; [reflexivity|]. split; [reflexivity|].
  exact (proj1 (proj2 (do_redirect_first_operator sample_sys ["/bin/ls"] ">"
                         ["out"; "-l"] H eq_refl) eq_refl)).
Defined.

Lemma child_output_redirection_witness :
  Forall (fun w => operator w = false) ["/bin/ls"; "-l"] /\
  Forall (fun w => operator w = false) ["/proc/out"] /\
  sys_open sample_sys "/proc/out" 65 < 0 /\
  child sample_sys ["/bin/ls"; "-l"; ">"; "/proc/out"]
  = [Open (Some "/proc/out") 65 438 (-1); Perror "open"; Setpgid 0 0; Unblock;
     Execve (Some "/bin/ls") ["/bin/ls"; "-l"; ">"; "/proc/out"] true].
Proof.
  assert (Forall (fun w => operator w = false) ["/bin/ls"; "-l"]) as H1
      by repeat constructor.
  assert (Forall (fun w => operator w = false) ["/proc/out"]) as H2
      by repeat constructor.
  split; [exact H1|]. split; [exact H2|]. split; [reflexivity|].
  exact (proj2 (child_output_redirection sample_sys "/bin/ls" ["-l"]
                  "/proc/out" [] H1 H2) eq_refl).
Defined.

Lemma eval_table_full_witness :
  Forall (fun j => pid j ≠ 0) (jobs full_table) /\
  getjobpid (jobs full_table) 117 = None /\
  eval (Command ("sleep 1 &" +:+ LF) ["sleep"; "1"] 1 117 "" [] []) full_table
  = Ret tt
      (emit (Printf ("[0] (117) sleep 1 &" +:+ LF))
         (emit (Printf ("Tried to create too many jobs" +:+ LF)) full_table)).
Proof.
  assert (Forall (fun j => pid j ≠ 0) (jobs full_table)) as H.
  { apply (bool_decide_unpack _). vm_compute. exact I. }
  split; [exact H|]. split; [reflexivity|].
  exact (eval_table_full
           (Command ("sleep 1 &" +:+ LF) ["sleep"; "1"] 1 117 "" [] [])
           "sleep" ["1"] full_table eq_refl eq_refl
           (Zle_bool_imp_le 1 117 eq_refl) eq_refl H).
Defined.

Lemma eval_background_launch_witness :
  builtin_name "ls" = false /\
  getjobpid (jobs sample_background) 103 = None /\
  eval (Command ("ls &" +:+ LF) ["ls"] 1 103 "" [] []) sample_background
  = Ret tt
      (emit (Printf ("[2] (103) ls &" +:+ LF))
         (snd (addjob 103 BG ("ls &" +:+ LF) sample_background))).
Proof.
  split; [reflexivity|]. split; [reflexivity|].
  apply (eval_background_launch
           (Command ("ls &" +:+ LF) ["ls"] 1 103 "" [] [])
           "ls" [] sample_background eq_refl eq_refl);
    [exact (Zle_bool_imp_le 1 103 eq_refl)|reflexivity
    |exact sample_background_free|discriminate].
Defined.

Lemma eval_foreground_reaped_witness :
  builtin_name "sleep" = false /\
  getjobpid (jobs sample_background) 103 = None /\
  WIFEXITED 0 = true /\
  exists s' : shell,
    eval (Command ("sleep 5" +:+ LF) ["sleep"; "5"] 0 103 "" []
            [[]; [Sigchld [(103, 0)]]]) sample_background
    = Ret tt s' /\
    jobs s' = jobs sample_background.
Proof.
  split; [reflexivity|]. split; [reflexivity|]. split; [reflexivity|].
  destruct (eval_foreground_reaped
              (Command ("sleep 5" +:+ LF) ["sleep"; "5"] 0 103 "" []
                 [[]; [Sigchld [(103, 0)]]])
              "sleep" ["5"] sample_background 1 0 []
              eq_refl eq_refl (Zle_bool_imp_le 1 103 eq_refl) eq_refl
              sample_background_free sample_background_clean
              eq_refl eq_refl eq_refl eq_refl)
    as (s' & Hret & Hjobs & _).
  exists s'. split; [exact Hret|exact Hjobs].
Defined.

Lemma tsh_fork_failure_witness :
  builtin_name "ls" = false /\
  tsh [([], Command ("ls" +:+ LF) ["ls"] 0 (-1)
              "Resource temporarily unavailable" [] []);
       bg_line 100] (tsh_start 0)
  = Exit 1
      (emit (Printf ("Fork error: Resource temporarily unavailable" +:+ LF))
         (tsh_start 0)).
Proof.
  split; [reflexivity|].
  exact (tsh_fork_failure []
           (Command ("ls" +:+ LF) ["ls"] 0 (-1)
              "Resource temporarily unavailable" [] [])
           "ls" [] [bg_line 100] (tsh_start 0) (tsh_start 0)
           eq_refl eq_refl eq_refl eq_refl).
Defined.

Lemma eval_builtin_no_fork_witness :
  builtin_name "jobs" = true /\
  eval (Command ("jobs &" +:+ LF) ["jobs"] 1 0 "" [] []) sample_table
  = eval (Command ("jobs" +:+ LF) ["jobs"] 0 0 "" [] []) sample_table.
Proof.
  split; [reflexivity|].
  exact (eval_builtin_no_fork
           (Command ("jobs &" +:+ LF) ["jobs"] 1 0 "" [] [])
           (Command ("jobs" +:+ LF) ["jobs"] 0 0 "" [] [])
           "jobs" [] sample_table eq_refl eq_refl eq_refl eq_refl).
Defined.

Lemma addjob_reuses_live_jid_witness :
  nextjid wrapped_table ∈ live_jids (jobs wrapped_table) /\
  fst (addjob 117 BG "job" wrapped_table) = 1 /\
  ~ NoDup (live_jids (jobs (snd (addjob 117 BG "job" wrapped_table)))).
Proof.
  assert (nextjid wrapped_table ∈ live_jids (jobs wrapped_table)) as H.
  { apply (bool_decide_unpack _). vm_compute. exact I. }
  split; [exact H|].
  apply (addjob_reuses_live_jid wrapped_table 117 BG "job");
    [exact (Zle_bool_imp_le 1 117 eq_refl)|exact H|].
  exists (Job 0 0 UNDEF ""). split; [|reflexivity].
  apply (list_elem_of_lookup_2 _ 15%nat). vm_compute. reflexivity.
Defined.

